(** * Featured-work carousel ([src/carousel.js]): a shallow embedding

    The file embeds the class [FeaturedWorkCarousel] together with the part of
    the browser it talks to: the slide elements and their class lists, the
    event-listener lists of [document], [window], the two controls and the
    scatterplot containers, the list of animation-frame callbacks, and
    [Math.random].  Methods keep the names they have in the source.

    Numbers.  Every JavaScript number is an IEEE-754 binary64 value.
    - Slide indices, element counts, pixel sizes and animation handles are
      integer valued and far below 2^53 (a [NodeList] holds fewer than 2^32
      nodes), where binary64 arithmetic is exact: they are modelled by [Z],
      extended with [NaN] for [currentSlide], which the source can set to it.
    - Coordinates, colours, angles and the camera aspect are modelled by
      [number]: a rational for a finite value (each operation rounds the exact
      result to the nearest binary64 value, ties to even), the two infinities
      and [NaN].  The sign of zero is not represented; the source never divides
      by a zero that could be negative.

    Left out.  The pixels painted on the canvas and the scene graph's lights,
    material and geometry buffers are not represented: no method reads them
    back.  The 2D context and the [THREE] constructors are taken to succeed,
    so that the only exception of the embedding is the [TypeError] of a
    property access on [null].  An event is delivered at the target the source
    registers the listener on: a key-down at [document], a resize at [window],
    a click at a control, a pointer event at a container. *)

From Stdlib Require Import ZArith QArith Qpower Qround Qabs Lia Lqa Floats.
From stdpp Require Import base tactics option list strings gmap pretty sorting.

(** ** Integer-valued numbers *)

Inductive intnum : Type :=
| Int (z : Z)
| NaNi.

Definition iadd (a b : intnum) : intnum :=
  match a, b with
  | Int m, Int n => Int (m + n)
  | _, _ => NaNi
  end.

Definition isub (a b : intnum) : intnum :=
  match a, b with
  | Int m, Int n => Int (m - n)
  | _, _ => NaNi
  end.

(** [a % b]: the remainder takes the sign of the dividend ([Z.rem]), and a zero
    divisor gives [NaN]. *)
Definition irem (a b : intnum) : intnum :=
  match a, b with
  | Int m, Int n => if (n =? 0)%Z then NaNi else Int (Z.rem m n)
  | _, _ => NaNi
  end.

(** [a === b] on numbers: [NaN] equals nothing, itself included. *)
Definition strict_eq (a b : intnum) : bool :=
  match a, b with
  | Int m, Int n => (m =? n)%Z
  | _, _ => false
  end.

(** ** binary64 arithmetic *)

(** [ilog2 q] is the integer [k] with [2^k <= q < 2^(k+1)], for [0 < q]. *)
Definition ilog2 (q : Q) : Z :=
  let k := (Z.log2 (Qnum q) - Z.log2 (Zpos (Qden q)))%Z in
  if Qle_bool (2 ^ k) q then k else (k - 1)%Z.

(** Nearest integer, ties to the even one. *)
Definition rne (q : Q) : Z :=
  let f := Qfloor q in
  match Qcompare (q - inject_Z f) (1 # 2) with
  | Lt => f
  | Gt => (f + 1)%Z
  | Eq => if Z.even f then f else (f + 1)%Z
  end.

(** The exponent of the last place of [q]: 53 significant bits, and no
    exponent below that of the subnormal numbers. *)
Definition ulp_exp (q : Q) : Z := Z.max (ilog2 q - 52) (-1074).

(** Rounding of a positive rational to the binary64 grid. *)
Definition round_pos (q : Q) : Q :=
  let e := ulp_exp q in
  Qred (inject_Z (rne (q * 2 ^ (- e))) * 2 ^ e).

Definition fl (q : Q) : Q :=
  match Qcompare q 0 with
  | Eq => 0
  | Gt => round_pos q
  | Lt => Qred (- round_pos (- q))
  end.

Inductive number : Type :=
| Fin (q : Q)
| PInf
| NInf
| NaN.

(** The binary64 result of an operation whose exact result is [q]; a rounded
    magnitude of 2^1024 or more overflows. *)
Definition round (q : Q) : number :=
  let v := fl q in
  if Qle_bool (2 ^ 1024) v then PInf
  else if Qle_bool v (- 2 ^ 1024) then NInf
  else Fin v.

(** A decimal literal of the source denotes the nearest binary64 value. *)
Definition lit (q : Q) : number := round q.

Definition of_Z (n : Z) : number := round (inject_Z n).

Definition neg (a : number) : number :=
  match a with
  | Fin q => Fin (Qred (- q))
  | PInf => NInf
  | NInf => PInf
  | NaN => NaN
  end.

Definition add (a b : number) : number :=
  match a, b with
  | Fin p, Fin q => round (p + q)
  | NaN, _ | _, NaN => NaN
  | PInf, NInf | NInf, PInf => NaN
  | PInf, _ | _, PInf => PInf
  | NInf, _ | _, NInf => NInf
  end.

Definition sub (a b : number) : number := add a (neg b).

(** The sign of a product or quotient with an infinite operand: [s] is the
    sign of the infinity ([true] for positive), [q] the finite operand. *)
Definition signed_inf (s : bool) (q : Q) : number :=
  match Qcompare q 0 with
  | Eq => NaN
  | Gt => if s then PInf else NInf
  | Lt => if s then NInf else PInf
  end.

Definition mul (a b : number) : number :=
  match a, b with
  | Fin p, Fin q => round (p * q)
  | NaN, _ | _, NaN => NaN
  | PInf, Fin q | Fin q, PInf => signed_inf true q
  | NInf, Fin q | Fin q, NInf => signed_inf false q
  | PInf, PInf | NInf, NInf => PInf
  | PInf, NInf | NInf, PInf => NInf
  end.

Definition div (a b : number) : number :=
  match a, b with
  | Fin p, Fin q =>
      if Qeq_bool q 0 then signed_inf true p else round (p / q)
  | NaN, _ | _, NaN => NaN
  | Fin _, (PInf | NInf) => Fin 0
  | PInf, Fin q => if Qle_bool 0 q then PInf else NInf
  | NInf, Fin q => if Qle_bool 0 q then NInf else PInf
  | (PInf | NInf), (PInf | NInf) => NaN
  end.

(** [a < b] and [a <= b] as JavaScript evaluates them. *)
Definition num_lt (a b : number) : bool :=
  match a, b with
  | NaN, _ | _, NaN => false
  | Fin p, Fin q => negb (Qle_bool q p)
  | PInf, _ | _, NInf => false
  | NInf, _ | _, PInf => true
  end.

Definition num_le (a b : number) : bool :=
  match a, b with
  | NaN, _ | _, NaN => false
  | Fin p, Fin q => Qle_bool p q
  | NInf, _ | _, PInf => true
  | PInf, _ | _, NInf => false
  end.

(** The arithmetic is unfolded by rewriting, not by [simpl]. *)
Arguments fl : simpl never.
Arguments round : simpl never.
Arguments lit : simpl never.
Arguments of_Z : simpl never.
Arguments add : simpl never.
Arguments sub : simpl never.
Arguments mul : simpl never.
Arguments div : simpl never.

(** The value of a hardware binary64 number, for comparing the arithmetic
    above with the kernel's floating-point unit. *)
Definition of_float (f : float) : number :=
  match Prim2SF f with
  | S754_zero _ => Fin 0
  | S754_infinity false => PInf
  | S754_infinity true => NInf
  | S754_nan => NaN
  | S754_finite s m e =>
      Fin (Qred ((if s then - 1 else 1) * inject_Z (Zpos m) * 2 ^ e))
  end.

(** [x] is a binary64 value. *)
Definition is_double (x : Q) : Prop := (fl x == x)%Q.

(** What [Math.random()] may return: a binary64 value in [0, 1). *)
Definition is_draw (a : number) : Prop :=
  exists u : Q, a = Fin u /\ is_double u /\ (0 <= u)%Q /\ (u < 1)%Q.

(** ** The host: [Math] *)

(** 0x1.921fb54442d18p+1, the binary64 value of [Math.PI]. *)
Definition Math_PI : number := Fin (884279719003555 # 281474976710656).

(** [Math.cos] and [Math.sin] are implementation-approximated; [Math.random]
    is given by the sequence of the values its successive calls return. *)
Record Host : Type := {
  Math_cos : number -> number;
  Math_sin : number -> number;
  Math_random : nat -> number
}.

(** Every call of [Math.random] returns a binary64 value in [0, 1). *)
Definition random_ok (h : Host) : Prop := forall n : nat, is_draw (Math_random h n).

(** ** Sample data *)

Module Color.
Record t : Type := { r : number; g : number; b : number }.
End Color.

Module Point.
Record t : Type := {
  x : number;
  y : number;
  z : number;
  color : Color.t;
  imageUrl : string
}.
End Point.

Section generateSampleData.
Context (h : Host).

(** [const numPoints = 50 + slideNumber * 20]. *)
Definition numPoints (slideNumber : Z) : Z := 50 + slideNumber * 20.

(** [(i / numPoints) * Math.PI * 2] *)
Definition angle_of (n i : Z) : number :=
  mul (mul (div (of_Z i) (of_Z n)) Math_PI) (lit 2).

(** [1 + Math.random() * 2], for the draw [u]. *)
Definition radius_of (u : number) : number := add (lit 1) (mul u (lit 2)).

(** [(Math.random() - 0.5) * 2] *)
Definition height_of (u : number) : number := mul (sub u (lit (5 # 10))) (lit 2).

(** [(Math.random() - 0.5) * 0.5] *)
Definition jitter_of (u : number) : number :=
  mul (sub u (lit (5 # 10))) (lit (5 # 10)).

(** The body of the loop for index [i]: [k] calls of [Math.random] were made
    before it, and it makes seven, in the order of the source text. *)
Definition sample_point (slideNumber n i : Z) (k : nat) : Point.t :=
  let angle := angle_of n i in
  let radius := radius_of (Math_random h k) in
  let height := height_of (Math_random h (k + 1)) in
  {| Point.x := add (mul (Math_cos h angle) radius) (jitter_of (Math_random h (k + 2)));
     Point.y := height;
     Point.z := add (mul (Math_sin h angle) radius) (jitter_of (Math_random h (k + 3)));
     Point.color :=
       {| Color.r := add (lit (3 # 10)) (mul (Math_random h (k + 4)) (lit (7 # 10)));
          Color.g := add (lit (5 # 10)) (mul (Math_random h (k + 5)) (lit (5 # 10)));
          Color.b := add (lit (8 # 10)) (mul (Math_random h (k + 6)) (lit (2 # 10))) |};
     Point.imageUrl :=
       "image-" +:+ pretty slideNumber +:+ "-" +:+ pretty i +:+ ".jpg" |}.

(** [for (let i = 0; i < numPoints; i++) points.push(...)], from the state
    ([i], [points], [k] random draws made); [None] when the fuel runs out
    before the test [i < numPoints] fails. *)
Fixpoint generate_loop (fuel : nat) (slideNumber n i : Z)
    (points : list Point.t) (k : nat) : option (list Point.t * nat) :=
  match fuel with
  | O => None
  | S fuel' =>
      if (i <? n)%Z
      then generate_loop fuel' slideNumber n (i + 1)
             (points ++ [sample_point slideNumber n i k]) (k + 7)
      else Some (points, k)
  end.

(** [generateSampleData(slideNumber)], when [k] draws were made before the
    call: the points and the number of draws made after it. *)
Definition generateSampleData (slideNumber : Z) (k : nat) : list Point.t * nat :=
  let n := numPoints slideNumber in
  default ([], k) (generate_loop (S (Z.to_nat n)) slideNumber n 0 [] k).

End generateSampleData.

(** A host for the examples: trigonometry by the first terms of the Taylor
    series, and [Math.random] cycling through [draws]. *)
Definition poly_cos (a : number) : number :=
  let a2 := mul a a in
  add (sub (lit 1) (div a2 (lit 2))) (div (mul a2 a2) (lit 24)).

Definition poly_sin (a : number) : number :=
  let a2 := mul a a in
  add (sub a (div (mul a2 a) (lit 6))) (div (mul (mul a2 a2) a) (lit 120)).

Definition cycle (draws : list Q) (n : nat) : number :=
  Fin (nth (n mod length draws) draws 0%Q).

Definition example_host (draws : list Q) : Host :=
  {| Math_cos := poly_cos; Math_sin := poly_sin; Math_random := cycle draws |}.

(** ** The page and the browser state *)

Module Slide.
Record t : Type := { classList : list string }.
End Slide.

(** [classList.contains], [classList.add] and [classList.remove]: a class
    list is a set of tokens kept in order. *)
Definition classList_contains (token : string) (s : Slide.t) : bool :=
  bool_decide (token ∈ Slide.classList s).

Definition classList_add (token : string) (s : Slide.t) : Slide.t :=
  if classList_contains token s then s
  else {| Slide.classList := Slide.classList s ++ [token] |}.

Definition classList_remove (token : string) (s : Slide.t) : Slide.t :=
  {| Slide.classList := filter (λ t, t ≠ token) (Slide.classList s) |}.

Inductive Child : Type := CanvasChild | RendererChild.

Module Container.
Record t : Type := {
  clientWidth : Z;
  clientHeight : Z;
  children : list Child
}.
End Container.

(** Event targets: [document], [window], the elements found by
    [.prev-btn] and [.next-btn] (two elements, when both exist), and
    [#scatterplot-container-i]. *)
Inductive Target : Type :=
| Document
| Window
| PrevBtn
| NextBtn
| ContainerEl (i : Z).

Inductive EventType : Type :=
| click | keydown | resize | mousedown | mousemove | mouseup | mouseleave.

(** The function objects the source registers as listeners: the two arrow
    functions of [init], [this.keyboardHandler], and for the visualization of
    slide [i] its [handleResize] and the four pointer handlers. *)
Inductive Handler : Type :=
| OnPrevClick
| OnNextClick
| KeyboardHandler
| CanvasResize (i : Z)
| SceneResize (i : Z)
| OnMouseDown (i : Z)
| OnMouseMove (i : Z)
| OnMouseUp (i : Z)
| OnMouseLeave (i : Z).

(** The functions passed to [requestAnimationFrame]: [draw] and [animate] of
    the visualization of slide [i]. *)
Inductive Callback : Type :=
| Draw (i : Z)
| Animate (i : Z).

#[global] Instance Target_eq_dec : EqDecision Target.
Proof. solve_decision. Defined.
#[global] Instance EventType_eq_dec : EqDecision EventType.
Proof. solve_decision. Defined.
#[global] Instance Handler_eq_dec : EqDecision Handler.
Proof. solve_decision. Defined.
#[global] Instance Callback_eq_dec : EqDecision Callback.
Proof. solve_decision. Defined.

Record Listener : Type := {
  l_target : Target;
  l_type : EventType;
  l_handler : Handler
}.

#[global] Instance Listener_eq_dec : EqDecision Listener.
Proof. solve_decision. Defined.

Record Event : Type := {
  key : string;
  clientX : number;
  clientY : number
}.

(** The variables a visualization's closures share: the [container] argument,
    the size of the canvas (of the renderer's surface, with the camera aspect,
    for the 3D strategy), the points, the rotation and the pointer state.
    [cv_animationId] and [sv_animationId] are the local [let animationId] of
    the two factory functions, [None] for [null] and [undefined].  The pixels
    drawn, the lights and the geometry buffers are not represented. *)
Record CanvasViz : Type := {
  cv_container : Z;
  cv_width : Z;
  cv_height : Z;
  cv_points : list Point.t;
  cv_rotation : number;
  cv_animationId : option Z
}.

Record SceneViz : Type := {
  sv_container : Z;
  sv_aspect : number;
  sv_size : Z * Z;
  sv_points : list Point.t;
  sv_rotation_x : number;
  sv_rotation_y : number;
  sv_animationId : option Z;
  sv_isDragging : bool;
  sv_previousMousePosition : number * number
}.

Inductive Viz : Type :=
| VCanvas (c : CanvasViz)
| VScene (v : SceneViz).

(** The object a factory function returns: [animationId] is a property
    initialised with the value the local variable has at the [return]. *)
Record Plot : Type := {
  plot_animationId : option Z;
  plot_handleResize : option Handler
}.

Record State : Type := {
  (* the page *)
  slides : list Slide.t;
  prevBtn : option Target;
  nextBtn : option Target;
  containers : gmap Z Container.t;
  THREE_defined : bool;
  (* the browser *)
  listeners : list Listener;
  raf_handle : Z;
  raf_callbacks : list (Z * Callback);
  draws : nat;
  vizs : gmap Z Viz;
  (* the carousel's own fields *)
  currentSlide : intnum;
  scatterplots : gmap Z Plot;
  keyboardHandler : option Handler
}.

Definition set_slides (v : list Slide.t) (s : State) : State :=
  {| slides := v; prevBtn := prevBtn s; nextBtn := nextBtn s;
     containers := containers s; THREE_defined := THREE_defined s;
     listeners := listeners s; raf_handle := raf_handle s;
     raf_callbacks := raf_callbacks s; draws := draws s; vizs := vizs s;
     currentSlide := currentSlide s; scatterplots := scatterplots s;
     keyboardHandler := keyboardHandler s |}.

Definition set_containers (v : gmap Z Container.t) (s : State) : State :=
  {| slides := slides s; prevBtn := prevBtn s; nextBtn := nextBtn s;
     containers := v; THREE_defined := THREE_defined s;
     listeners := listeners s; raf_handle := raf_handle s;
     raf_callbacks := raf_callbacks s; draws := draws s; vizs := vizs s;
     currentSlide := currentSlide s; scatterplots := scatterplots s;
     keyboardHandler := keyboardHandler s |}.

Definition set_listeners (v : list Listener) (s : State) : State :=
  {| slides := slides s; prevBtn := prevBtn s; nextBtn := nextBtn s;
     containers := containers s; THREE_defined := THREE_defined s;
     listeners := v; raf_handle := raf_handle s;
     raf_callbacks := raf_callbacks s; draws := draws s; vizs := vizs s;
     currentSlide := currentSlide s; scatterplots := scatterplots s;
     keyboardHandler := keyboardHandler s |}.

Definition set_raf (handle : Z) (v : list (Z * Callback)) (s : State) : State :=
  {| slides := slides s; prevBtn := prevBtn s; nextBtn := nextBtn s;
     containers := containers s; THREE_defined := THREE_defined s;
     listeners := listeners s; raf_handle := handle;
     raf_callbacks := v; draws := draws s; vizs := vizs s;
     currentSlide := currentSlide s; scatterplots := scatterplots s;
     keyboardHandler := keyboardHandler s |}.

Definition set_draws (v : nat) (s : State) : State :=
  {| slides := slides s; prevBtn := prevBtn s; nextBtn := nextBtn s;
     containers := containers s; THREE_defined := THREE_defined s;
     listeners := listeners s; raf_handle := raf_handle s;
     raf_callbacks := raf_callbacks s; draws := v; vizs := vizs s;
     currentSlide := currentSlide s; scatterplots := scatterplots s;
     keyboardHandler := keyboardHandler s |}.

Definition set_vizs (v : gmap Z Viz) (s : State) : State :=
  {| slides := slides s; prevBtn := prevBtn s; nextBtn := nextBtn s;
     containers := containers s; THREE_defined := THREE_defined s;
     listeners := listeners s; raf_handle := raf_handle s;
     raf_callbacks := raf_callbacks s; draws := draws s; vizs := v;
     currentSlide := currentSlide s; scatterplots := scatterplots s;
     keyboardHandler := keyboardHandler s |}.

Definition set_currentSlide (v : intnum) (s : State) : State :=
  {| slides := slides s; prevBtn := prevBtn s; nextBtn := nextBtn s;
     containers := containers s; THREE_defined := THREE_defined s;
     listeners := listeners s; raf_handle := raf_handle s;
     raf_callbacks := raf_callbacks s; draws := draws s; vizs := vizs s;
     currentSlide := v; scatterplots := scatterplots s;
     keyboardHandler := keyboardHandler s |}.

Definition set_scatterplots (v : gmap Z Plot) (s : State) : State :=
  {| slides := slides s; prevBtn := prevBtn s; nextBtn := nextBtn s;
     containers := containers s; THREE_defined := THREE_defined s;
     listeners := listeners s; raf_handle := raf_handle s;
     raf_callbacks := raf_callbacks s; draws := draws s; vizs := vizs s;
     currentSlide := currentSlide s; scatterplots := v;
     keyboardHandler := keyboardHandler s |}.

Definition set_keyboardHandler (v : option Handler) (s : State) : State :=
  {| slides := slides s; prevBtn := prevBtn s; nextBtn := nextBtn s;
     containers := containers s; THREE_defined := THREE_defined s;
     listeners := listeners s; raf_handle := raf_handle s;
     raf_callbacks := raf_callbacks s; draws := draws s; vizs := vizs s;
     currentSlide := currentSlide s; scatterplots := scatterplots s;
     keyboardHandler := v |}.

(** ** Exceptions *)

(** A method either completes with a value and a state, or throws.  The only
    throw the embedding knows is the [TypeError] of a property access on
    [null]. *)
Inductive Res (A : Type) : Type :=
| Ok (a : A) (s : State)
| Throw (e : string) (s : State).
Arguments Ok {A} a s.
Arguments Throw {A} e s.

Definition M (A : Type) : Type := State -> Res A.

#[global] Instance M_ret : MRet M := λ A a s, Ok a s.
#[global] Instance M_bind : MBind M := λ A B f m s,
  match m s with
  | Ok a s' => f a s'
  | Throw e s' => Throw e s'
  end.

Definition throw {A : Type} (e : string) : M A := λ s, Throw e s.
Definition gets {A : Type} (f : State -> A) : M A := λ s, Ok (f s) s.
Definition modify (f : State -> State) : M unit := λ s, Ok tt (f s).

(** The receiver of a property access: [null] throws. *)
Definition deref {A : Type} (o : option A) : M A :=
  match o with
  | Some a => mret a
  | None => throw "TypeError"
  end.

(** Truthiness of an element-or-null and of a handle-or-null. *)
Definition truthy {A : Type} (o : option A) : bool :=
  match o with Some _ => true | None => false end.

Definition truthy_id (o : option Z) : bool :=
  match o with Some n => negb (n =? 0)%Z | None => false end.

(** ** Browser interfaces *)

(** [target.addEventListener(type, handler)]: a listener already in the list
    is not added again. *)
Definition add_listener (l : Listener) (s : State) : State :=
  if bool_decide (l ∈ listeners s) then s
  else set_listeners (listeners s ++ [l]) s.

Definition addEventListener (target : option Target) (type : EventType)
    (handler : Handler) : M unit :=
  t ← deref target;
  modify (add_listener {| l_target := t; l_type := type; l_handler := handler |}).

Definition removeEventListener (target : Target) (type : EventType)
    (handler : Handler) (s : State) : State :=
  set_listeners
    (filter (λ l, l ≠ {| l_target := target; l_type := type; l_handler := handler |})
       (listeners s)) s.

(** [requestAnimationFrame(cb)]: the handle is the incremented counter, and
    the callback joins the list of those the next frame runs. *)
Definition requestAnimationFrame (cb : Callback) (s : State) : Z * State :=
  let handle := (raf_handle s + 1)%Z in
  (handle, set_raf handle (raf_callbacks s ++ [(handle, cb)]) s).

(** [cancelAnimationFrame(handle)] removes the callback with that handle, if
    it is still in the list. *)
Definition cancelAnimationFrame (handle : Z) (s : State) : State :=
  set_raf (raf_handle s) (filter (λ p, p.1 ≠ handle) (raf_callbacks s)) s.

(** [document.getElementById(`scatterplot-container-${i}`)]: the element is
    named by its ordinal. *)
Definition getElementById (i : Z) (s : State) : option Z :=
  match containers s !! i with
  | Some _ => Some i
  | None => None
  end.

Definition container_of (c : Z) : M Container.t := λ s,
  match containers s !! c with
  | Some ct => Ok ct s
  | None => Throw "TypeError" s
  end.

Definition appendChild (c : Z) (child : Child) (s : State) : State :=
  match containers s !! c with
  | Some ct =>
      set_containers
        (<[c := {| Container.clientWidth := Container.clientWidth ct;
                   Container.clientHeight := Container.clientHeight ct;
                   Container.children := Container.children ct ++ [child] |}]>
           (containers s)) s
  | None => s
  end.

(** [Object.values(o)] of an object with integer keys: the values in
    ascending order of the keys. *)
Definition Object_values {A : Type} (o : gmap Z A) : list A :=
  (merge_sort (λ p q : Z * A, Is_true (p.1 <=? q.1)%Z) (map_to_list o)).*2.

(** ** Navigation *)

Definition slides_length (s : State) : intnum :=
  Int (Z.of_nat (length (slides s))).

Definition updateSlides (s : State) : State :=
  set_slides
    (imap (λ index slide,
        if strict_eq (Int (Z.of_nat index)) (currentSlide s)
        then classList_add "active" slide
        else classList_remove "active" slide)
       (slides s)) s.

Definition nextSlide (s : State) : State :=
  updateSlides
    (set_currentSlide
       (irem (iadd (currentSlide s) (Int 1)) (slides_length s)) s).

Definition prevSlide (s : State) : State :=
  updateSlides
    (set_currentSlide
       (irem (iadd (isub (currentSlide s) (Int 1)) (slides_length s))
          (slides_length s)) s).

(** ** Visualizations *)

Section visualizations.
Context (h : Host).

Definition sampleData (slideNumber : Z) : M (list Point.t) := λ s,
  let '(points, k) := generateSampleData h slideNumber (draws s) in
  Ok points (set_draws k s).

Definition set_viz (i : Z) (v : Viz) (s : State) : State :=
  set_vizs (<[i := v]> (vizs s)) s.

(** [draw] of the 2D placeholder of slide [i]: after painting the frame it
    advances the rotation and requests the next frame, storing the handle in
    the closure's [animationId]. *)
Definition draw (i : Z) (s : State) : State :=
  match vizs s !! i with
  | Some (VCanvas c) =>
      let rotation := add (cv_rotation c) (lit (1 # 100)) in
      let '(handle, s1) := requestAnimationFrame (Draw i) s in
      set_viz i
        (VCanvas
           {| cv_container := cv_container c; cv_width := cv_width c;
              cv_height := cv_height c; cv_points := cv_points c;
              cv_rotation := rotation; cv_animationId := Some handle |}) s1
  | _ => s
  end.

(** [animate] of the 3D scatterplot of slide [i]: it requests the next frame
    first, then rotates the point cloud and renders. *)
Definition animate (i : Z) (s : State) : State :=
  match vizs s !! i with
  | Some (VScene v) =>
      let '(handle, s1) := requestAnimationFrame (Animate i) s in
      set_viz i
        (VScene
           {| sv_container := sv_container v; sv_aspect := sv_aspect v;
              sv_size := sv_size v; sv_points := sv_points v;
              sv_rotation_x := add (sv_rotation_x v) (lit (2 # 1000));
              sv_rotation_y := add (sv_rotation_y v) (lit (3 # 1000));
              sv_animationId := Some handle;
              sv_isDragging := sv_isDragging v;
              sv_previousMousePosition := sv_previousMousePosition v |}) s1
  | _ => s
  end.

(** [handleResize] of the 2D placeholder. *)
Definition canvas_handleResize (i : Z) (s : State) : State :=
  match vizs s !! i with
  | Some (VCanvas c) =>
      match containers s !! cv_container c with
      | Some ct =>
          set_viz i
            (VCanvas
               {| cv_container := cv_container c;
                  cv_width := Container.clientWidth ct;
                  cv_height := Container.clientHeight ct;
                  cv_points := cv_points c; cv_rotation := cv_rotation c;
                  cv_animationId := cv_animationId c |}) s
      | None => s
      end
  | _ => s
  end.

(** [handleResize] of the 3D scatterplot. *)
Definition scene_handleResize (i : Z) (s : State) : State :=
  match vizs s !! i with
  | Some (VScene v) =>
      match containers s !! sv_container v with
      | Some ct =>
          let w := Container.clientWidth ct in
          let ht := Container.clientHeight ct in
          if (0 <? w)%Z && (0 <? ht)%Z
          then
            set_viz i
              (VScene
                 {| sv_container := sv_container v;
                    sv_aspect := div (of_Z w) (of_Z ht);
                    sv_size := (w, ht); sv_points := sv_points v;
                    sv_rotation_x := sv_rotation_x v;
                    sv_rotation_y := sv_rotation_y v;
                    sv_animationId := sv_animationId v;
                    sv_isDragging := sv_isDragging v;
                    sv_previousMousePosition := sv_previousMousePosition v |}) s
          else s
      | None => s
      end
  | _ => s
  end.

(** The pointer handlers of the 3D scatterplot. *)
Definition set_drag (i : Z) (dragging : bool) (pos : option (number * number))
    (s : State) : State :=
  match vizs s !! i with
  | Some (VScene v) =>
      set_viz i
        (VScene
           {| sv_container := sv_container v; sv_aspect := sv_aspect v;
              sv_size := sv_size v; sv_points := sv_points v;
              sv_rotation_x := sv_rotation_x v;
              sv_rotation_y := sv_rotation_y v;
              sv_animationId := sv_animationId v;
              sv_isDragging := dragging;
              sv_previousMousePosition :=
                default (sv_previousMousePosition v) pos |}) s
  | _ => s
  end.

Definition on_mousemove (i : Z) (e : Event) (s : State) : State :=
  match vizs s !! i with
  | Some (VScene v) =>
      if sv_isDragging v
      then
        let deltaX := sub (clientX e) (sv_previousMousePosition v).1 in
        let deltaY := sub (clientY e) (sv_previousMousePosition v).2 in
        set_viz i
          (VScene
             {| sv_container := sv_container v; sv_aspect := sv_aspect v;
                sv_size := sv_size v; sv_points := sv_points v;
                sv_rotation_x :=
                  add (sv_rotation_x v) (mul deltaY (lit (1 # 100)));
                sv_rotation_y :=
                  add (sv_rotation_y v) (mul deltaX (lit (1 # 100)));
                sv_animationId := sv_animationId v;
                sv_isDragging := true;
                sv_previousMousePosition := (clientX e, clientY e) |}) s
      else s
  | _ => s
  end.

Definition closure_animationId (i : Z) (s : State) : option Z :=
  match vizs s !! i with
  | Some (VCanvas c) => cv_animationId c
  | Some (VScene v) => sv_animationId v
  | None => None
  end.

Definition createCanvasPlaceholder (container : option Z) (slideNumber : Z)
    : M Plot :=
  c ← deref container;
  ct ← container_of c;
  modify (appendChild c CanvasChild);;
  points ← sampleData slideNumber;
  modify
    (set_viz slideNumber
       (VCanvas
          {| cv_container := c;
             cv_width := Container.clientWidth ct;
             cv_height := Container.clientHeight ct;
             cv_points := points; cv_rotation := lit 0;
             cv_animationId := None |}));;
  modify (draw slideNumber);;
  addEventListener (Some Window) resize (CanvasResize slideNumber);;
  animationId ← gets (closure_animationId slideNumber);
  mret {| plot_animationId := animationId;
          plot_handleResize := Some (CanvasResize slideNumber) |}.

Definition createScatterplot (container : option Z) (slideNumber : Z)
    : M Plot :=
  c ← deref container;
  ct ← container_of c;
  let w := Container.clientWidth ct in
  let ht := Container.clientHeight ct in
  modify (appendChild c RendererChild);;
  points ← sampleData slideNumber;
  modify
    (set_viz slideNumber
       (VScene
          {| sv_container := c;
             sv_aspect := div (of_Z w) (of_Z ht);
             sv_size := (w, ht); sv_points := points;
             sv_rotation_x := lit 0; sv_rotation_y := lit 0;
             sv_animationId := None; sv_isDragging := false;
             sv_previousMousePosition := (lit 0, lit 0) |}));;
  modify (animate slideNumber);;
  addEventListener (Some Window) resize (SceneResize slideNumber);;
  addEventListener (Some (ContainerEl c)) mousedown (OnMouseDown slideNumber);;
  addEventListener (Some (ContainerEl c)) mousemove (OnMouseMove slideNumber);;
  addEventListener (Some (ContainerEl c)) mouseup (OnMouseUp slideNumber);;
  addEventListener (Some (ContainerEl c)) mouseleave (OnMouseLeave slideNumber);;
  animationId ← gets (closure_animationId slideNumber);
  mret {| plot_animationId := animationId;
          plot_handleResize := Some (SceneResize slideNumber) |}.

(** The body of the loop of [initScatterplots] for the ordinal [i]. *)
Definition initScatterplot (i : Z) : M unit :=
  container ← gets (getElementById i);
  if truthy container
  then
    three ← gets THREE_defined;
    plot ← (if three : bool then createScatterplot container i
            else createCanvasPlaceholder container i);
    modify (λ s, set_scatterplots (<[i := plot]> (scatterplots s)) s)
  else mret tt.

(** [for (let i = 1; i <= 3; i++)] *)
Definition initScatterplots : M unit :=
  initScatterplot 1;; initScatterplot 2;; initScatterplot 3.

(** ** The carousel *)

Definition init : M unit :=
  s ← gets id;
  (if truthy (prevBtn s) && truthy (nextBtn s)
   then addEventListener (prevBtn s) click OnPrevClick;;
        addEventListener (nextBtn s) click OnNextClick
   else mret tt);;
  modify (set_keyboardHandler (Some KeyboardHandler));;
  addEventListener (Some Document) keydown KeyboardHandler;;
  initScatterplots.

End visualizations.

(** [destroy]: the body of the [forEach], then the method. *)
Definition destroy_plot (plot : Plot) (s : State) : State :=
  let s1 :=
    if truthy_id (plot_animationId plot)
    then cancelAnimationFrame (default 0%Z (plot_animationId plot)) s
    else s in
  match plot_handleResize plot with
  | Some handleResize => removeEventListener Window resize handleResize s1
  | None => s1
  end.

Definition destroy (s : State) : State :=
  let s1 :=
    match keyboardHandler s with
    | Some handler => removeEventListener Document keydown handler s
    | None => s
    end in
  foldl (λ acc plot, destroy_plot plot acc) s1 (Object_values (scatterplots s1)).

(** The markup the constructor finds, and whether the global [THREE] is
    defined. *)
Record Page : Type := {
  page_slides : list Slide.t;
  page_prev : bool;
  page_next : bool;
  page_containers : gmap Z Container.t;
  page_THREE : bool
}.

Definition querySelector (present : bool) (t : Target) : option Target :=
  if present then Some t else None.

(** [new FeaturedWorkCarousel()] on a freshly loaded page: no listener of
    the component is registered yet, and no animation frame was requested. *)
Definition FeaturedWorkCarousel (h : Host) (p : Page) : Res unit :=
  init h
    {| slides := page_slides p;
       prevBtn := querySelector (page_prev p) PrevBtn;
       nextBtn := querySelector (page_next p) NextBtn;
       containers := page_containers p;
       THREE_defined := page_THREE p;
       listeners := [];
       raf_handle := 0;
       raf_callbacks := [];
       draws := 0;
       vizs := ∅;
       currentSlide := Int 0;
       scatterplots := ∅;
       keyboardHandler := None |}.

(** The state a completed call leaves; the state at the throw otherwise. *)
Definition state_of {A : Type} (r : Res A) : State :=
  match r with
  | Ok _ s => s
  | Throw _ s => s
  end.

Definition completes {A : Type} (r : Res A) : bool :=
  match r with
  | Ok _ _ => true
  | Throw _ _ => false
  end.

(** The carousel the constructor leaves on the page [p]. *)
Definition carousel_of (h : Host) (p : Page) : State :=
  state_of (FeaturedWorkCarousel h p).

(** ** The event loop *)

Definition run_handler (handler : Handler) (e : Event) (s : State) : State :=
  match handler with
  | OnPrevClick => prevSlide s
  | OnNextClick => nextSlide s
  | KeyboardHandler =>
      if bool_decide (key e = "ArrowLeft") then prevSlide s
      else if bool_decide (key e = "ArrowRight") then nextSlide s
      else s
  | CanvasResize i => canvas_handleResize i s
  | SceneResize i => scene_handleResize i s
  | OnMouseDown i => set_drag i true (Some (clientX e, clientY e)) s
  | OnMouseMove i => on_mousemove i e s
  | OnMouseUp i => set_drag i false None s
  | OnMouseLeave i => set_drag i false None s
  end.

(** An event of type [type] at [target]: the listeners registered for it
    when the dispatch starts run in the order of their registration. *)
Definition dispatchEvent (target : Target) (type : EventType) (e : Event)
    (s : State) : State :=
  foldl
    (λ acc l,
       if bool_decide (l_target l = target ∧ l_type l = type)
       then run_handler (l_handler l) e acc
       else acc)
    s (listeners s).

Definition run_callback (cb : Callback) (s : State) : State :=
  match cb with
  | Draw i => draw i s
  | Animate i => animate i s
  end.

(** One animation frame: the list of callbacks is emptied, then the
    callbacks that were in it run in order. *)
Definition animation_frame (s : State) : State :=
  foldl (λ acc p, run_callback p.2 acc)
    (set_raf (raf_handle s) [] s) (raf_callbacks s).

(** A layout change gives the container [c] a new size. *)
Definition layout (c : Z) (w ht : Z) (s : State) : State :=
  match containers s !! c with
  | Some ct =>
      set_containers
        (<[c := {| Container.clientWidth := w; Container.clientHeight := ht;
                   Container.children := Container.children ct |}]>
           (containers s)) s
  | None => s
  end.

(** What can happen to a constructed carousel: an event reaches a target, a
    frame is due, a container is laid out again, or the page calls a method. *)
Inductive Action : Type :=
| Dispatch (target : Target) (type : EventType) (e : Event)
| Frame
| Layout (c : Z) (w ht : Z)
| CallNextSlide
| CallPrevSlide
| CallDestroy.

Definition step (a : Action) (s : State) : State :=
  match a with
  | Dispatch target type e => dispatchEvent target type e s
  | Frame => animation_frame s
  | Layout c w ht => layout c w ht s
  | CallNextSlide => nextSlide s
  | CallPrevSlide => prevSlide s
  | CallDestroy => destroy s
  end.

Definition run (actions : list Action) (s : State) : State :=
  foldl (λ acc a, step a acc) s actions.

(** ** Navigation calls and what the spec says of them *)

Inductive Advance : Type := Next | Prev.

Definition advance (d : Advance) (s : State) : State :=
  match d with
  | Next => nextSlide s
  | Prev => prevSlide s
  end.

Definition direction (d : Advance) : Z :=
  match d with
  | Next => 1
  | Prev => -1
  end.

Definition advances (ds : list Advance) (s : State) : State :=
  foldl (λ acc d, advance d acc) s ds.

Definition sum_directions (ds : list Advance) : Z :=
  foldr (λ d acc, (direction d + acc)%Z) 0%Z ds.

Definition is_active (s : Slide.t) : bool := classList_contains "active" s.

Definition count_active (l : list Slide.t) : nat := length (filter is_active l).

Definition event_with_key (k : string) : Event :=
  {| key := k; clientX := lit 0; clientY := lit 0 |}.

(** ** Example pages *)

Definition slide (classes : list string) : Slide.t :=
  {| Slide.classList := classes |}.

Definition three_slides : list Slide.t :=
  [slide ["carousel-slide"; "active"]; slide ["carousel-slide"];
   slide ["carousel-slide"]].

Definition box (w ht : Z) : Container.t :=
  {| Container.clientWidth := w; Container.clientHeight := ht;
     Container.children := [] |}.

Definition example_page (prev next : bool) (cs : gmap Z Container.t)
    (three : bool) : Page :=
  {| page_slides := three_slides; page_prev := prev; page_next := next;
     page_containers := cs; page_THREE := three |}.

Definition sample_host : Host := example_host [1 # 2; 1 # 4; 3 # 4]%Q.

(** The largest binary64 value below 1, and a host whose every draw is it. *)
Definition largest_draw : Q := (1 - 2 ^ (-53))%Q.

Definition extreme_host : Host := example_host [largest_draw].

(** The carousel constructed on a page, with the example host. *)
Definition constructed (p : Page) : State := carousel_of sample_host p.

(** Three slides and both controls, no scatterplot container. *)
Definition plain_carousel : State := constructed (example_page true true ∅ false).

(** No slide at all. *)
Definition empty_carousel : State :=
  constructed
    {| page_slides := []; page_prev := true; page_next := true;
       page_containers := ∅; page_THREE := false |}.

(** Three slides and the previous control only. *)
Definition prev_only_carousel : State :=
  constructed (example_page true false ∅ false).

(** Containers for the slides 1 and 3, none for slide 2; no [THREE]. *)
Definition page_1_3 : Page :=
  example_page true true {[ 1%Z := box 300 150; 3%Z := box 300 150 ]} false.

(** One container, of 300 by 150 pixels, for slide 1: the 2D placeholder
    without [THREE], the 3D scatterplot with it. *)
Definition canvas_carousel : State :=
  constructed (example_page true true {[ 1%Z := box 300 150 ]} false).

Definition scene_carousel : State :=
  constructed (example_page true true {[ 1%Z := box 300 150 ]} true).

(** ** Observations *)

(** The size of the render surface of the visualization of slide [i]: the
    canvas of the 2D placeholder, the renderer's size for the 3D strategy. *)
Definition surface_size (i : Z) (s : State) : option (Z * Z) :=
  match vizs s !! i with
  | Some (VCanvas c) => Some (cv_width c, cv_height c)
  | Some (VScene v) => Some (sv_size v)
  | None => None
  end.

Definition camera_aspect (i : Z) (s : State) : option number :=
  match vizs s !! i with
  | Some (VScene v) => Some (sv_aspect v)
  | _ => None
  end.

(** [lo <= a && a < hi] and [lo <= a && a <= hi], as the program would
    test them. *)
Definition within (lo hi a : number) : Prop :=
  num_le lo a = true ∧ num_lt a hi = true.

Definition within_closed (lo hi a : number) : Prop :=
  num_le lo a = true ∧ num_le a hi = true.

(** The points the loop pushes from index [i] on, [m] of them, when [k]
    draws were made before. *)
Fixpoint points_from (h : Host) (slideNumber n i : Z) (k m : nat)
    : list Point.t :=
  match m with
  | O => []
  | S m' =>
      sample_point h slideNumber n i k
      :: points_from h slideNumber n (i + 1) (k + 7) m'
  end.

(** ** Predicates of the proofs *)

(** A carousel whose index names one of its slides. *)
Definition index_in_range (s : State) (c : Z) : Prop :=
  currentSlide s = Int c ∧ (0 ≤ c < Z.of_nat (length (slides s)))%Z.

(** The slide ordinals [initScatterplots] visits. *)
Definition ordinal (i : Z) : Prop := i = 1%Z ∨ i = 2%Z ∨ i = 3%Z.

(** The listeners a visualization registers are neither click nor key
    listeners. *)
Definition viz_listener (l : Listener) : Prop :=
  l_type l ≠ click ∧ l_type l ≠ keydown.

(** What setting up a visualization leaves alone: the slides, the controls,
    the navigation fields, which containers exist, and the listeners
    registered before. *)
Record extends (s s' : State) : Prop := {
  ext_slides : slides s' = slides s;
  ext_prevBtn : prevBtn s' = prevBtn s;
  ext_nextBtn : nextBtn s' = nextBtn s;
  ext_THREE : THREE_defined s' = THREE_defined s;
  ext_currentSlide : currentSlide s' = currentSlide s;
  ext_keyboardHandler : keyboardHandler s' = keyboardHandler s;
  ext_containers :
    ∀ c, is_Some (containers s' !! c) ↔ is_Some (containers s !! c);
  ext_listeners :
    ∃ extra, listeners s' = listeners s ++ extra ∧ Forall viz_listener extra
}.

(** A computation that completes from every state, within [extends] and
    without touching [scatterplots]. *)
Definition safe {A : Type} (m : M A) : Prop :=
  ∀ s, ∃ a s', m s = Ok a s' ∧ extends s s' ∧ scatterplots s' = scatterplots s.

Definition resize_listener (hd : Handler) : Listener :=
  {| l_target := Window; l_type := resize; l_handler := hd |}.

(** What [destroy] relies on.  Every pending animation callback has a
    non-zero handle that some plot holds; every resize listener on [window]
    is the [handleResize] of some plot. *)
Definition callbacks_covered (s : State) : Prop :=
  ∀ id cb, (id, cb) ∈ raf_callbacks s →
    id ≠ 0%Z ∧
    ∃ j plot, scatterplots s !! j = Some plot ∧ plot_animationId plot = Some id.

Definition resizes_covered (s : State) : Prop :=
  ∀ l, l ∈ listeners s → l_target l = Window → l_type l = resize →
    ∃ j plot, scatterplots s !! j = Some plot ∧
              plot_handleResize plot = Some (l_handler l).

Definition plots_cover (s : State) : Prop :=
  callbacks_covered s ∧ resizes_covered s.

(** The listeners [init] registers for navigation, in order. *)
Definition prev_click : Listener :=
  {| l_target := PrevBtn; l_type := click; l_handler := OnPrevClick |}.
Definition next_click : Listener :=
  {| l_target := NextBtn; l_type := click; l_handler := OnNextClick |}.
Definition key_listener : Listener :=
  {| l_target := Document; l_type := keydown; l_handler := KeyboardHandler |}.

Definition nav_listeners (p : Page) : list Listener :=
  (if page_prev p && page_next p then [prev_click; next_click] else [])
  ++ [key_listener].

(** The listeners of [s] an event of type [type] at [target] reaches. *)
Definition listening (target : Target) (type : EventType) (s : State)
    : list Listener :=
  filter (λ l, l_target l = target ∧ l_type l = type) (listeners s).

(** A 3D scatterplot (of no points) whose container has lost its width. *)
Definition collapsed_scene : State :=
  {| slides := three_slides; prevBtn := Some PrevBtn; nextBtn := Some NextBtn;
     containers := {[ 1%Z := box 0 150 ]}; THREE_defined := true;
     listeners := [key_listener; resize_listener (SceneResize 1)];
     raf_handle := 1; raf_callbacks := [(1%Z, Animate 1)]; draws := 0;
     vizs :=
       {[ 1%Z :=
            VScene
              {| sv_container := 1; sv_aspect := Fin 2; sv_size := (300, 150)%Z;
                 sv_points := []; sv_rotation_x := Fin 0; sv_rotation_y := Fin 0;
                 sv_animationId := Some 1%Z; sv_isDragging := false;
                 sv_previousMousePosition := (Fin 0, Fin 0) |} ]};
     currentSlide := Int 0;
     scatterplots :=
       {[ 1%Z := {| plot_animationId := Some 1%Z;
                    plot_handleResize := Some (SceneResize 1) |} ]};
     keyboardHandler := Some KeyboardHandler |}.

(** ** Descriptions of the constructed carousel *)

(** The key of the arrow that moves in the direction [d]. *)
Definition arrow (d : Advance) : string :=
  match d with
  | Next => "ArrowRight"
  | Prev => "ArrowLeft"
  end.

(** A carousel of [n] slides whose index names one of them. *)
Definition navigable (n : nat) (s : State) : Prop :=
  length (slides s) = n ∧ ∃ c, index_in_range s c.

(** The classes of a slide other than [active], in order. *)
Definition other_classes (sl : Slide.t) : list string :=
  filter (λ t, t ≠ "active") (Slide.classList sl).

(** What the factory of the visualization of slide [i] leaves behind, by
    strategy ([three]: the 3D scatterplot; otherwise the 2D placeholder): the
    listeners it registers, in order; the callback of its animation loop; the
    element it appends to the container; the closure state after the first
    call of [draw] or [animate], which requested the frame [handle]; and the
    object it returns. *)
Definition pointer_listener (c : Z) (ty : EventType) (hd : Handler) : Listener :=
  {| l_target := ContainerEl c; l_type := ty; l_handler := hd |}.

Definition plot_listeners (three : bool) (i : Z) : list Listener :=
  if three
  then [resize_listener (SceneResize i);
        pointer_listener i mousedown (OnMouseDown i);
        pointer_listener i mousemove (OnMouseMove i);
        pointer_listener i mouseup (OnMouseUp i);
        pointer_listener i mouseleave (OnMouseLeave i)]
  else [resize_listener (CanvasResize i)].

Definition plot_callback (three : bool) (i : Z) : Callback :=
  if three then Animate i else Draw i.

Definition plot_child (three : bool) : Child :=
  if three then RendererChild else CanvasChild.

Definition with_child (child : Child) (ct : Container.t) : Container.t :=
  {| Container.clientWidth := Container.clientWidth ct;
     Container.clientHeight := Container.clientHeight ct;
     Container.children := Container.children ct ++ [child] |}.

Definition first_viz (three : bool) (i : Z) (ct : Container.t)
    (points : list Point.t) (handle : Z) : Viz :=
  if three
  then VScene
         {| sv_container := i;
            sv_aspect := div (of_Z (Container.clientWidth ct))
                           (of_Z (Container.clientHeight ct));
            sv_size := (Container.clientWidth ct, Container.clientHeight ct);
            sv_points := points;
            sv_rotation_x := add (lit 0) (lit (2 # 1000));
            sv_rotation_y := add (lit 0) (lit (3 # 1000));
            sv_animationId := Some handle; sv_isDragging := false;
            sv_previousMousePosition := (lit 0, lit 0) |}
  else VCanvas
         {| cv_container := i;
            cv_width := Container.clientWidth ct;
            cv_height := Container.clientHeight ct;
            cv_points := points;
            cv_rotation := add (lit 0) (lit (1 # 100));
            cv_animationId := Some handle |}.

(** The resize handler of the visualization of slide [i]. *)
Definition resize_handler (three : bool) (i : Z) : Handler :=
  if three then SceneResize i else CanvasResize i.

Definition first_plot (three : bool) (i : Z) (handle : Z) : Plot :=
  {| plot_animationId := Some handle;
     plot_handleResize := Some (resize_handler three i) |}.

(** The slide a handler of a visualization belongs to. *)
Definition slide_of (hd : Handler) : option Z :=
  match hd with
  | CanvasResize i | SceneResize i | OnMouseDown i | OnMouseMove i
  | OnMouseUp i | OnMouseLeave i => Some i
  | _ => None
  end.

(** The state in which [init] calls [initScatterplots]. *)
Definition nav_state (p : Page) : State :=
  {| slides := page_slides p;
     prevBtn := querySelector (page_prev p) PrevBtn;
     nextBtn := querySelector (page_next p) NextBtn;
     containers := page_containers p;
     THREE_defined := page_THREE p;
     listeners := nav_listeners p;
     raf_handle := 0; raf_callbacks := []; draws := 0; vizs := ∅;
     currentSlide := Int 0; scatterplots := ∅;
     keyboardHandler := Some KeyboardHandler |}.

(** The page as [new FeaturedWorkCarousel()] finds it when the browser has
    already given out the animation handles up to [handle] and [Math.random]
    has been called [k] times: nothing of the component is registered or
    pending yet.  The constructor on it; [FeaturedWorkCarousel] is the case
    of a browser that has given out no handle and made no draw. *)
Definition loaded_page (p : Page) (handle : Z) (k : nat) : State :=
  {| slides := page_slides p;
     prevBtn := querySelector (page_prev p) PrevBtn;
     nextBtn := querySelector (page_next p) NextBtn;
     containers := page_containers p;
     THREE_defined := page_THREE p;
     listeners := [];
     raf_handle := handle; raf_callbacks := []; draws := k; vizs := ∅;
     currentSlide := Int 0; scatterplots := ∅;
     keyboardHandler := None |}.

Definition construct_at (h : Host) (p : Page) (handle : Z) (k : nat) : Res unit :=
  init h (loaded_page p handle k).

(** The state in which [init] then calls [initScatterplots]. *)
Definition nav_state_at (p : Page) (handle : Z) (k : nat) : State :=
  {| slides := page_slides p;
     prevBtn := querySelector (page_prev p) PrevBtn;
     nextBtn := querySelector (page_next p) NextBtn;
     containers := page_containers p;
     THREE_defined := page_THREE p;
     listeners := nav_listeners p;
     raf_handle := handle; raf_callbacks := []; draws := k; vizs := ∅;
     currentSlide := Int 0; scatterplots := ∅;
     keyboardHandler := Some KeyboardHandler |}.

(** The state one round of the loop of [initScatterplots] leaves. *)
Definition mount (h : Host) (i : Z) (s : State) : State :=
  match containers s !! i with
  | Some ct =>
      {| slides := slides s; prevBtn := prevBtn s; nextBtn := nextBtn s;
         containers :=
           <[i := with_child (plot_child (THREE_defined s)) ct]> (containers s);
         THREE_defined := THREE_defined s;
         listeners := listeners s ++ plot_listeners (THREE_defined s) i;
         raf_handle := raf_handle s + 1;
         raf_callbacks :=
           raf_callbacks s
           ++ [((raf_handle s + 1)%Z, plot_callback (THREE_defined s) i)];
         draws := draws s + 7 * Z.to_nat (numPoints i);
         vizs :=
           <[i := first_viz (THREE_defined s) i ct
                    (generateSampleData h i (draws s)).1 (raf_handle s + 1)]>
             (vizs s);
         currentSlide := currentSlide s;
         scatterplots :=
           <[i := first_plot (THREE_defined s) i (raf_handle s + 1)]>
             (scatterplots s);
         keyboardHandler := keyboardHandler s |}
  | None => s
  end.

(** The ordinals whose container is on the page, in the order of the loop;
    the number of those up to [i], which is the animation handle the
    visualization of slide [i] receives from its first request; and the
    number of random draws made before the data of slide [i] is generated. *)
Definition present (p : Page) : list Z :=
  filter (λ i, is_Some (page_containers p !! i)) [1; 2; 3]%Z.

Definition rank (p : Page) (i : Z) : Z :=
  Z.of_nat (length (filter (λ j, (j ≤ i)%Z) (present p))).

Definition draws_before (p : Page) (i : Z) : nat :=
  7 * sum_list ((λ j, Z.to_nat (numPoints j))
                <$> filter (λ j, (j < i)%Z) (present p)).

(** What [destroy] takes away, given the handler stored in
    [keyboardHandler] and the plots: the key-down listener of that handler on
    [document], the resize listeners on [window] whose handler a plot holds,
    and the animation callbacks whose handle a plot holds (a handle 0 would
    be falsy). *)
Definition unbound (kh : option Handler) (plots : list Plot) (l : Listener)
    : Prop :=
  (l_target l = Document ∧ l_type l = keydown ∧ kh = Some (l_handler l)) ∨
  (l_target l = Window ∧ l_type l = resize ∧
   Exists (λ plot, plot_handleResize plot = Some (l_handler l)) plots).

Definition cancelled (plots : list Plot) (x : Z * Callback) : Prop :=
  Exists (λ plot, truthy_id (plot_animationId plot) = true ∧
                  plot_animationId plot = Some x.1) plots.

#[global] Instance unbound_dec kh plots l : Decision (unbound kh plots l).
Proof. unfold unbound. apply _. Defined.

#[global] Instance cancelled_dec plots x : Decision (cancelled plots x).
Proof. unfold cancelled. apply _. Defined.

(** What a visualization is built from and never assigns again: its
    strategy, its container and its points. *)
Definition viz_data (v : Viz) : bool * Z * list Point.t :=
  match v with
  | VCanvas c => (false, cv_container c, cv_points c)
  | VScene v => (true, sv_container v, sv_points v)
  end.

(** The parts of a state that are settled when the constructor returns:
    the data of the visualizations, the number of random draws made, the
    children of the containers and whether [THREE] is defined. *)
Definition fixed_data (s : State)
    : gmap Z (bool * Z * list Point.t) * nat * gmap Z (list Child) * bool :=
  (viz_data <$> vizs s, draws s, Container.children <$> containers s,
   THREE_defined s).

(** The callback belongs to a visualization of its strategy. *)
Definition live (s : State) (cb : Callback) : Prop :=
  match cb with
  | Draw i => ∃ c, vizs s !! i = Some (VCanvas c)
  | Animate i => ∃ v, vizs s !! i = Some (VScene v)
  end.

(** The rotation of the point cloud of the 3D scatterplot of slide [i], and
    whether a drag is under way. *)
Definition rotation (i : Z) (s : State) : option (number * number) :=
  match vizs s !! i with
  | Some (VScene v) => Some (sv_rotation_x v, sv_rotation_y v)
  | _ => None
  end.

Definition dragging (i : Z) (s : State) : option bool :=
  match vizs s !! i with
  | Some (VScene v) => Some (sv_isDragging v)
  | _ => None
  end.

(** Every pending animation callback was requested after the handle [m]
    was given out. *)
Definition requested_after (m : Z) (s : State) : Prop :=
  ∀ x, x ∈ raf_callbacks s → (m < x.1)%Z.

(** The render surface of slide [i] has the size of the container [ct],
    and the camera of a 3D scatterplot its aspect ratio. *)
Definition fits (i : Z) (ct : Container.t) (s : State) : Prop :=
  surface_size i s
  = Some (Container.clientWidth ct, Container.clientHeight ct) ∧
  (∀ v, vizs s !! i = Some (VScene v) →
        sv_aspect v
        = div (of_Z (Container.clientWidth ct)) (of_Z (Container.clientHeight ct))).

(** [Math.cos] and [Math.sin] return a value in [-1, 1] for every finite
    argument. *)
Definition unit_range (a : number) : Prop :=
  ∃ c : Q, a = Fin c ∧ (- (1) <= c)%Q ∧ (c <= 1)%Q.

Definition trig_ok (h : Host) : Prop :=
  ∀ q : Q, unit_range (Math_cos h (Fin q)) ∧ unit_range (Math_sin h (Fin q)).

(** The example host with its polynomials cut off at -1 and 1. *)
Definition clamp (a : number) : number :=
  match a with
  | Fin q =>
      if Qle_bool q (- (1)) then Fin (- (1))
      else if Qle_bool 1 q then Fin 1 else Fin q
  | PInf => Fin 1
  | NInf => Fin (- (1))
  | NaN => Fin 0
  end.

Definition clamped_host (draws : list Q) : Host :=
  {| Math_cos := λ a, clamp (poly_cos a);
     Math_sin := λ a, clamp (poly_sin a);
     Math_random := cycle draws |}.

Definition bounded_host : Host := clamped_host [1 # 2; 1 # 4; 3 # 4]%Q.

(** The rotation of the 2D placeholder of slide [i]. *)
Definition canvas_rotation (i : Z) (s : State) : option number :=
  match vizs s !! i with
  | Some (VCanvas c) => Some (cv_rotation c)
  | _ => None
  end.


(** * Navigation *)

Lemma updateSlides_length (s : State) :
  length (slides (updateSlides s)) = length (slides s).
Proof. unfold updateSlides; simpl. by rewrite length_imap. Qed.

Lemma updateSlides_currentSlide (s : State) :
  currentSlide (updateSlides s) = currentSlide s.
Proof. done. Qed.

Lemma advance_length (d : Advance) (s : State) :
  length (slides (advance d s)) = length (slides s).
Proof.
  destruct d; unfold advance, nextSlide, prevSlide;
    by rewrite updateSlides_length.
Qed.

Lemma advances_length (ds : list Advance) (s : State) :
  length (slides (advances ds s)) = length (slides s).
Proof.
  revert s; induction ds as [|d ds IH]; intros s; [done|].
  unfold advances in *; simpl. rewrite IH. apply advance_length.
Qed.

(** One call first moves a valid index by the call's direction, modulo the
    count, and then updates the slides. *)
Lemma advance_unfold (d : Advance) (s : State) (c : Z) :
  index_in_range s c →
  ∃ m : State,
    advance d s = updateSlides m ∧ slides m = slides s ∧
    index_in_range m ((c + direction d) mod Z.of_nat (length (slides s))).
Proof.
  intros [Hc Hr]. destruct d; unfold advance, nextSlide, prevSlide, direction.
  - eexists; split; [reflexivity|]. split; [done|]. split.
    + simpl. rewrite Hc. unfold slides_length, iadd, irem.
      destruct (Z.eqb_spec (Z.of_nat (length (slides s))) 0); [lia|].
      f_equal. apply Z.rem_mod_nonneg; lia.
    + simpl. apply Z.mod_pos_bound; lia.
  - eexists; split; [reflexivity|]. split; [done|]. split.
    + simpl. rewrite Hc. unfold slides_length, iadd, isub, irem.
      destruct (Z.eqb_spec (Z.of_nat (length (slides s))) 0); [lia|].
      f_equal. rewrite Z.rem_mod_nonneg by lia.
      replace (c - 1 + Z.of_nat (length (slides s)))%Z
        with (c + -1 + 1 * Z.of_nat (length (slides s)))%Z by lia.
      apply Z_mod_plus_full.
    + simpl. apply Z.mod_pos_bound; lia.
Qed.

Lemma advance_in_range (d : Advance) (s : State) (c : Z) :
  index_in_range s c →
  index_in_range (advance d s)
    ((c + direction d) mod Z.of_nat (length (slides s))).
Proof.
  intros H. destruct (advance_unfold d s c H) as (m & -> & Hs & Hc & Hr).
  split; [by rewrite updateSlides_currentSlide|].
  by rewrite updateSlides_length.
Qed.

Lemma advances_in_range (ds : list Advance) (s : State) (c : Z) :
  index_in_range s c →
  index_in_range (advances ds s)
    ((c + sum_directions ds) mod Z.of_nat (length (slides s))).
Proof.
  revert s c; induction ds as [|d ds IH]; intros s c H.
  - simpl. rewrite Z.add_0_r, Z.mod_small; [done|]. by destruct H.
  - pose proof (advance_in_range d s c H) as H1.
    specialize (IH _ _ H1). rewrite advance_length in IH.
    unfold advances in *; simpl.
    replace ((c + (direction d + sum_directions ds)) mod Z.of_nat (length (slides s)))%Z
      with (((c + direction d) mod Z.of_nat (length (slides s)) + sum_directions ds)
              mod Z.of_nat (length (slides s)))%Z; [exact IH|].
    rewrite Zplus_mod_idemp_l. f_equal; lia.
Qed.

Lemma is_active_add (sl : Slide.t) : is_active (classList_add "active" sl) = true.
Proof.
  unfold is_active, classList_add.
  destruct (classList_contains "active" sl) eqn:E; [done|].
  unfold classList_contains; simpl. apply bool_decide_eq_true.
  apply elem_of_app; right. by apply list_elem_of_singleton.
Qed.

Lemma is_active_remove (sl : Slide.t) :
  is_active (classList_remove "active" sl) = false.
Proof.
  unfold is_active, classList_remove, classList_contains; simpl.
  apply bool_decide_eq_false. intros [H _]%list_elem_of_filter. by apply H.
Qed.

Lemma count_active_imap_none (f : nat → Slide.t → Slide.t) (l : list Slide.t) :
  (∀ i sl, is_active (f i sl) = false) → count_active (imap f l) = 0.
Proof.
  revert f; induction l as [|sl l IH]; intros f Hf; [done|].
  unfold count_active in *. simpl. rewrite filter_cons, Hf. simpl.
  apply IH. intros i sl'. apply Hf.
Qed.

(** Marking the slide whose position is [c], and no other, leaves exactly one
    active slide when [c] is a position of the list. *)
Lemma count_active_imap (f : nat → Slide.t → Slide.t) (c : nat) (l : list Slide.t) :
  (∀ i sl, is_active (f i sl) = bool_decide (i = c)) →
  c < length l →
  count_active (imap f l) = 1.
Proof.
  revert f c; induction l as [|sl l IH]; intros f c Hf Hc; [simpl in Hc; lia|].
  unfold count_active in *. simpl. rewrite filter_cons, Hf.
  destruct c as [|c].
  - rewrite bool_decide_eq_true_2 by done. simpl. f_equal.
    apply count_active_imap_none. intros i sl'. simpl. rewrite Hf.
    by apply bool_decide_eq_false_2.
  - rewrite bool_decide_eq_false_2 by done. simpl.
    apply (IH _ c); [|simpl in Hc; lia].
    intros i sl'. simpl. rewrite Hf. apply bool_decide_ext. lia.
Qed.

(** After [updateSlides] the slide at the current index, and no other,
    carries the class. *)
Lemma updateSlides_active (s : State) (c : Z) (i : nat) (sl : Slide.t) :
  currentSlide s = Int c →
  slides (updateSlides s) !! i = Some sl →
  is_active sl = bool_decide (Z.of_nat i = c).
Proof.
  intros Hc. unfold updateSlides; simpl. rewrite list_lookup_imap, Hc.
  destruct (slides s !! i) as [sl0|]; simpl; [|done]. intros [= <-].
  destruct (Z.eqb_spec (Z.of_nat i) c).
  - rewrite is_active_add. by rewrite bool_decide_eq_true_2.
  - rewrite is_active_remove. by rewrite bool_decide_eq_false_2.
Qed.

Lemma updateSlides_count_active (s : State) (c : Z) :
  index_in_range s c → count_active (slides (updateSlides s)) = 1.
Proof.
  intros [Hc Hr]. unfold updateSlides; simpl. rewrite Hc.
  apply (count_active_imap _ (Z.to_nat c)); [|lia].
  intros i sl. simpl. destruct (Z.eqb_spec (Z.of_nat i) c).
  - rewrite is_active_add. rewrite bool_decide_eq_true_2; [done|lia].
  - rewrite is_active_remove. rewrite bool_decide_eq_false_2; [done|lia].
Qed.

Lemma advances_snoc (ds : list Advance) (d : Advance) (s : State) :
  advances (ds ++ [d]) s = advance d (advances ds s).
Proof. unfold advances. by rewrite foldl_app. Qed.

(** C1. For a carousel of N >= 1 slides whose index is a position of the
    list, after any sequence of [nextSlide] (+1) and [prevSlide] (-1) calls
    the index is (initial + sum of the directions) mod N, with the
    mathematical, non-negative remainder; and once a call was made the slide
    at that position, and only it, carries the class [active].  Every prefix
    of a sequence is a sequence, so this holds after each call. *)
Theorem active_index_after_advances (s : State) (c : Z) (ds : list Advance) :
  index_in_range s c →
  currentSlide (advances ds s)
  = Int ((c + sum_directions ds) mod Z.of_nat (length (slides s))) ∧
  (ds ≠ [] → ∀ (i : nat) (sl : Slide.t),
     slides (advances ds s) !! i = Some sl →
     is_active sl = true ↔
     Z.of_nat i = ((c + sum_directions ds) mod Z.of_nat (length (slides s)))%Z).
Proof.
  intros H. pose proof (advances_in_range ds s c H) as [Hc Hr].
  split; [exact Hc|]. intros Hne i sl Hi.
  destruct (exists_last Hne) as (ds' & d & ->).
  rewrite advances_snoc in Hi, Hc.
  pose proof (advances_in_range ds' s c H) as H'.
  destruct (advance_unfold d _ _ H') as (m & Hm & _ & Hmc & _).
  rewrite Hm in Hi, Hc. rewrite updateSlides_currentSlide in Hc.
  rewrite (updateSlides_active m _ i sl Hc Hi).
  apply bool_decide_eq_true.
Qed.


(** C2. For a carousel of N >= 1 slides whose index is a position of the
    list, whatever classes the markup gave the slides, after every completed
    [nextSlide] or [prevSlide] call of any sequence exactly one slide carries
    the class [active]. *)
Theorem one_active_after_advances (s : State) (c : Z) (ds : list Advance) :
  index_in_range s c →
  ds ≠ [] →
  count_active (slides (advances ds s)) = 1.
Proof.
  intros H Hne. destruct (exists_last Hne) as (ds' & d & ->).
  rewrite advances_snoc.
  destruct (advance_unfold d _ _ (advances_in_range ds' s c H))
    as (m & -> & _ & Hm).
  exact (updateSlides_count_active m _ Hm).
Qed.

Lemma active_index_after_advances_witness :
  index_in_range plain_carousel 0 ∧
  currentSlide (advances [Next; Next; Next; Prev] plain_carousel) = Int 2.
Proof.
  assert (H : index_in_range plain_carousel 0)
    by (split; [reflexivity | vm_compute; split; [discriminate | reflexivity]]).
  split; [exact H|].
  exact (proj1 (active_index_after_advances plain_carousel 0
                  [Next; Next; Next; Prev] H)).
Defined.

Lemma one_active_after_advances_witness :
  count_active (slides (advances [Prev; Prev; Next] plain_carousel)) = 1.
Proof.
  apply (one_active_after_advances plain_carousel 0 [Prev; Prev; Next]).
  - split; [reflexivity | vm_compute; split; [discriminate | reflexivity]].
  - discriminate.
Defined.

(** The scenario of the spec: three slides, start at index 0; right, right,
    right gives 1, 2, 0; left from 0 gives 2. *)
Example scenario_three_slides :
  currentSlide plain_carousel = Int 0 ∧
  currentSlide (nextSlide plain_carousel) = Int 1 ∧
  currentSlide (nextSlide (nextSlide plain_carousel)) = Int 2 ∧
  currentSlide (nextSlide (nextSlide (nextSlide plain_carousel))) = Int 0 ∧
  currentSlide (prevSlide plain_carousel) = Int 2.
Proof. repeat split; reflexivity. Qed.

(** C10. With no slide (N = 0) a call of [nextSlide] or [prevSlide] completes
    and sets the index to NaN, the remainder of a division by zero, whatever
    the index was; there is no slide whose class list could change. *)
Theorem empty_collection_index_NaN (s : State) (d : Advance) :
  slides s = [] →
  currentSlide (advance d s) = NaNi ∧ slides (advance d s) = [].
Proof.
  intros Hs. destruct d; unfold advance, nextSlide, prevSlide, updateSlides;
    simpl; rewrite Hs; simpl; (split; [|done]);
    unfold slides_length; rewrite Hs; simpl;
    by destruct (currentSlide s).
Qed.

Lemma empty_collection_index_NaN_witness :
  currentSlide empty_carousel = Int 0 ∧
  currentSlide (advance Next empty_carousel) = NaNi ∧
  currentSlide (advance Prev empty_carousel) = NaNi.
Proof.
  split; [reflexivity|]. split.
  - exact (proj1 (empty_collection_index_NaN empty_carousel Next eq_refl)).
  - exact (proj1 (empty_collection_index_NaN empty_carousel Prev eq_refl)).
Defined.

(** * Construction *)

Lemma extends_refl (s : State) : extends s s.
Proof. split; try done. exists []. by rewrite app_nil_r. Qed.

Lemma extends_trans (s1 s2 s3 : State) :
  extends s1 s2 → extends s2 s3 → extends s1 s3.
Proof.
  intros [? ? ? ? ? ? C1 (e1 & E1 & F1)] [? ? ? ? ? ? C2 (e2 & E2 & F2)].
  split; try congruence.
  - intros c. etrans; eauto.
  - exists (e1 ++ e2). rewrite E2, E1, app_assoc. split; [done|].
    by apply Forall_app.
Qed.

Lemma safe_ret {A : Type} (a : A) : safe (mret a).
Proof.
  intros s. exists a, s. split; [done|]. split; [apply extends_refl|done].
Qed.

Lemma safe_bind {A B : Type} (m : M A) (f : A → M B) :
  safe m → (∀ a, safe (f a)) → safe (m ≫= f).
Proof.
  intros Hm Hf s. destruct (Hm s) as (a & s1 & E1 & X1 & P1).
  destruct (Hf a s1) as (b & s2 & E2 & X2 & P2).
  exists b, s2. unfold mbind, M_bind. rewrite E1. split; [done|].
  split; [by eapply extends_trans|congruence].
Qed.

Lemma safe_gets {A : Type} (f : State → A) : safe (gets f).
Proof.
  intros s. exists (f s), s. split; [done|]. split; [apply extends_refl|done].
Qed.

Lemma safe_modify (f : State → State) :
  (∀ s, extends s (f s) ∧ scatterplots (f s) = scatterplots s) →
  safe (modify f).
Proof. intros H s. exists tt, (f s). split; [done|]. apply H. Qed.

Lemma extends_appendChild (c : Z) (ch : Child) (s : State) :
  extends s (appendChild c ch s) ∧
  scatterplots (appendChild c ch s) = scatterplots s.
Proof.
  unfold appendChild.
  destruct (containers s !! c) eqn:E; [|split; [apply extends_refl|done]].
  split; [|done]. split; simpl; try done.
  - intros c'. destruct (decide (c' = c)) as [->|].
    + rewrite lookup_insert_eq, E. split; eauto.
    + by rewrite lookup_insert_ne.
  - exists []. by rewrite app_nil_r.
Qed.

Lemma extends_set_viz (i : Z) (v : Viz) (s : State) :
  extends s (set_viz i v s) ∧ scatterplots (set_viz i v s) = scatterplots s.
Proof.
  split; [|done]. split; simpl; try done. exists []. by rewrite app_nil_r.
Qed.

Lemma extends_draw (i : Z) (s : State) :
  extends s (draw i s) ∧ scatterplots (draw i s) = scatterplots s.
Proof.
  unfold draw.
  destruct (vizs s !! i) as [[c|v]|]; try (split; [apply extends_refl|done]).
  simpl. split; [|done]. split; simpl; try done. exists []. by rewrite app_nil_r.
Qed.

Lemma extends_animate (i : Z) (s : State) :
  extends s (animate i s) ∧ scatterplots (animate i s) = scatterplots s.
Proof.
  unfold animate.
  destruct (vizs s !! i) as [[c|v]|]; try (split; [apply extends_refl|done]).
  simpl. split; [|done]. split; simpl; try done. exists []. by rewrite app_nil_r.
Qed.

Lemma safe_sampleData (h : Host) (i : Z) : safe (sampleData h i).
Proof.
  intros s. unfold sampleData.
  destruct (generateSampleData h i (draws s)) as [pts k].
  eexists _, _. split; [done|]. split; [|done].
  split; simpl; try done. exists []. by rewrite app_nil_r.
Qed.

Lemma safe_addEventListener (t : Target) (ty : EventType) (hd : Handler) :
  ty ≠ click → ty ≠ keydown → safe (addEventListener (Some t) ty hd).
Proof.
  intros H1 H2 s. unfold addEventListener, mbind, M_bind, modify; simpl.
  eexists _, _. split; [done|]. unfold add_listener.
  case_bool_decide; [split; [apply extends_refl|done]|].
  split; [|done]. split; simpl; try done.
  eexists [_]. split; [done|]. by constructor.
Qed.

Create HintDb safe.
#[local] Hint Resolve safe_ret safe_gets safe_sampleData safe_bind
  safe_modify safe_addEventListener extends_appendChild extends_set_viz
  extends_draw extends_animate : safe.
#[local] Hint Extern 1 (_ ≠ _) => discriminate : safe.

Lemma bind_deref_Some {A B : Type} (a : A) (f : A → M B) (s : State) :
  (deref (Some a) ≫= f) s = f a s.
Proof. reflexivity. Qed.

Lemma bind_container_of {B : Type} (c : Z) (ct : Container.t)
    (f : Container.t → M B) (s : State) :
  containers s !! c = Some ct → (container_of c ≫= f) s = f ct s.
Proof. unfold mbind, M_bind, container_of. by intros ->. Qed.

Lemma createCanvasPlaceholder_safe (h : Host) (c i : Z) (s : State) :
  is_Some (containers s !! c) →
  ∃ plot s', createCanvasPlaceholder h (Some c) i s = Ok plot s' ∧
    extends s s' ∧ scatterplots s' = scatterplots s.
Proof.
  intros [ct E]. unfold createCanvasPlaceholder.
  rewrite bind_deref_Some, (bind_container_of _ _ _ _ E).
  revert s E.
  match goal with |- ∀ s, _ → ∃ a s', ?m s = _ ∧ _ => assert (safe m) as Hs end.
  { eauto 20 with safe. }
  intros s _. apply Hs.
Qed.

Lemma createScatterplot_safe (h : Host) (c i : Z) (s : State) :
  is_Some (containers s !! c) →
  ∃ plot s', createScatterplot h (Some c) i s = Ok plot s' ∧
    extends s s' ∧ scatterplots s' = scatterplots s.
Proof.
  intros [ct E]. unfold createScatterplot.
  rewrite bind_deref_Some, (bind_container_of _ _ _ _ E).
  revert s E.
  match goal with |- ∀ s, _ → ∃ a s', ?m s = _ ∧ _ => assert (safe m) as Hs end.
  { cbv zeta. eauto 30 with safe. }
  intros s _. apply Hs.
Qed.

Lemma initScatterplot_spec (h : Host) (i : Z) (s : State) :
  ∃ s', initScatterplot h i s = Ok tt s' ∧ extends s s' ∧
    (∀ j, j ≠ i → scatterplots s' !! j = scatterplots s !! j) ∧
    (is_Some (scatterplots s' !! i) ↔
       is_Some (containers s !! i) ∨ is_Some (scatterplots s !! i)).
Proof.
  unfold initScatterplot. unfold mbind at 1, M_bind at 1. unfold gets at 1.
  unfold getElementById.
  destruct (containers s !! i) as [ct|] eqn:E; simpl.
  - unfold mbind at 1, M_bind at 1. simpl.
    assert (∃ plot s',
              (if THREE_defined s then createScatterplot h (Some i) i
               else createCanvasPlaceholder h (Some i) i) s = Ok plot s' ∧
              extends s s' ∧ scatterplots s' = scatterplots s)
      as (plot & s' & Ec & X & P).
    { destruct (THREE_defined s);
        [apply createScatterplot_safe|apply createCanvasPlaceholder_safe];
        by rewrite E. }
    unfold mbind, M_bind. rewrite Ec. unfold modify.
    eexists. split; [done|]. split; [|split].
    + destruct X. split; simpl; done.
    + intros j Hj. simpl. rewrite lookup_insert_ne by done. by rewrite P.
    + simpl. rewrite lookup_insert_eq. split; eauto.
  - exists s. split; [done|]. split; [apply extends_refl|].
    split; [done|]. split; [eauto|]. intros [[? [=]]|]; done.
Qed.

Lemma initScatterplots_spec (h : Host) (s : State) :
  ∃ s', initScatterplots h s = Ok tt s' ∧ extends s s' ∧
    (∀ i, is_Some (scatterplots s' !! i) ↔
       (ordinal i ∧ is_Some (containers s !! i)) ∨ is_Some (scatterplots s !! i)).
Proof.
  unfold initScatterplots.
  destruct (initScatterplot_spec h 1 s) as (s1 & E1 & X1 & O1 & I1).
  destruct (initScatterplot_spec h 2 s1) as (s2 & E2 & X2 & O2 & I2).
  destruct (initScatterplot_spec h 3 s2) as (s3 & E3 & X3 & O3 & I3).
  exists s3. unfold mbind, M_bind. rewrite E1, E2, E3. split; [done|].
  split; [eauto using extends_trans|].
  pose proof (ext_containers _ _ X1) as C1.
  pose proof (ext_containers _ _ X2) as C2.
  intros i. unfold ordinal.
  destruct (decide (i = 3%Z)) as [->|N3].
  { rewrite I3, C2, C1, O2, O1 by done. tauto. }
  rewrite O3 by done.
  destruct (decide (i = 2%Z)) as [->|N2].
  { rewrite I2, C1, O1 by done. tauto. }
  rewrite O2 by done.
  destruct (decide (i = 1%Z)) as [->|N1].
  { rewrite I1. tauto. }
  rewrite O1 by done. tauto.
Qed.

(** The constructor completes on every page; it leaves the index at 0, the
    navigation listeners followed by those of the visualizations, and a
    plot for exactly the ordinals 1 to 3 whose container exists. *)
Lemma constructor_spec (h : Host) (p : Page) :
  ∃ s, FeaturedWorkCarousel h p = Ok tt s ∧
    slides s = page_slides p ∧ currentSlide s = Int 0 ∧
    keyboardHandler s = Some KeyboardHandler ∧
    (∃ extra, listeners s = nav_listeners p ++ extra ∧ Forall viz_listener extra) ∧
    (∀ i, is_Some (scatterplots s !! i) ↔
       ordinal i ∧ is_Some (page_containers p !! i)).
Proof.
  unfold FeaturedWorkCarousel, init.
  pose proof (initScatterplots_spec h) as Hk. revert Hk.
  generalize (initScatterplots h). intros k Hk.
  unfold nav_listeners.
  destruct (page_prev p), (page_next p);
    unfold mbind, M_bind, gets, modify, addEventListener, deref, mret, M_ret,
      add_listener; simpl;
    match goal with |- ∃ s, k ?s0 = _ ∧ _ =>
      destruct (Hk s0) as (s & E & X & S) end;
    exists s; (split; [exact E|]); destruct X; simpl in *;
    (split; [done|]); (split; [done|]); (split; [done|]);
    (split; [done|]);
    intros i; rewrite S, lookup_empty;
    (split; [intros [?|[? [=]]]; done | intros ?; by left]).
Qed.

(** * Events *)

Lemma foldl_filter {A B : Type} (P : A → Prop) `{∀ a, Decision (P a)}
    (g : A → B → B) (l : list A) (b : B) :
  foldl (λ acc a, if bool_decide (P a) then g a acc else acc) b l
  = foldl (λ acc a, g a acc) b (filter P l).
Proof.
  revert b; induction l as [|a l IH]; intros b; [done|].
  simpl. rewrite filter_cons. case_bool_decide.
  - rewrite decide_True by done. simpl. apply IH.
  - rewrite decide_False by done. apply IH.
Qed.

Lemma dispatchEvent_listening (t : Target) (ty : EventType) (e : Event)
    (s : State) :
  dispatchEvent t ty e s
  = foldl (λ acc l, run_handler (l_handler l) e acc) s (listening t ty s).
Proof.
  unfold dispatchEvent, listening.
  apply (foldl_filter (λ l, l_target l = t ∧ l_type l = ty)
           (λ l acc, run_handler (l_handler l) e acc)).
Qed.

Lemma filter_viz_listeners (t : Target) (ty : EventType) (extra : list Listener) :
  ty = click ∨ ty = keydown →
  Forall viz_listener extra →
  filter (λ l, l_target l = t ∧ l_type l = ty) extra = [].
Proof.
  intros Hty. induction 1 as [|l extra [H1 H2] _ IH]; [done|].
  rewrite filter_cons, decide_False; [done|].
  intros [_ E]. destruct Hty; congruence.
Qed.

Lemma listening_nav (p : Page) (extra : list Listener) (s : State) :
  listeners s = nav_listeners p ++ extra →
  Forall viz_listener extra →
  listening Document keydown s = [key_listener] ∧
  listening PrevBtn click s
    = (if page_prev p && page_next p then [prev_click] else []) ∧
  listening NextBtn click s
    = (if page_prev p && page_next p then [next_click] else []).
Proof.
  intros E F. unfold listening. rewrite E, !filter_app.
  rewrite !(filter_viz_listeners _ _ extra) by tauto.
  unfold nav_listeners. by destruct (page_prev p), (page_next p).
Qed.

Lemma run_handler_listeners (hd : Handler) (e : Event) (s : State) :
  listeners (run_handler hd e s) = listeners s.
Proof.
  destruct hd; simpl; try done.
  - by repeat case_bool_decide.
  - unfold canvas_handleResize. by repeat case_match.
  - unfold scene_handleResize. by repeat case_match.
  - unfold set_drag. by repeat case_match.
  - unfold on_mousemove. by repeat case_match.
  - unfold set_drag. by repeat case_match.
  - unfold set_drag. by repeat case_match.
Qed.

Lemma foldl_listeners {A : Type} (g : A → State → State) (l : list A) (s : State) :
  (∀ a s, listeners (g a s) = listeners s) →
  listeners (foldl (λ acc a, g a acc) s l) = listeners s.
Proof.
  intros Hg. revert s; induction l as [|a l IH]; intros s; [done|].
  simpl. by rewrite IH, Hg.
Qed.

Lemma dispatchEvent_listeners (t : Target) (ty : EventType) (e : Event)
    (s : State) :
  listeners (dispatchEvent t ty e s) = listeners s.
Proof.
  rewrite dispatchEvent_listening.
  apply (foldl_listeners (λ l acc, run_handler (l_handler l) e acc)).
  intros. apply run_handler_listeners.
Qed.

Lemma run_callback_listeners (cb : Callback) (s : State) :
  listeners (run_callback cb s) = listeners s.
Proof.
  destruct cb; simpl; unfold draw, animate, requestAnimationFrame;
    repeat case_match; reflexivity.
Qed.

Lemma animation_frame_listeners (s : State) :
  listeners (animation_frame s) = listeners s.
Proof.
  unfold animation_frame.
  rewrite (foldl_listeners (λ p acc, run_callback p.2 acc)); [done|].
  intros. apply run_callback_listeners.
Qed.

Lemma step_listeners (a : Action) (s : State) :
  a ≠ CallDestroy → listeners (step a s) = listeners s.
Proof.
  destruct a; simpl; intros Ha; try done.
  - apply dispatchEvent_listeners.
  - apply animation_frame_listeners.
  - unfold layout. by case_match.
Qed.

Lemma run_listeners (acts : list Action) (s : State) :
  CallDestroy ∉ acts → listeners (run acts s) = listeners s.
Proof.
  revert s; induction acts as [|a acts IH]; intros s Hn; [done|].
  unfold run in *. simpl. rewrite IH, step_listeners; [done| |].
  - intros ->. apply Hn. by left.
  - intros Hd. apply Hn. by right.
Qed.

(** Once the keyboard listener is the only one for key-down events, an arrow
    key is a call of the method. *)
Lemma keydown_ArrowLeft (e : Event) (s : State) :
  listening Document keydown s = [key_listener] →
  key e = "ArrowLeft" →
  dispatchEvent Document keydown e s = prevSlide s.
Proof.
  intros L K. rewrite dispatchEvent_listening, L. simpl.
  by rewrite K.
Qed.

Lemma keydown_ArrowRight (e : Event) (s : State) :
  listening Document keydown s = [key_listener] →
  key e = "ArrowRight" →
  dispatchEvent Document keydown e s = nextSlide s.
Proof.
  intros L K. rewrite dispatchEvent_listening, L. simpl.
  by rewrite K.
Qed.

Lemma foldl_invariant {A : Type} (P : State → Prop) (g : A → State → State)
    (l : list A) (s : State) :
  (∀ a t, P t → P (g a t)) → P s → P (foldl (λ acc a, g a acc) s l).
Proof.
  intros Hg. revert s. induction l as [|a l IH]; intros s Hs; [done|].
  simpl. by apply IH, Hg.
Qed.

Lemma navigable_advance (n : nat) (d : Advance) (s : State) :
  navigable n s → navigable n (advance d s).
Proof.
  intros [Hn [c Hc]]. split; [by rewrite advance_length|].
  eexists. by apply advance_in_range.
Qed.

Lemma navigable_same (n : nat) (s t : State) :
  slides t = slides s → currentSlide t = currentSlide s →
  navigable n s → navigable n t.
Proof.
  intros Hs Hc [Hn [c [Hi Hr]]]. unfold navigable, index_in_range.
  rewrite Hs, Hc. eauto.
Qed.

Lemma navigable_run_handler (n : nat) (hd : Handler) (e : Event) (s : State) :
  navigable n s → navigable n (run_handler hd e s).
Proof.
  intros H. destruct hd; simpl.
  - by apply (navigable_advance n Prev).
  - by apply (navigable_advance n Next).
  - repeat case_bool_decide; [by apply (navigable_advance n Prev)
                             |by apply (navigable_advance n Next)|done].
  - unfold canvas_handleResize. repeat case_match; try done;
      by eapply navigable_same; [| |exact H].
  - unfold scene_handleResize. repeat case_match; try done;
      by eapply navigable_same; [| |exact H].
  - unfold set_drag. repeat case_match; try done;
      by eapply navigable_same; [| |exact H].
  - unfold on_mousemove. repeat case_match; try done;
      by eapply navigable_same; [| |exact H].
  - unfold set_drag. repeat case_match; try done;
      by eapply navigable_same; [| |exact H].
  - unfold set_drag. repeat case_match; try done;
      by eapply navigable_same; [| |exact H].
Qed.

Lemma navigable_run_callback (n : nat) (cb : Callback) (s : State) :
  navigable n s → navigable n (run_callback cb s).
Proof.
  intros H. destruct cb; simpl; unfold draw, animate, requestAnimationFrame;
    repeat case_match; try done; by eapply navigable_same; [| |exact H].
Qed.

Lemma navigable_step (n : nat) (a : Action) (s : State) :
  a ≠ CallDestroy → navigable n s → navigable n (step a s).
Proof.
  intros Ha H. destruct a; simpl; try done.
  - rewrite dispatchEvent_listening.
    apply (foldl_invariant (navigable n)
             (λ l acc, run_handler (l_handler l) e acc)); [|done].
    intros. by apply navigable_run_handler.
  - unfold animation_frame.
    apply (foldl_invariant (navigable n) (λ p acc, run_callback p.2 acc)).
    + intros. by apply navigable_run_callback.
    + by eapply navigable_same; [| |exact H].
  - unfold layout. case_match; [|done]. by eapply navigable_same; [| |exact H].
  - by apply (navigable_advance n Next).
  - by apply (navigable_advance n Prev).
Qed.

Lemma navigable_run (n : nat) (acts : list Action) (s : State) :
  CallDestroy ∉ acts → navigable n s → navigable n (run acts s).
Proof.
  revert s. induction acts as [|a acts IH]; intros s Hn H; [done|].
  unfold run in *. simpl. apply IH.
  - intros ?. apply Hn. by right.
  - apply navigable_step; [|done]. intros ->. apply Hn. by left.
Qed.

Lemma keydown_arrow (d : Advance) (e : Event) (s : State) :
  listening Document keydown s = [key_listener] →
  key e = arrow d →
  dispatchEvent Document keydown e s = advance d s.
Proof.
  intros L K. destruct d.
  - by apply keydown_ArrowRight.
  - by apply keydown_ArrowLeft.
Qed.

(** C9. The constructor never throws.  A click listener exists only when
    both controls are in the markup, in which case each control has its own;
    when one of them is missing no click reaches the carousel.  On every
    page the arrow keys navigate, in every state the carousel reaches
    without a call of [destroy]: the index starts at 0, a key-down of an
    arrow is the call of its method, and on a page with slides it moves the
    index by the arrow's direction modulo the number of slides and leaves
    the slide at the new index, and only it, with the class [active]. *)
Theorem click_bindings_need_both_controls (h : Host) (p : Page) :
  completes (FeaturedWorkCarousel h p) = true ∧
  (∀ l, l ∈ listeners (carousel_of h p) → l_type l = click →
        page_prev p = true ∧ page_next p = true) ∧
  (page_prev p = true → page_next p = true →
     listening PrevBtn click (carousel_of h p) = [prev_click] ∧
     listening NextBtn click (carousel_of h p) = [next_click]) ∧
  currentSlide (carousel_of h p) = Int 0 ∧
  (∀ acts e d, CallDestroy ∉ acts → key e = arrow d →
     dispatchEvent Document keydown e (run acts (carousel_of h p))
     = advance d (run acts (carousel_of h p))) ∧
  (∀ acts e d, CallDestroy ∉ acts → key e = arrow d → page_slides p ≠ [] →
     ∃ c,
       index_in_range (run acts (carousel_of h p)) c ∧
       currentSlide
         (dispatchEvent Document keydown e (run acts (carousel_of h p)))
       = Int ((c + direction d) mod Z.of_nat (length (page_slides p))) ∧
       ∀ (i : nat) (sl : Slide.t),
         slides (dispatchEvent Document keydown e (run acts (carousel_of h p)))
         !! i = Some sl →
         is_active sl = true ↔
         Z.of_nat i
         = ((c + direction d) mod Z.of_nat (length (page_slides p)))%Z).
Proof.
  unfold carousel_of.
  destruct (constructor_spec h p)
    as (s & -> & Hsl & Hcur & _ & (extra & E & F) & _).
  simpl. destruct (listening_nav p extra s E F) as (LK & LP & LN).
  assert (Hkey : ∀ acts e d, CallDestroy ∉ acts → key e = arrow d →
            dispatchEvent Document keydown e (run acts s) = advance d (run acts s)).
  { intros acts e d Hd K. apply keydown_arrow; [|done].
    pose proof E as E'. rewrite <- (run_listeners acts s Hd) in E'.
    by destruct (listening_nav p extra _ E' F) as (-> & _). }
  split; [done|]. split; [|split; [|split; [done|split; [done|]]]].
  - intros l Hl Hc. rewrite E in Hl. apply elem_of_app in Hl as [Hl|Hl].
    + unfold nav_listeners in Hl.
      destruct (page_prev p), (page_next p); simpl in *; try done;
        apply list_elem_of_singleton in Hl; by subst l.
    + rewrite Forall_forall in F. by destruct (F l Hl).
  - intros Hp Hn. rewrite Hp, Hn in *. done.
  - intros acts e d Hd K Hne. rewrite (Hkey acts e d Hd K).
    destruct (navigable_run (length (page_slides p)) acts s Hd) as [Hlen [c Hc]].
    { split; [by rewrite Hsl|]. exists 0%Z. split; [done|].
      rewrite Hsl. destruct (page_slides p); [done|]. simpl. lia. }
    exists c. split; [exact Hc|].
    destruct (advance_unfold d _ c Hc) as (m & -> & _ & Hmc & _).
    rewrite Hlen in Hmc. rewrite updateSlides_currentSlide.
    split; [exact Hmc|]. intros i sl Hi.
    rewrite (updateSlides_active m _ i sl Hmc Hi). apply bool_decide_eq_true.
Qed.

(** C8, as amended.  On a page with both controls, in every state the
    constructed carousel reaches without a call of [destroy], a left-arrow
    key-down leads to the same state as a click on the previous control,
    and a right-arrow key-down to the same state as a click on the next
    control. *)
Theorem keys_match_clicks (h : Host) (p : Page) (acts : list Action)
    (e_key e_click : Event) :
  page_prev p = true →
  page_next p = true →
  CallDestroy ∉ acts →
  (key e_key = "ArrowLeft" →
     dispatchEvent Document keydown e_key (run acts (carousel_of h p))
     = dispatchEvent PrevBtn click e_click (run acts (carousel_of h p))) ∧
  (key e_key = "ArrowRight" →
     dispatchEvent Document keydown e_key (run acts (carousel_of h p))
     = dispatchEvent NextBtn click e_click (run acts (carousel_of h p))).
Proof.
  intros Hp Hn Hd. unfold carousel_of.
  destruct (constructor_spec h p) as (s & -> & _ & _ & _ & (extra & E & F) & _).
  simpl. rewrite <- (run_listeners acts s Hd) in E.
  destruct (listening_nav p extra _ E F) as (LK & LP & LN).
  rewrite Hp, Hn in LP, LN. simpl in LP, LN.
  split; intros K.
  - rewrite (keydown_ArrowLeft _ _ LK K).
    by rewrite dispatchEvent_listening, LP.
  - rewrite (keydown_ArrowRight _ _ LK K).
    by rewrite dispatchEvent_listening, LN.
Qed.

Lemma keys_match_clicks_witness :
  dispatchEvent Document keydown (event_with_key "ArrowLeft")
    (run [CallNextSlide; Frame] plain_carousel)
  = dispatchEvent PrevBtn click (event_with_key "")
      (run [CallNextSlide; Frame] plain_carousel).
Proof.
  refine (proj1 (keys_match_clicks _ (example_page true true ∅ false)
                   [CallNextSlide; Frame] (event_with_key "ArrowLeft")
                   (event_with_key "") eq_refl eq_refl _) eq_refl).
  intros H. repeat (apply elem_of_cons in H as [H|H]; [discriminate|]).
  by apply elem_of_nil in H.
Defined.

(** C8, as stated, fails on a page that has the previous control and lacks
    the next one: from the constructed carousel (index 0 of three slides) a
    click on the previous control leaves the index at 0, a left-arrow
    key-down moves it to 2. *)
Lemma keys_differ_without_next_control :
  currentSlide prev_only_carousel = Int 0 ∧
  currentSlide
    (dispatchEvent PrevBtn click (event_with_key "") prev_only_carousel)
  = Int 0 ∧
  currentSlide
    (dispatchEvent Document keydown (event_with_key "ArrowLeft")
       prev_only_carousel)
  = Int 2.
Proof. repeat split; reflexivity. Qed.

(** [destroy] unbinds the keyboard handler and keeps the click listeners:
    afterwards a left-arrow key-down does nothing, a click still navigates. *)
Example keys_differ_after_destroy :
  currentSlide
    (dispatchEvent Document keydown (event_with_key "ArrowLeft")
       (destroy plain_carousel))
  = Int 0 ∧
  currentSlide
    (dispatchEvent PrevBtn click (event_with_key "") (destroy plain_carousel))
  = Int 2.
Proof. split; reflexivity. Qed.



(** * What the plots record *)

Lemma bind_modify {B : Type} (f : State → State) (k : unit → M B) (s : State) :
  (modify f ≫= k) s = k tt (f s).
Proof. reflexivity. Qed.

Lemma bind_gets {A B : Type} (f : State → A) (k : A → M B) (s : State) :
  (gets f ≫= k) s = k (f s) s.
Proof. reflexivity. Qed.

Lemma bind_addEventListener {B : Type} (t : Target) (ty : EventType)
    (hd : Handler) (k : unit → M B) (s : State) :
  (addEventListener (Some t) ty hd ≫= k) s
  = k tt (add_listener {| l_target := t; l_type := ty; l_handler := hd |} s).
Proof. reflexivity. Qed.

Lemma bind_sampleData {B : Type} (h : Host) (i : Z) (k : list Point.t → M B)
    (s : State) :
  (sampleData h i ≫= k) s
  = k (generateSampleData h i (draws s)).1
      (set_draws (generateSampleData h i (draws s)).2 s).
Proof.
  unfold mbind, M_bind, sampleData.
  by destruct (generateSampleData h i (draws s)).
Qed.

Lemma appendChild_frame (c : Z) (ch : Child) (s : State) :
  raf_handle (appendChild c ch s) = raf_handle s ∧
  raf_callbacks (appendChild c ch s) = raf_callbacks s ∧
  listeners (appendChild c ch s) = listeners s.
Proof. unfold appendChild. by destruct (containers s !! c). Qed.

Lemma add_listener_elem (l l' : Listener) (s : State) :
  l' ∈ listeners (add_listener l s) → l' ∈ listeners s ∨ l' = l.
Proof.
  unfold add_listener. case_bool_decide; simpl; [by left|].
  intros [Hin| ->%list_elem_of_singleton]%elem_of_app; [by left|by right].
Qed.

Lemma add_listener_frame (l : Listener) (s : State) :
  raf_handle (add_listener l s) = raf_handle s ∧
  raf_callbacks (add_listener l s) = raf_callbacks s ∧
  vizs (add_listener l s) = vizs s.
Proof. unfold add_listener. by case_bool_decide. Qed.

(** The first frame request of the 2D placeholder and of the 3D
    scatterplot: one more callback, whose handle the closure records. *)
Lemma draw_requests (i : Z) (c : CanvasViz) (s : State) :
  vizs s !! i = Some (VCanvas c) →
  raf_handle (draw i s) = (raf_handle s + 1)%Z ∧
  raf_callbacks (draw i s) = raf_callbacks s ++ [((raf_handle s + 1)%Z, Draw i)] ∧
  listeners (draw i s) = listeners s ∧
  closure_animationId i (draw i s) = Some (raf_handle s + 1)%Z.
Proof.
  intros E. unfold draw, closure_animationId. rewrite E. simpl.
  by rewrite lookup_insert_eq.
Qed.

Lemma animate_requests (i : Z) (v : SceneViz) (s : State) :
  vizs s !! i = Some (VScene v) →
  raf_handle (animate i s) = (raf_handle s + 1)%Z ∧
  raf_callbacks (animate i s)
  = raf_callbacks s ++ [((raf_handle s + 1)%Z, Animate i)] ∧
  listeners (animate i s) = listeners s ∧
  closure_animationId i (animate i s) = Some (raf_handle s + 1)%Z.
Proof.
  intros E. unfold animate, closure_animationId. rewrite E. simpl.
  by rewrite lookup_insert_eq.
Qed.

Lemma closure_animationId_add_listener (i : Z) (l : Listener) (s : State) :
  closure_animationId i (add_listener l s) = closure_animationId i s.
Proof.
  unfold closure_animationId. by destruct (add_listener_frame l s) as (_ & _ & ->).
Qed.

Lemma createCanvasPlaceholder_result (h : Host) (c i : Z) (s : State) :
  is_Some (containers s !! c) →
  ∃ s', createCanvasPlaceholder h (Some c) i s
        = Ok {| plot_animationId := Some (raf_handle s + 1)%Z;
                plot_handleResize := Some (CanvasResize i) |} s' ∧
    raf_handle s' = (raf_handle s + 1)%Z ∧
    raf_callbacks s' = raf_callbacks s ++ [((raf_handle s + 1)%Z, Draw i)] ∧
    (∀ l, l ∈ listeners s' → l ∈ listeners s ∨ l = resize_listener (CanvasResize i)).
Proof.
  intros [ct E]. unfold createCanvasPlaceholder.
  rewrite bind_deref_Some, (bind_container_of _ _ _ _ E).
  rewrite bind_modify, bind_sampleData, !bind_modify, bind_addEventListener,
    bind_gets.
  match goal with |- context [draw i ?s0] =>
    destruct (draw_requests i _ s0 (lookup_insert_eq _ _ _)) as (D1 & D2 & D3 & D4);
    cbn [raf_handle raf_callbacks listeners set_viz set_vizs set_draws]
      in D1, D2, D3, D4;
    set (sd := draw i s0) in *
  end.
  destruct (appendChild_frame c CanvasChild s) as (A1 & A2 & A3).
  rewrite A1 in D1, D2, D4. rewrite A2 in D2. rewrite A3 in D3.
  destruct (add_listener_frame
              {| l_target := Window; l_type := resize; l_handler := CanvasResize i |}
              sd) as (F1 & F2 & _).
  eexists. split; [|split; [|split]].
  - unfold mret, M_ret. by rewrite closure_animationId_add_listener, D4.
  - by rewrite F1.
  - by rewrite F2.
  - intros l [Hl| ->]%add_listener_elem; [left|by right]. by rewrite D3 in Hl.
Qed.

Lemma createScatterplot_result (h : Host) (c i : Z) (s : State) :
  is_Some (containers s !! c) →
  ∃ s', createScatterplot h (Some c) i s
        = Ok {| plot_animationId := Some (raf_handle s + 1)%Z;
                plot_handleResize := Some (SceneResize i) |} s' ∧
    raf_handle s' = (raf_handle s + 1)%Z ∧
    raf_callbacks s' = raf_callbacks s ++ [((raf_handle s + 1)%Z, Animate i)] ∧
    (∀ l, l ∈ listeners s' →
          l ∈ listeners s ∨ l = resize_listener (SceneResize i) ∨
          l_target l = ContainerEl c).
Proof.
  intros [ct E]. unfold createScatterplot.
  rewrite bind_deref_Some, (bind_container_of _ _ _ _ E). cbv zeta.
  rewrite bind_modify, bind_sampleData, !bind_modify, !bind_addEventListener,
    bind_gets.
  match goal with |- context [animate i ?s0] =>
    destruct (animate_requests i _ s0 (lookup_insert_eq _ _ _))
      as (D1 & D2 & D3 & D4);
    cbn [raf_handle raf_callbacks listeners set_viz set_vizs set_draws]
      in D1, D2, D3, D4;
    set (sd := animate i s0) in *
  end.
  destruct (appendChild_frame c RendererChild s) as (A1 & A2 & A3).
  rewrite A1 in D1, D2, D4. rewrite A2 in D2. rewrite A3 in D3.
  eexists. split; [|split; [|split]].
  - unfold mret, M_ret. by rewrite !closure_animationId_add_listener, D4.
  - repeat match goal with |- context [add_listener ?l ?x] =>
      destruct (add_listener_frame l x) as (-> & _ & _) end. done.
  - repeat match goal with |- context [add_listener ?l ?x] =>
      destruct (add_listener_frame l x) as (_ & -> & _) end. done.
  - intros l Hl.
    repeat (apply add_listener_elem in Hl as [Hl| ->];
            [|first [by right; right | by right; left]]).
    left. by rewrite D3 in Hl.
Qed.

Lemma initScatterplot_cover (h : Host) (i : Z) (s : State) :
  (0 ≤ raf_handle s)%Z →
  scatterplots s !! i = None →
  plots_cover s →
  (0 ≤ raf_handle (state_of (initScatterplot h i s)))%Z ∧
  plots_cover (state_of (initScatterplot h i s)).
Proof.
  intros H0 Hi [C1 C2].
  unfold initScatterplot. rewrite bind_gets. unfold getElementById.
  destruct (containers s !! i) as [ct|] eqn:E; simpl; [|done].
  rewrite bind_gets.
  assert (∃ plot s',
            (if THREE_defined s then createScatterplot h (Some i) i
             else createCanvasPlaceholder h (Some i) i) s = Ok plot s' ∧
            scatterplots s' = scatterplots s ∧
            raf_handle s' = (raf_handle s + 1)%Z ∧
            plot_animationId plot = Some (raf_handle s + 1)%Z ∧
            (∃ cb, raf_callbacks s' = raf_callbacks s ++ [((raf_handle s + 1)%Z, cb)]) ∧
            (∀ l, l ∈ listeners s' →
               l ∈ listeners s ∨
               (∃ hd, l = resize_listener hd ∧ plot_handleResize plot = Some hd) ∨
               l_target l = ContainerEl i))
    as (plot & s' & Ec & P & R1 & R2 & (cb & R3) & R4).
  { destruct (THREE_defined s).
    - destruct (createScatterplot_safe h i i s) as (? & ? & E1 & _ & P);
        [by rewrite E|].
      destruct (createScatterplot_result h i i s) as (s' & E2 & R1 & R2 & R3);
        [by rewrite E|].
      rewrite E2 in E1. injection E1 as <- <-.
      eexists _, s'. split; [exact E2|]. split; [exact P|]. split; [exact R1|].
      split; [done|]. split; [eauto|].
      intros l Hl. destruct (R3 l Hl) as [?|[->|?]]; eauto.
    - destruct (createCanvasPlaceholder_safe h i i s) as (? & ? & E1 & _ & P);
        [by rewrite E|].
      destruct (createCanvasPlaceholder_result h i i s) as (s' & E2 & R1 & R2 & R3);
        [by rewrite E|].
      rewrite E2 in E1. injection E1 as <- <-.
      eexists _, s'. split; [exact E2|]. split; [exact P|]. split; [exact R1|].
      split; [done|]. split; [eauto|].
      intros l Hl. destruct (R3 l Hl) as [?| ->]; eauto. }
  unfold mbind, M_bind. rewrite Ec. unfold modify, plots_cover, callbacks_covered, resizes_covered. simpl.
  split; [lia|]. split.
  - intros id cb' Hin. rewrite R3 in Hin.
    apply elem_of_app in Hin as [Hin|Hin%list_elem_of_singleton].
    + destruct (C1 id cb' Hin) as (N & j & pl & Hj & Ha). split; [exact N|].
      exists j, pl. split; [|exact Ha].
      rewrite lookup_insert_ne; [by rewrite P|]. intros <-. congruence.
    + injection Hin as -> ->. split; [lia|].
      exists i, plot. by rewrite lookup_insert_eq.
  - intros l Hl Ht Hy. destruct (R4 l Hl) as [Hold|[(hd & -> & Hp)|Hc]].
    + destruct (C2 l Hold Ht Hy) as (j & pl & Hj & Ha).
      exists j, pl. split; [|exact Ha].
      rewrite lookup_insert_ne; [by rewrite P|]. intros <-. congruence.
    + exists i, plot. by rewrite lookup_insert_eq.
    + congruence.
Qed.

Lemma initScatterplots_cover (h : Host) (s : State) :
  (0 ≤ raf_handle s)%Z →
  scatterplots s = ∅ →
  plots_cover s →
  plots_cover (state_of (initScatterplots h s)).
Proof.
  intros H0 He Hc. unfold initScatterplots.
  destruct (initScatterplot_spec h 1 s) as (s1 & E1 & _ & O1 & _).
  destruct (initScatterplot_spec h 2 s1) as (s2 & E2 & _ & O2 & _).
  destruct (initScatterplot_spec h 3 s2) as (s3 & E3 & _ & O3 & _).
  destruct (initScatterplot_cover h 1 s H0) as [H1 C1]; [by rewrite He|exact Hc|].
  rewrite E1 in H1, C1. simpl in H1, C1.
  destruct (initScatterplot_cover h 2 s1 H1) as [H2 C2]; [|exact C1|].
  { rewrite O1 by done. by rewrite He. }
  rewrite E2 in H2, C2. simpl in H2, C2.
  destruct (initScatterplot_cover h 3 s2 H2) as [H3 C3]; [|exact C2|].
  { rewrite O2, O1 by done. by rewrite He. }
  rewrite E3 in C3. simpl in C3.
  unfold mbind, M_bind. by rewrite E1, E2, E3.
Qed.

(** After construction every pending callback and every resize listener of
    the component is recorded in a plot. *)
Lemma constructor_cover (h : Host) (p : Page) : plots_cover (carousel_of h p).
Proof.
  unfold carousel_of, FeaturedWorkCarousel, init.
  pose proof (initScatterplots_cover h) as Hk. revert Hk.
  generalize (initScatterplots h). intros k Hk.
  destruct (page_prev p), (page_next p);
    unfold mbind, M_bind, gets, modify, addEventListener, deref, mret, M_ret,
      add_listener; simpl;
    (apply Hk; [done|done|]); (split; [by intros ?? ?%elem_of_nil|]);
    intros l Hl Ht; simpl in Hl;
    repeat (apply elem_of_cons in Hl as [->|Hl]; [done|]);
    by apply elem_of_nil in Hl.
Qed.

(** * Reachable states *)

Lemma foldl_preserves {A B : Type} (f : State → B) (g : A → State → State)
    (l : list A) (s : State) :
  (∀ a s, f (g a s) = f s) →
  f (foldl (λ acc a, g a acc) s l) = f s.
Proof.
  intros Hg. revert s; induction l as [|a l IH]; intros s; [done|].
  simpl. by rewrite IH, Hg.
Qed.

Lemma run_handler_frame (hd : Handler) (e : Event) (s : State) :
  scatterplots (run_handler hd e s) = scatterplots s ∧
  keyboardHandler (run_handler hd e s) = keyboardHandler s ∧
  raf_callbacks (run_handler hd e s) = raf_callbacks s.
Proof.
  destruct hd; simpl; try done.
  - by repeat case_bool_decide.
  - unfold canvas_handleResize. by repeat case_match.
  - unfold scene_handleResize. by repeat case_match.
  - unfold set_drag. by repeat case_match.
  - unfold on_mousemove. by repeat case_match.
  - unfold set_drag. by repeat case_match.
  - unfold set_drag. by repeat case_match.
Qed.

Lemma dispatchEvent_frame (t : Target) (ty : EventType) (e : Event) (s : State) :
  scatterplots (dispatchEvent t ty e s) = scatterplots s ∧
  keyboardHandler (dispatchEvent t ty e s) = keyboardHandler s ∧
  raf_callbacks (dispatchEvent t ty e s) = raf_callbacks s.
Proof.
  rewrite dispatchEvent_listening. repeat split.
  - apply (foldl_preserves scatterplots (λ l acc, run_handler (l_handler l) e acc)).
    intros. apply run_handler_frame.
  - apply (foldl_preserves keyboardHandler (λ l acc, run_handler (l_handler l) e acc)).
    intros. apply run_handler_frame.
  - apply (foldl_preserves raf_callbacks (λ l acc, run_handler (l_handler l) e acc)).
    intros. apply run_handler_frame.
Qed.

Lemma run_callback_frame (cb : Callback) (s : State) :
  scatterplots (run_callback cb s) = scatterplots s ∧
  keyboardHandler (run_callback cb s) = keyboardHandler s.
Proof.
  destruct cb; simpl; unfold draw, animate, requestAnimationFrame;
    repeat case_match; done.
Qed.

Lemma animation_frame_frame (s : State) :
  scatterplots (animation_frame s) = scatterplots s ∧
  keyboardHandler (animation_frame s) = keyboardHandler s.
Proof.
  unfold animation_frame. split.
  - rewrite (foldl_preserves scatterplots (λ p acc, run_callback p.2 acc)); [done|].
    intros. apply run_callback_frame.
  - rewrite (foldl_preserves keyboardHandler (λ p acc, run_callback p.2 acc)); [done|].
    intros. apply run_callback_frame.
Qed.

Lemma destroy_plot_frame (plot : Plot) (s : State) :
  scatterplots (destroy_plot plot s) = scatterplots s ∧
  keyboardHandler (destroy_plot plot s) = keyboardHandler s ∧
  (∀ l, l ∈ listeners (destroy_plot plot s) → l ∈ listeners s) ∧
  (∀ x, x ∈ raf_callbacks (destroy_plot plot s) → x ∈ raf_callbacks s).
Proof.
  unfold destroy_plot, cancelAnimationFrame, removeEventListener.
  destruct (truthy_id (plot_animationId plot)),
    (plot_handleResize plot); simpl; repeat split; try done;
    by intros ? [_ ?]%list_elem_of_filter.
Qed.

Lemma destroy_plots_frame (plots : list Plot) (s : State) :
  scatterplots (foldl (λ acc plot, destroy_plot plot acc) s plots)
  = scatterplots s ∧
  keyboardHandler (foldl (λ acc plot, destroy_plot plot acc) s plots)
  = keyboardHandler s ∧
  (∀ l, l ∈ listeners (foldl (λ acc plot, destroy_plot plot acc) s plots) →
        l ∈ listeners s) ∧
  (∀ x, x ∈ raf_callbacks (foldl (λ acc plot, destroy_plot plot acc) s plots) →
        x ∈ raf_callbacks s).
Proof.
  revert s; induction plots as [|plot plots IH]; intros s; [done|].
  simpl. destruct (IH (destroy_plot plot s)) as (I1 & I2 & I3 & I4).
  destruct (destroy_plot_frame plot s) as (D1 & D2 & D3 & D4).
  rewrite I1, I2, D1, D2. repeat split; eauto.
Qed.

Lemma destroy_frame (s : State) :
  scatterplots (destroy s) = scatterplots s ∧
  keyboardHandler (destroy s) = keyboardHandler s ∧
  (∀ l, l ∈ listeners (destroy s) → l ∈ listeners s) ∧
  (∀ x, x ∈ raf_callbacks (destroy s) → x ∈ raf_callbacks s).
Proof.
  unfold destroy.
  set (s1 := match keyboardHandler s with
             | Some handler => removeEventListener Document keydown handler s
             | None => s end).
  assert (scatterplots s1 = scatterplots s ∧
          keyboardHandler s1 = keyboardHandler s ∧
          (∀ l, l ∈ listeners s1 → l ∈ listeners s) ∧
          raf_callbacks s1 = raf_callbacks s) as (S1 & S2 & S3 & S4).
  { unfold s1, removeEventListener. destruct (keyboardHandler s) eqn:K; simpl;
      repeat split; try done; by intros ? [_ ?]%list_elem_of_filter. }
  destruct (destroy_plots_frame (Object_values (scatterplots s1)) s1)
    as (I1 & I2 & I3 & I4).
  split; [by rewrite I1|]. split; [by rewrite I2|]. split; [eauto|].
  intros x Hx. rewrite <- S4. eauto.
Qed.

(** No action adds a listener, a plot or a key handler, and only a frame adds
    an animation callback. *)
Lemma step_frame (a : Action) (s : State) :
  scatterplots (step a s) = scatterplots s ∧
  keyboardHandler (step a s) = keyboardHandler s ∧
  (∀ l, l ∈ listeners (step a s) → l ∈ listeners s) ∧
  (a ≠ Frame → ∀ x, x ∈ raf_callbacks (step a s) → x ∈ raf_callbacks s).
Proof.
  destruct a; simpl.
  - destruct (dispatchEvent_frame target type e s) as (-> & -> & ->).
    rewrite dispatchEvent_listeners. done.
  - destruct (animation_frame_frame s) as (-> & ->).
    rewrite animation_frame_listeners. done.
  - unfold layout. by case_match.
  - done.
  - done.
  - destruct (destroy_frame s) as (-> & -> & ? & ?). done.
Qed.

Lemma run_frame (acts : list Action) (s : State) :
  scatterplots (run acts s) = scatterplots s ∧
  keyboardHandler (run acts s) = keyboardHandler s ∧
  (∀ l, l ∈ listeners (run acts s) → l ∈ listeners s) ∧
  (Frame ∉ acts → ∀ x, x ∈ raf_callbacks (run acts s) → x ∈ raf_callbacks s).
Proof.
  revert s; induction acts as [|a acts IH]; intros s; [done|].
  unfold run in *. simpl. destruct (IH (step a s)) as (I1 & I2 & I3 & I4).
  destruct (step_frame a s) as (S1 & S2 & S3 & S4).
  rewrite I1, I2, S1, S2. repeat split; [eauto|].
  intros Hn x Hx. apply S4; [intros ->; apply Hn; by left|].
  apply I4; [|exact Hx]. intros ?. apply Hn. by right.
Qed.

(** * Teardown *)

(** C3 at its failing input.  One container, for slide 1, under either
    strategy: once a frame has run, [destroy] cancels the handle 1 the
    returned object kept, which is no longer in the list, and the callback
    requested during the frame, handle 2, stays: the animation goes on.  The
    resize listener and the keyboard listener are removed. *)
Theorem destroy_after_a_frame_keeps_the_loop :
  raf_callbacks (run [Frame; CallDestroy] canvas_carousel) = [(2%Z, Draw 1)] ∧
  raf_callbacks (run [Frame; CallDestroy] scene_carousel) = [(2%Z, Animate 1)] ∧
  listening Window resize (run [Frame; CallDestroy] canvas_carousel) = [] ∧
  listening Window resize (run [Frame; CallDestroy] scene_carousel) = [] ∧
  raf_callbacks (run [CallDestroy] canvas_carousel) = [] ∧
  raf_callbacks (run [CallDestroy] scene_carousel) = [].
Proof. vm_compute. repeat split. Qed.

Lemma Object_values_elem {A : Type} (m : gmap Z A) (j : Z) (x : A) :
  m !! j = Some x → x ∈ Object_values m.
Proof.
  intros Hj. unfold Object_values. apply list_elem_of_fmap.
  exists (j, x). split; [done|].
  rewrite merge_sort_Permutation. by apply elem_of_map_to_list.
Qed.

Lemma destroy_plot_removes (plot : Plot) (s : State) :
  (∀ hd, plot_handleResize plot = Some hd →
         resize_listener hd ∉ listeners (destroy_plot plot s)) ∧
  (∀ id cb, plot_animationId plot = Some id → id ≠ 0%Z →
         (id, cb) ∉ raf_callbacks (destroy_plot plot s)).
Proof.
  unfold destroy_plot. split.
  - intros hd ->. unfold removeEventListener. simpl.
    intros [H _]%list_elem_of_filter. by apply H.
  - intros id cb -> Hid. simpl.
    destruct (Z.eqb_spec id 0) as [|_]; [done|]. simpl.
    assert ((id, cb) ∉ raf_callbacks (cancelAnimationFrame id s)) as Hc.
    { unfold cancelAnimationFrame. simpl.
      intros [H _]%list_elem_of_filter. by apply H. }
    destruct (plot_handleResize plot); [|exact Hc].
    unfold removeEventListener. simpl. exact Hc.
Qed.

Lemma destroy_plots_removes (plots : list Plot) (plot : Plot) (s : State) :
  plot ∈ plots →
  (∀ hd, plot_handleResize plot = Some hd →
         resize_listener hd
         ∉ listeners (foldl (λ acc pl, destroy_plot pl acc) s plots)) ∧
  (∀ id cb, plot_animationId plot = Some id → id ≠ 0%Z →
         (id, cb)
         ∉ raf_callbacks (foldl (λ acc pl, destroy_plot pl acc) s plots)).
Proof.
  revert s; induction plots as [|pl plots IH]; intros s Hin.
  { by apply elem_of_nil in Hin. }
  simpl. apply elem_of_cons in Hin as [<-|Hin]; [|by apply IH].
  destruct (destroy_plot_removes plot s) as [R1 R2].
  destruct (destroy_plots_frame plots (destroy_plot plot s)) as (_ & _ & F3 & F4).
  split.
  - intros hd Hh Hl. by apply (R1 hd Hh), F3.
  - intros id cb Ha Hid Hl. by apply (R2 id cb Ha Hid), F4.
Qed.

Lemma filter_none {A : Type} (P : A → Prop) `{∀ a, Decision (P a)} (l : list A) :
  (∀ a, a ∈ l → ¬ P a) → filter P l = [].
Proof.
  intros Hl. apply elem_of_nil_inv. intros a [Ha Hin]%list_elem_of_filter.
  by apply (Hl a).
Qed.

(** In every state the constructed carousel reaches, [destroy] removes the
    keyboard listener from [document] and every resize listener from
    [window]. *)
Theorem destroy_removes_listeners (h : Host) (p : Page) (acts : list Action) :
  listening Document keydown (destroy (run acts (carousel_of h p))) = [] ∧
  listening Window resize (destroy (run acts (carousel_of h p))) = [].
Proof.
  pose proof (constructor_cover h p) as [_ Hcov].
  destruct (run_frame acts (carousel_of h p)) as (Rs & Rk & Rl & _).
  set (s := run acts (carousel_of h p)) in *.
  assert (Hkey : keyboardHandler s = Some KeyboardHandler).
  { rewrite Rk. unfold carousel_of.
    destruct (constructor_spec h p) as (s0 & E0 & _ & _ & K & _).
    by rewrite E0. }
  assert (Hnav : ∀ l, l ∈ listeners s → l_target l = Document →
                      l_type l = keydown → l = key_listener).
  { intros l Hl Ht Hy. apply Rl in Hl. unfold carousel_of in Hl.
    destruct (constructor_spec h p) as (s0 & E0 & _ & _ & _ & (extra & E & F) & _).
    rewrite E0 in Hl. simpl in Hl. rewrite E in Hl.
    apply elem_of_app in Hl as [Hl|Hl].
    - unfold nav_listeners in Hl.
      destruct (page_prev p && page_next p); simpl in Hl;
        repeat (apply elem_of_cons in Hl as [->|Hl]; [done|]);
        by apply elem_of_nil in Hl.
    - rewrite Forall_forall in F. destruct (F l Hl) as [_ N]. done. }
  unfold listening. split; apply filter_none; intros l Hl [Ht Hy].
  - unfold destroy in Hl. rewrite Hkey in Hl.
    apply destroy_plots_frame in Hl.
    unfold removeEventListener in Hl. simpl in Hl.
    apply list_elem_of_filter in Hl as [Hne Hl].
    apply Hne. by apply Hnav.
  - pose proof Hl as Hl'. apply destroy_frame in Hl'.
    destruct (Hcov l (Rl l Hl') Ht Hy) as (j & plot & Hj & Hh).
    rewrite <- Rs in Hj.
    unfold destroy in Hl. rewrite Hkey in Hl.
    apply (Object_values_elem _ _ _) in Hj.
    eapply (proj1 (destroy_plots_removes _ plot _ Hj)); [exact Hh|].
    destruct l as [t y hd]. simpl in *. subst t y. exact Hl.
Qed.

(** As long as no animation frame has run, [destroy] cancels every pending
    animation callback. *)
Theorem destroy_before_first_frame (h : Host) (p : Page) (acts : list Action) :
  Frame ∉ acts →
  raf_callbacks (destroy (run acts (carousel_of h p))) = [].
Proof.
  intros Hn. pose proof (constructor_cover h p) as [Hcov _].
  destruct (run_frame acts (carousel_of h p)) as (Rs & Rk & _ & Rc).
  set (s := run acts (carousel_of h p)) in *.
  apply elem_of_nil_inv. intros [id cb] Hx.
  pose proof Hx as Hx'. apply destroy_frame in Hx'.
  destruct (Hcov id cb (Rc Hn _ Hx')) as (Hid & j & plot & Hj & Ha).
  rewrite <- Rs in Hj. unfold destroy in Hx.
  set (s1 := match keyboardHandler s with
             | Some handler => removeEventListener Document keydown handler s
             | None => s end) in *.
  assert (Hs1 : scatterplots s1 = scatterplots s).
  { unfold s1. by destruct (keyboardHandler s). }
  rewrite <- Hs1 in Hj. apply (Object_values_elem _ _ _) in Hj.
  exact (proj2 (destroy_plots_removes _ plot s1 Hj) id cb Ha Hid Hx).
Qed.

Lemma destroy_before_first_frame_witness :
  raf_callbacks (destroy (run [Layout 1 0 150; CallNextSlide] canvas_carousel))
  = [].
Proof.
  apply (destroy_before_first_frame sample_host
           (example_page true true {[ 1%Z := box 300 150 ]} false)
           [Layout 1 0 150; CallNextSlide]).
  intros H. repeat (apply elem_of_cons in H as [H|H]; [discriminate|]).
  by apply elem_of_nil in H.
Defined.


(** * Resize *)

(** The 3D scatterplot's [handleResize] leaves the whole state as it is when
    the container has no positive width or no positive height: the renderer
    size and the camera aspect in particular. *)
Theorem scene_handleResize_degenerate (i : Z) (s : State) :
  (∀ v ct, vizs s !! i = Some (VScene v) →
           containers s !! sv_container v = Some ct →
           (Container.clientWidth ct ≤ 0 ∨ Container.clientHeight ct ≤ 0)%Z) →
  scene_handleResize i s = s.
Proof.
  intros H. unfold scene_handleResize.
  destruct (vizs s !! i) as [[c|v]|] eqn:Ev; try done.
  destruct (containers s !! sv_container v) as [ct|] eqn:Ec; try done.
  destruct (H v ct eq_refl Ec) as [Hw|Hh].
  - destruct (Z.ltb_spec 0 (Container.clientWidth ct)); [lia|done].
  - destruct (Z.ltb_spec 0 (Container.clientHeight ct)); [lia|].
    by rewrite andb_false_r.
Qed.

Lemma scene_handleResize_degenerate_witness :
  scene_handleResize 1 collapsed_scene = collapsed_scene.
Proof.
  apply scene_handleResize_degenerate. intros v ct Hv Hc.
  unfold collapsed_scene in Hv; simpl in Hv.
  rewrite lookup_singleton_eq in Hv. injection Hv as <-.
  unfold collapsed_scene in Hc; simpl in Hc.
  rewrite lookup_singleton_eq in Hc. injection Hc as <-.
  left. discriminate.
Defined.

(** C7 at its failing input.  The 2D placeholder of slide 1, drawn at 300 by
    150: when the container's width becomes 0, the resize handler sets the
    canvas width to 0.  The 3D scatterplot on the same page keeps its size
    and its camera aspect. *)
Theorem canvas_resize_is_not_guarded :
  surface_size 1 canvas_carousel = Some (300, 150)%Z ∧
  surface_size 1
    (run [Layout 1 0 150; Dispatch Window resize (event_with_key "")]
       canvas_carousel)
  = Some (0, 150)%Z ∧
  surface_size 1
    (run [Layout 1 0 150; Dispatch Window resize (event_with_key "")]
       scene_carousel)
  = Some (300, 150)%Z ∧
  camera_aspect 1
    (run [Layout 1 0 150; Dispatch Window resize (event_with_key "")]
       scene_carousel)
  = Some (Fin 2).
Proof. vm_compute. repeat split. Qed.

Local Open Scope Q_scope.

(** * binary64 rounding *)

Lemma pow2_pos (k : Z) : 0 < 2 ^ k.
Proof. apply Qpower_0_lt. reflexivity. Qed.

Lemma pow2_add (a b : Z) : 2 ^ (a + b) == 2 ^ a * 2 ^ b.
Proof. apply Qpower_plus. discriminate. Qed.

Lemma pow2_le (a b : Z) : (a ≤ b)%Z → 2 ^ a <= 2 ^ b.
Proof. intros H. apply Qpower_le_compat_l; [exact H|]. discriminate. Qed.

Lemma pow2_lt (a b : Z) : (a < b)%Z → 2 ^ a < 2 ^ b.
Proof. intros H. apply Qpower_lt_compat_l; [exact H|]. reflexivity. Qed.

Lemma pow2_Z (k : Z) : (0 ≤ k)%Z → 2 ^ k == inject_Z (2 ^ k).
Proof. intros H. symmetry. apply (Zpower_Qpower 2 k H). Qed.

Lemma pow2_cancel (k : Z) : 2 ^ (- k) * 2 ^ k == 1.
Proof. rewrite <- pow2_add. replace (- k + k)%Z with 0%Z by lia. reflexivity. Qed.

Lemma Zlog2_Q (n : Z) :
  (0 < n)%Z →
  2 ^ Z.log2 n <= inject_Z n ∧ inject_Z n < 2 ^ (Z.log2 n + 1).
Proof.
  intros Hn. destruct (Z.log2_spec n Hn) as [H1 H2].
  pose proof (Z.log2_nonneg n) as H0.
  rewrite !pow2_Z by lia. split.
  - rewrite <- Zle_Qle. exact H1.
  - rewrite <- Zlt_Qlt. exact H2.
Qed.

Lemma ilog2_spec (q : Q) :
  0 < q → 2 ^ ilog2 q <= q ∧ q < 2 ^ (ilog2 q + 1).
Proof.
  intros Hq. destruct q as [n d].
  assert (Hn : (0 < n)%Z).
  { unfold Qlt in Hq. simpl in Hq. lia. }
  destruct (Zlog2_Q n Hn) as [Na Nb].
  destruct (Zlog2_Q (Zpos d) eq_refl) as [Da Db].
  unfold ilog2. simpl Qnum. simpl Qden.
  set (a := Z.log2 n) in *. set (b := Z.log2 (Z.pos d)) in *.
  assert (Hd : 0 < inject_Z (Z.pos d)) by reflexivity.
  assert (Eq : n # d == inject_Z n / inject_Z (Z.pos d)) by apply Qmake_Qdiv.
  assert (Hhi : n # d < 2 ^ (a - b + 1)).
  { rewrite Eq. apply Qlt_shift_div_r; [exact Hd|].
    eapply Qlt_le_trans; [exact Nb|].
    replace (a + 1)%Z with ((a - b + 1) + b)%Z by lia. rewrite pow2_add.
    apply Qmult_le_l; [apply pow2_pos|exact Da]. }
  assert (Hlo : 2 ^ (a - b - 1) <= n # d).
  { rewrite Eq. apply Qle_shift_div_l; [exact Hd|].
    eapply Qle_trans; [|exact Na].
    replace a with ((a - b - 1) + (b + 1))%Z at 2 by lia. rewrite pow2_add.
    apply Qmult_le_l; [apply pow2_pos|]. apply Qlt_le_weak, Db. }
  destruct (Qle_bool (2 ^ (a - b)) (n # d)) eqn:E.
  - apply Qle_bool_iff in E. split; [exact E|exact Hhi].
  - split; [exact Hlo|].
    replace (a - b - 1 + 1)%Z with (a - b)%Z by lia.
    apply Qnot_le_lt. intros H. apply Qle_bool_iff in H. congruence.
Qed.

Lemma ilog2_unique (q : Q) (k : Z) :
  2 ^ k <= q → q < 2 ^ (k + 1) → ilog2 q = k.
Proof.
  intros H1 H2.
  assert (Hq : 0 < q) by (eapply Qlt_le_trans; [apply (pow2_pos k)|exact H1]).
  destruct (ilog2_spec q Hq) as [S1 S2].
  destruct (Z.lt_trichotomy (ilog2 q) k) as [L|[E|G]]; [|exact E|].
  - exfalso. apply (Qlt_irrefl q).
    eapply Qlt_le_trans; [exact S2|]. eapply Qle_trans; [|exact H1].
    apply pow2_le. lia.
  - exfalso. apply (Qlt_irrefl q).
    eapply Qlt_le_trans; [exact H2|]. eapply Qle_trans; [|exact S1].
    apply pow2_le. lia.
Qed.

Lemma ilog2_mono (x y : Q) : 0 < x → x <= y → (ilog2 x ≤ ilog2 y)%Z.
Proof.
  intros Hx Hxy.
  assert (Hy : 0 < y) by (eapply Qlt_le_trans; eauto).
  destruct (ilog2_spec x Hx) as [X1 X2]. destruct (ilog2_spec y Hy) as [Y1 Y2].
  destruct (Z_le_gt_dec (ilog2 x) (ilog2 y)) as [L|G]; [exact L|].
  exfalso. apply (Qlt_irrefl y).
  eapply Qlt_le_trans; [exact Y2|]. eapply Qle_trans; [|exact Hxy].
  eapply Qle_trans; [|exact X1]. apply pow2_le. lia.
Qed.

Lemma rne_comp (x y : Q) : x == y → rne x = rne y.
Proof.
  intros E. unfold rne. rewrite (Qfloor_comp _ _ E).
  assert (E' : x - inject_Z (Qfloor y) == y - inject_Z (Qfloor y))
    by (rewrite E; reflexivity).
  by rewrite (Qcompare_comp _ _ E' _ _ (Qeq_refl (1 # 2))).
Qed.

Lemma rne_floor (q : Q) :
  (rne q = Qfloor q ∧ q - inject_Z (Qfloor q) <= 1 # 2) ∨
  (rne q = (Qfloor q + 1)%Z ∧ 1 # 2 <= q - inject_Z (Qfloor q)).
Proof.
  unfold rne.
  destruct (Qcompare_spec (q - inject_Z (Qfloor q)) (1 # 2)) as [E|L|G].
  - destruct (Z.even (Qfloor q)); [left|right]; (split; [done|]);
      rewrite E; apply Qle_refl.
  - left. split; [done|]. by apply Qlt_le_weak.
  - right. split; [done|]. by apply Qlt_le_weak.
Qed.

Lemma rne_mono (x y : Q) : x <= y → (rne x ≤ rne y)%Z.
Proof.
  intros Hxy. pose proof (Qfloor_resp_le x y Hxy) as Hf.
  destruct (rne_floor x) as [[-> Fx]|[Ex Fx]];
    destruct (rne_floor y) as [[Ey Fy]|[Ey Fy]]; rewrite ?Ey; try lia.
  destruct (Z.eq_dec (Qfloor x) (Qfloor y)) as [E|N]; [|lia].
  exfalso. rewrite <- E in Fy.
  assert (Exy : x == y) by lra.
  rewrite (rne_comp x y Exy) in Ex. lia.
Qed.

Lemma rne_Z (n : Z) : rne (inject_Z n) = n.
Proof.
  unfold rne. rewrite Qfloor_Z.
  destruct (Qcompare_spec (inject_Z n - inject_Z n) (1 # 2)) as [E|L|G];
    [exfalso; lra | done | exfalso; lra].
Qed.

Lemma rne_le_Z (x : Q) (n : Z) : x <= inject_Z n → (rne x ≤ n)%Z.
Proof. intros H. rewrite <- (rne_Z n). by apply rne_mono. Qed.

Lemma rne_ge_Z (x : Q) (n : Z) : inject_Z n <= x → (n ≤ rne x)%Z.
Proof. intros H. rewrite <- (rne_Z n). by apply rne_mono. Qed.

Lemma round_pos_eq (q : Q) :
  round_pos q == inject_Z (rne (q * 2 ^ (- ulp_exp q))) * 2 ^ ulp_exp q.
Proof. unfold round_pos. apply Qred_correct. Qed.

Lemma scaled_le_pow2 (x : Q) (e k : Z) :
  (e ≤ k)%Z → x <= 2 ^ k →
  inject_Z (rne (x * 2 ^ (- e))) * 2 ^ e <= 2 ^ k.
Proof.
  intros Hek Hx.
  assert (H : x * 2 ^ (- e) <= inject_Z (2 ^ (k - e))).
  { rewrite <- pow2_Z by lia. replace (k - e)%Z with (k + - e)%Z by lia.
    rewrite pow2_add. apply Qmult_le_compat_r; [exact Hx|].
    apply Qlt_le_weak, pow2_pos. }
  apply rne_le_Z in H. rewrite Zle_Qle in H.
  eapply Qle_trans.
  - apply Qmult_le_compat_r; [exact H|]. apply Qlt_le_weak, pow2_pos.
  - rewrite <- pow2_Z by lia. rewrite <- pow2_add.
    replace (k - e + e)%Z with k by lia. apply Qle_refl.
Qed.

Lemma pow2_le_scaled (x : Q) (e k : Z) :
  (e ≤ k)%Z → 2 ^ k <= x →
  2 ^ k <= inject_Z (rne (x * 2 ^ (- e))) * 2 ^ e.
Proof.
  intros Hek Hx.
  assert (H : inject_Z (2 ^ (k - e)) <= x * 2 ^ (- e)).
  { rewrite <- pow2_Z by lia. replace (k - e)%Z with (k + - e)%Z by lia.
    rewrite pow2_add. apply Qmult_le_compat_r; [exact Hx|].
    apply Qlt_le_weak, pow2_pos. }
  apply rne_ge_Z in H. rewrite Zle_Qle in H.
  eapply Qle_trans.
  - replace k with (k - e + e)%Z at 1 by lia. rewrite pow2_add.
    rewrite pow2_Z by lia. apply Qle_refl.
  - apply Qmult_le_compat_r; [exact H|]. apply Qlt_le_weak, pow2_pos.
Qed.

Lemma round_pos_mono (x y : Q) :
  0 < x → x <= y → round_pos x <= round_pos y.
Proof.
  intros Hx Hxy.
  assert (Hy : 0 < y) by (eapply Qlt_le_trans; eauto).
  pose proof (ilog2_mono x y Hx Hxy) as Hl.
  destruct (ilog2_spec x Hx) as [X1 X2]. destruct (ilog2_spec y Hy) as [Y1 Y2].
  rewrite !round_pos_eq.
  destruct (Z.eq_dec (ulp_exp x) (ulp_exp y)) as [E|N].
  - rewrite E. apply Qmult_le_compat_r; [|apply Qlt_le_weak, pow2_pos].
    rewrite <- Zle_Qle. apply rne_mono.
    apply Qmult_le_compat_r; [exact Hxy|]. apply Qlt_le_weak, pow2_pos.
  - unfold ulp_exp in *.
    apply (Qle_trans _ (2 ^ ilog2 y)).
    + apply scaled_le_pow2; [lia|].
      apply Qlt_le_weak. eapply Qlt_le_trans; [exact X2|]. apply pow2_le. lia.
    + apply pow2_le_scaled; [lia|exact Y1].
Qed.

Lemma round_pos_nonneg (x : Q) : 0 < x → 0 <= round_pos x.
Proof.
  intros Hx. rewrite round_pos_eq.
  apply Qmult_le_0_compat; [|apply Qlt_le_weak, pow2_pos].
  change 0 with (inject_Z 0). rewrite <- Zle_Qle. apply rne_ge_Z.
  apply Qmult_le_0_compat; [by apply Qlt_le_weak|apply Qlt_le_weak, pow2_pos].
Qed.

(** Rounding is monotone. *)
Lemma fl_mono (x y : Q) : x <= y → fl x <= fl y.
Proof.
  intros Hxy. unfold fl.
  destruct (Qcompare_spec x 0) as [Ex|Lx|Gx];
    destruct (Qcompare_spec y 0) as [Ey|Ly|Gy];
    rewrite ?Qred_correct; try lra.
  - by apply round_pos_nonneg.
  - assert (0 <= round_pos (- x)) by (apply round_pos_nonneg; lra). lra.
  - assert (round_pos (- y) <= round_pos (- x))
      by (apply round_pos_mono; lra). lra.
  - assert (0 <= round_pos (- x)) by (apply round_pos_nonneg; lra).
    assert (0 <= round_pos y) by (by apply round_pos_nonneg). lra.
  - by apply round_pos_mono.
Qed.

(** An operation whose exact result lies between two rationals returns a
    finite number between their roundings, when these do not overflow. *)
Lemma round_between (q lo hi : Q) :
  lo <= q → q <= hi →
  - 2 ^ 1024 < fl lo → fl hi < 2 ^ 1024 →
  ∃ v, round q = Fin v ∧ fl lo <= v ∧ v <= fl hi.
Proof.
  intros Hlo Hhi Blo Bhi.
  pose proof (fl_mono _ _ Hlo) as M1. pose proof (fl_mono _ _ Hhi) as M2.
  exists (fl q). split; [|split; assumption].
  unfold round.
  destruct (Qle_bool (2 ^ 1024) (fl q)) eqn:E1.
  { apply Qle_bool_iff in E1. exfalso. lra. }
  destruct (Qle_bool (fl q) (- 2 ^ 1024)) eqn:E2.
  { apply Qle_bool_iff in E2. exfalso. lra. }
  reflexivity.
Qed.

(** The largest binary64 value below 1 is 1 - 2^-53. *)
Lemma double_below_one (u : Q) :
  is_double u → 0 <= u → u < 1 → u <= 1 - 2 ^ (-53).
Proof.
  intros Hd H0 H1.
  change (2 ^ (-53)) with (1 # 9007199254740992).
  destruct (Qlt_le_dec u (1 # 2)) as [Hs|Hb]; [lra|].
  assert (Hpos : 0 < u) by lra.
  assert (Hl : ilog2 u = (-1)%Z).
  { apply ilog2_unique; [exact Hb|exact H1]. }
  unfold is_double, fl in Hd.
  rewrite (proj1 (Qgt_alt u 0) Hpos) in Hd.
  rewrite round_pos_eq in Hd. unfold ulp_exp in Hd. rewrite Hl in Hd.
  change (Z.max (-1 - 52) (-1074)) with (-53)%Z in Hd.
  change (2 ^ (-53)) with (1 # 9007199254740992) in Hd.
  set (N := rne (u * 2 ^ (- -53))) in *.
  assert (HN : (N < 9007199254740992)%Z).
  { rewrite Zlt_Qlt.
    assert (inject_Z N * (1 # 9007199254740992) < 1) by (rewrite Hd; exact H1).
    change (inject_Z 9007199254740992) with (9007199254740992 # 1). lra. }
  assert (HN' : inject_Z N <= inject_Z 9007199254740991)
    by (rewrite <- Zle_Qle; lia).
  change (inject_Z 9007199254740991) with (9007199254740991 # 1) in HN'.
  lra.
Qed.

Lemma num_le_Fin (p q : Q) : p <= q → num_le (Fin p) (Fin q) = true.
Proof. intros H. simpl. by apply Qle_bool_iff. Qed.

Lemma num_lt_Fin (p q : Q) : p < q → num_lt (Fin p) (Fin q) = true.
Proof.
  intros H. simpl. apply negb_true_iff.
  destruct (Qle_bool q p) eqn:E; [|done].
  apply Qle_bool_iff in E. exfalso. lra.
Qed.

Lemma mul_Fin (p q : Q) : mul (Fin p) (Fin q) = round (p * q).
Proof. reflexivity. Qed.

Lemma add_Fin (p q : Q) : add (Fin p) (Fin q) = round (p + q).
Proof. reflexivity. Qed.

Lemma sub_Fin (p q : Q) : sub (Fin p) (Fin q) = round (p + Qred (- q)).
Proof. reflexivity. Qed.

(** [c0 + Math.random() * c] for literals [c0] and [c >= 0], whose binary64
    values are [k0] and [k1]: the result is finite and lies between the
    values the expression takes for the draws 0 and 1 - 2^-53. *)
Lemma affine_draw (c0 c k0 k1 lo hi : Q) (a : number) :
  lit c0 = Fin k0 → lit c = Fin k1 → 0 <= k1 →
  fl (k0 + fl (0 * k1)) = lo →
  fl (k0 + fl ((1 - 2 ^ (-53)) * k1)) = hi →
  - 2 ^ 1024 < fl (0 * k1) → fl ((1 - 2 ^ (-53)) * k1) < 2 ^ 1024 →
  - 2 ^ 1024 < lo → hi < 2 ^ 1024 →
  is_draw a →
  ∃ w, add (lit c0) (mul a (lit c)) = Fin w ∧ lo <= w ∧ w <= hi.
Proof.
  intros -> -> Hk <- <- B1 B2 B3 B4 (u & -> & Hd & H0 & H1).
  pose proof (double_below_one u Hd H0 H1) as Hp.
  destruct (round_between (u * k1) (0 * k1) ((1 - 2 ^ (-53)) * k1))
    as (v & Ev & V1 & V2); try assumption.
  { apply Qmult_le_compat_r; assumption. }
  { apply Qmult_le_compat_r; assumption. }
  rewrite mul_Fin, Ev, add_Fin.
  apply round_between; try assumption.
  - apply Qplus_le_r. exact V1.
  - apply Qplus_le_r. exact V2.
Qed.

(** [(Math.random() - 0.5) * c] for a literal [c >= 0] of value [k1]. *)
Lemma centred_draw (c k1 lo hi : Q) (a : number) :
  lit c = Fin k1 → 0 <= k1 →
  fl (fl (0 + - (1 # 2)) * k1) = lo →
  fl (fl ((1 - 2 ^ (-53)) + - (1 # 2)) * k1) = hi →
  - 2 ^ 1024 < lo → hi < 2 ^ 1024 →
  is_draw a →
  ∃ w, mul (sub a (lit (5 # 10))) (lit c) = Fin w ∧ lo <= w ∧ w <= hi.
Proof.
  intros -> Hk <- <- B3 B4 (u & -> & Hd & H0 & H1).
  pose proof (double_below_one u Hd H0 H1) as Hp.
  assert (E5 : lit (5 # 10) = Fin (1 # 2)) by (vm_compute; reflexivity).
  rewrite E5, sub_Fin.
  change (Qred (- (1 # 2))) with (- (1 # 2)).
  destruct (round_between (u + - (1 # 2)) (0 + - (1 # 2))
              ((1 - 2 ^ (-53)) + - (1 # 2)))
    as (v & Ev & V1 & V2).
  { apply Qplus_le_l. exact H0. }
  { apply Qplus_le_l. exact Hp. }
  { vm_compute; reflexivity. }
  { vm_compute; reflexivity. }
  rewrite Ev, mul_Fin.
  apply round_between; try assumption.
  - apply Qmult_le_compat_r; assumption.
  - apply Qmult_le_compat_r; assumption.
Qed.

(** * Sample data *)

Lemma red_band (a : number) :
  is_draw a →
  within (lit (3 # 10)) (lit 1) (add (lit (3 # 10)) (mul a (lit (7 # 10)))).
Proof.
  intros Ha.
  edestruct (affine_draw (3 # 10) (7 # 10)) as (w & -> & W1 & W2);
    [first [vm_compute; reflexivity | vm_compute; discriminate] .. | exact Ha |].
  split.
  - let k := eval vm_compute in (lit (3 # 10)) in change (lit (3 # 10)) with k.
    apply num_le_Fin, W1.
  - change (lit 1) with (Fin 1). apply num_lt_Fin.
    eapply Qle_lt_trans; [exact W2|]. vm_compute; reflexivity.
Qed.

Lemma green_band (a : number) :
  is_draw a →
  within_closed (lit (5 # 10)) (lit 1)
    (add (lit (5 # 10)) (mul a (lit (5 # 10)))).
Proof.
  intros Ha.
  edestruct (affine_draw (5 # 10) (5 # 10)) as (w & -> & W1 & W2);
    [first [vm_compute; reflexivity | vm_compute; discriminate] .. | exact Ha |].
  split.
  - let k := eval vm_compute in (lit (5 # 10)) in change (lit (5 # 10)) with k.
    apply num_le_Fin, W1.
  - change (lit 1) with (Fin 1). apply num_le_Fin, W2.
Qed.

Lemma blue_band (a : number) :
  is_draw a →
  within_closed (lit (8 # 10)) (lit 1)
    (add (lit (8 # 10)) (mul a (lit (2 # 10)))).
Proof.
  intros Ha.
  edestruct (affine_draw (8 # 10) (2 # 10)) as (w & -> & W1 & W2);
    [first [vm_compute; reflexivity | vm_compute; discriminate] .. | exact Ha |].
  split.
  - let k := eval vm_compute in (lit (8 # 10)) in change (lit (8 # 10)) with k.
    apply num_le_Fin, W1.
  - change (lit 1) with (Fin 1). apply num_le_Fin, W2.
Qed.

Lemma radius_band (a : number) :
  is_draw a → within_closed (lit 1) (lit 3) (radius_of a).
Proof.
  intros Ha. unfold radius_of.
  edestruct (affine_draw 1 2) as (w & -> & W1 & W2);
    [first [vm_compute; reflexivity | vm_compute; discriminate] .. | exact Ha |].
  split.
  - change (lit 1) with (Fin 1). apply num_le_Fin, W1.
  - change (lit 3) with (Fin 3). apply num_le_Fin, W2.
Qed.

Lemma height_band (a : number) :
  is_draw a → within (lit (-1)) (lit 1) (height_of a).
Proof.
  intros Ha. unfold height_of.
  edestruct (centred_draw 2) as (w & -> & W1 & W2);
    [first [vm_compute; reflexivity | vm_compute; discriminate] .. | exact Ha |].
  split.
  - change (lit (-1)) with (Fin (-1)). apply num_le_Fin, W1.
  - change (lit 1) with (Fin 1). apply num_lt_Fin.
    eapply Qle_lt_trans; [exact W2|]. vm_compute; reflexivity.
Qed.
Close Scope Q_scope.

Lemma generate_loop_run (h : Host) (sl n : Z) (m : nat) :
  ∀ (fuel : nat) (i : Z) (pts : list Point.t) (k : nat),
    m = Z.to_nat (n - i) → m < fuel →
    generate_loop h fuel sl n i pts k
    = Some (pts ++ points_from h sl n i k m, k + 7 * m).
Proof.
  induction m as [|m IH]; intros fuel i pts k Hm Hf;
    (destruct fuel as [|fuel]; [lia|]); simpl.
  - destruct (Z.ltb_spec i n); [lia|].
    by rewrite app_nil_r, Nat.add_0_r.
  - destruct (Z.ltb_spec i n); [|lia].
    rewrite (IH fuel (i + 1)%Z) by lia.
    rewrite <- app_assoc. simpl. do 2 f_equal. lia.
Qed.

Lemma generateSampleData_points (h : Host) (sl : Z) (k : nat) :
  generateSampleData h sl k
  = (points_from h sl (numPoints sl) 0 k (Z.to_nat (numPoints sl)),
     k + 7 * Z.to_nat (numPoints sl)).
Proof.
  unfold generateSampleData.
  rewrite (generate_loop_run h sl _ (Z.to_nat (numPoints sl))); [done| |lia].
  f_equal. lia.
Qed.

Lemma points_from_length (h : Host) (sl n i : Z) (k m : nat) :
  length (points_from h sl n i k m) = m.
Proof. revert i k; induction m as [|m IH]; intros i k; simpl; [done|by rewrite IH]. Qed.

Lemma points_from_lookup (h : Host) (sl n i : Z) (k m j : nat) (p : Point.t) :
  points_from h sl n i k m !! j = Some p →
  p = sample_point h sl n (i + Z.of_nat j) (k + 7 * j).
Proof.
  revert i k j; induction m as [|m IH]; intros i k j; simpl; [done|].
  destruct j as [|j]; simpl.
  - intros [= <-]. f_equal; lia.
  - intros H. rewrite (IH _ _ _ H). f_equal; lia.
Qed.

(** C4. For every slide ordinal k (k >= 0), whatever the host's random
    draws and trigonometry, [generateSampleData(k)] returns exactly
    50 + 20 k points; the loop ends by its own test for any fuel beyond the
    point count. *)
Theorem generateSampleData_count (h : Host) (slideNumber : Z) (k : nat) :
  (0 ≤ slideNumber)%Z →
  Z.of_nat (length (generateSampleData h slideNumber k).1)
  = (50 + 20 * slideNumber)%Z ∧
  ∀ fuel : nat,
    Z.to_nat (numPoints slideNumber) < fuel →
    generate_loop h fuel slideNumber (numPoints slideNumber) 0 [] k
    = Some (generateSampleData h slideNumber k).
Proof.
  intros Hk. rewrite generateSampleData_points. simpl. split.
  - rewrite points_from_length. unfold numPoints. lia.
  - intros fuel Hf.
    rewrite (generate_loop_run h _ _ (Z.to_nat (numPoints slideNumber)));
      [done| |exact Hf].
    f_equal. lia.
Qed.

Lemma generateSampleData_count_witness :
  Z.of_nat (length (generateSampleData sample_host 2 0).1) = 90%Z.
Proof.
  refine (proj1 (generateSampleData_count sample_host 2 0 _)).
  discriminate.
Defined.

(** C5, as amended.  For every point [generateSampleData] returns, when
    every call of [Math.random] returns a binary64 value in [0, 1): red lies
    in [0.3, 1.0), green in [0.5, 1.0], blue in [0.8, 1.0] and y in
    [-1, 1), and the radius the point was built from lies in [1, 3]; the
    bounds are the binary64 values of the literals.  The point is the ring
    position of that radius plus the jitter. *)
Theorem sample_bands (h : Host) (slideNumber : Z) (k j : nat) (p : Point.t) :
  random_ok h →
  (generateSampleData h slideNumber k).1 !! j = Some p →
  within (lit (3 # 10)) (lit 1) (Color.r (Point.color p)) ∧
  within_closed (lit (5 # 10)) (lit 1) (Color.g (Point.color p)) ∧
  within_closed (lit (8 # 10)) (lit 1) (Color.b (Point.color p)) ∧
  within (lit (-1)) (lit 1) (Point.y p) ∧
  within_closed (lit 1) (lit 3) (radius_of (Math_random h (k + 7 * j))) ∧
  Point.x p
  = add (mul (Math_cos h (angle_of (numPoints slideNumber) (Z.of_nat j)))
           (radius_of (Math_random h (k + 7 * j))))
      (jitter_of (Math_random h (k + 7 * j + 2))) ∧
  Point.z p
  = add (mul (Math_sin h (angle_of (numPoints slideNumber) (Z.of_nat j)))
           (radius_of (Math_random h (k + 7 * j))))
      (jitter_of (Math_random h (k + 7 * j + 3))).
Proof.
  intros Hr. rewrite generateSampleData_points. simpl.
  intros ->%points_from_lookup. unfold sample_point.
  cbn [Point.color Point.x Point.y Point.z Color.r Color.g Color.b].
  rewrite Z.add_0_l.
  split; [apply red_band, Hr|]. split; [apply green_band, Hr|].
  split; [apply blue_band, Hr|]. split; [apply height_band, Hr|].
  split; [apply radius_band, Hr|]. done.
Qed.

Lemma cycle_ok (draws : list Q) :
  draws ≠ [] →
  Forall (λ u, is_double u ∧ (0 <= u)%Q ∧ (u < 1)%Q) draws →
  ∀ n : nat, is_draw (cycle draws n).
Proof.
  intros Hne Hall n. unfold cycle.
  assert (Hn : n mod length draws < length draws).
  { apply Nat.mod_upper_bound. by destruct draws. }
  destruct (nth_lookup_or_length draws (n mod length draws) 0%Q) as [Hl|]; [|lia].
  rewrite Forall_forall in Hall.
  destruct (Hall _ (list_elem_of_lookup_2 _ _ _ Hl)) as (Hd & H0 & H1).
  eexists. split; [reflexivity|]. done.
Qed.

Lemma sample_host_ok : random_ok sample_host.
Proof.
  unfold random_ok, sample_host, example_host; cbn [Math_random].
  apply cycle_ok; [discriminate|].
  repeat constructor; vm_compute; congruence.
Qed.

Lemma extreme_host_ok : random_ok extreme_host.
Proof.
  unfold random_ok, extreme_host, example_host; cbn [Math_random].
  apply cycle_ok; [discriminate|].
  repeat constructor; vm_compute; congruence.
Qed.

Lemma sample_bands_witness :
  random_ok sample_host ∧
  (generateSampleData sample_host 1 0).1 !! 0
  = Some (sample_point sample_host 1 70 0 0) ∧
  within_closed (lit (8 # 10)) (lit 1)
    (Color.b (Point.color (sample_point sample_host 1 70 0 0))).
Proof.
  assert (Hl : (generateSampleData sample_host 1 0).1 !! 0
               = Some (sample_point sample_host 1 70 0 0))
    by (vm_compute; reflexivity).
  split; [exact sample_host_ok|]. split; [exact Hl|].
  exact (proj1 (proj2 (proj2
           (sample_bands sample_host 1 0 0 _ sample_host_ok Hl)))).
Defined.

(** C5, as stated, fails for the draw 1 - 2^-53, the largest binary64 value
    below 1: [0.5 + u * 0.5] and [0.8 + u * 0.2] round to 1.0 and
    [1 + u * 2] rounds to 3, so that [g < 1.0], [b < 1.0] and [radius < 3]
    are false.  With every draw equal to it, each of the 70 points of slide
    1 has green and blue equal to 1.0. *)
Lemma upper_ends_are_reached :
  random_ok extreme_host ∧
  length (generateSampleData extreme_host 1 0).1 = 70 ∧
  Forall (λ p, Color.g (Point.color p) = Fin 1 ∧ Color.b (Point.color p) = Fin 1)
    (generateSampleData extreme_host 1 0).1 ∧
  radius_of (Math_random extreme_host 0) = Fin 3 ∧
  num_lt (Fin 1) (lit 1) = false ∧
  num_lt (Fin 3) (lit 3) = false.
Proof.
  split; [exact extreme_host_ok|].
  split; [vm_compute; reflexivity|].
  split; [|vm_compute; repeat split].
  vm_compute. repeat (constructor; [split; reflexivity|]). constructor.
Qed.

(** The kernel's binary64 unit computes the same values: for the literals
    0.8 and 0.2, for the largest draw, and for [0.8 + u * 0.2], [0.5 + u * 0.5]
    and [1 + u * 2] at that draw. *)
Example hardware_agrees :
  of_float 0x1.999999999999ap-1 = lit (8 # 10) ∧
  of_float 0x1.999999999999ap-3 = lit (2 # 10) ∧
  of_float 0x1.fffffffffffffp-1 = Fin largest_draw ∧
  of_float (0x1.999999999999ap-1 + 0x1.fffffffffffffp-1 * 0x1.999999999999ap-3)
  = Fin 1 ∧
  of_float (0.5 + 0x1.fffffffffffffp-1 * 0.5) = Fin 1 ∧
  of_float (1 + 0x1.fffffffffffffp-1 * 2) = Fin 3 ∧
  of_float (0x1.3333333333333p-2 + 0x1.fffffffffffffp-1 * 0x1.6666666666666p-1)
  = add (lit (3 # 10)) (mul (Fin largest_draw) (lit (7 # 10))).
Proof. vm_compute. repeat split. Qed.

(** A generator of 52 random bits returns 1 - 2^-52 at most; the blue channel
    is 1.0 already there. *)
Example blue_is_one_at_52_bits :
  add (lit (8 # 10)) (mul (Fin (1 - 2 ^ (-52))) (lit (2 # 10))) = Fin 1 ∧
  of_float (0x1.999999999999ap-1 + 0x1.ffffffffffffep-1 * 0x1.999999999999ap-3)
  = Fin 1.
Proof. vm_compute. split; reflexivity. Qed.

(** * Navigation: class lists *)

Lemma other_classes_add (sl : Slide.t) :
  other_classes (classList_add "active" sl) = other_classes sl.
Proof.
  unfold other_classes, classList_add. case_match; [done|]. simpl.
  rewrite filter_app. simpl. rewrite filter_cons_False by (by intros ?).
  by rewrite filter_nil, app_nil_r.
Qed.

Lemma other_classes_remove (sl : Slide.t) :
  other_classes (classList_remove "active" sl) = other_classes sl.
Proof.
  unfold other_classes, classList_remove. simpl.
  rewrite list_filter_filter. apply list_filter_iff. tauto.
Qed.

Lemma updateSlides_other_classes (s : State) :
  other_classes <$> slides (updateSlides s) = other_classes <$> slides s.
Proof.
  unfold updateSlides. simpl. rewrite fmap_imap.
  rewrite <- (imap_const other_classes). apply imap_ext.
  intros i sl _. simpl. case_match.
  - apply other_classes_add.
  - apply other_classes_remove.
Qed.

(** Navigation touches no class but [active]: after any sequence of
    [nextSlide] and [prevSlide] calls every slide has the classes other than
    [active] it had before, in the same order, and no slide is added or
    removed.  This holds for every index, [NaN] included. *)
Theorem navigation_keeps_other_classes (ds : list Advance) (s : State) :
  other_classes <$> slides (advances ds s) = other_classes <$> slides s.
Proof.
  revert s. induction ds as [|d ds IH]; intros s; [done|].
  unfold advances in *. simpl. rewrite IH.
  destruct d; unfold advance, nextSlide, prevSlide;
    by rewrite updateSlides_other_classes.
Qed.

Lemma classList_add_idemp (sl : Slide.t) :
  classList_add "active" (classList_add "active" sl) = classList_add "active" sl.
Proof.
  unfold classList_add at 1.
  by rewrite (is_active_add sl : classList_contains "active" _ = true).
Qed.

Lemma classList_remove_idemp (sl : Slide.t) :
  classList_remove "active" (classList_remove "active" sl)
  = classList_remove "active" sl.
Proof.
  unfold classList_remove. simpl. f_equal.
  rewrite list_filter_filter. apply list_filter_iff. tauto.
Qed.

(** A second [updateSlides] changes nothing: the class lists are already
    as the index says. *)
Theorem updateSlides_idempotent (s : State) :
  updateSlides (updateSlides s) = updateSlides s.
Proof.
  unfold updateSlides, set_slides. cbn [slides currentSlide]. f_equal.
  apply list_eq. intros i. rewrite !list_lookup_imap.
  destruct (slides s !! i) as [sl|]; [|done]. simpl. f_equal.
  case_match.
  - apply classList_add_idemp.
  - apply classList_remove_idemp.
Qed.

(** * Keys other than the arrows *)

Lemma reachable_keydown_listener (h : Host) (p : Page) (acts : list Action)
    (l : Listener) :
  l ∈ listening Document keydown (run acts (carousel_of h p)) →
  l = key_listener.
Proof.
  unfold listening. intros [[Ht Hy] Hl]%list_elem_of_filter.
  apply run_frame in Hl. unfold carousel_of in Hl.
  destruct (constructor_spec h p) as (s0 & E0 & _ & _ & _ & (extra & E & F) & _).
  rewrite E0 in Hl. simpl in Hl. rewrite E in Hl.
  apply elem_of_app in Hl as [Hl|Hl].
  - unfold nav_listeners in Hl.
    destruct (page_prev p && page_next p); simpl in Hl;
      repeat (apply elem_of_cons in Hl as [->|Hl]; [done|]);
      by apply elem_of_nil in Hl.
  - rewrite Forall_forall in F. destruct (F l Hl) as [_ N]. done.
Qed.

Lemma foldl_id {A : Type} (g : A → State → State) (l : list A) (s : State) :
  (∀ a t, a ∈ l → g a t = t) → foldl (λ acc a, g a acc) s l = s.
Proof.
  revert s. induction l as [|a l IH]; intros s Hg; [done|]. simpl.
  rewrite Hg by left. apply IH. intros b t Hb. apply Hg. by right.
Qed.

(** In every state the constructed carousel reaches, a key-down event whose
    key is neither [ArrowLeft] nor [ArrowRight] changes nothing. *)
Theorem other_keys_are_ignored (h : Host) (p : Page) (acts : list Action)
    (e : Event) :
  key e ≠ "ArrowLeft" → key e ≠ "ArrowRight" →
  dispatchEvent Document keydown e (run acts (carousel_of h p))
  = run acts (carousel_of h p).
Proof.
  intros HL HR. rewrite dispatchEvent_listening.
  apply (foldl_id (λ l acc, run_handler (l_handler l) e acc)).
  intros l t ->%reachable_keydown_listener. simpl.
  by rewrite !bool_decide_eq_false_2.
Qed.

Lemma other_keys_are_ignored_witness :
  dispatchEvent Document keydown (event_with_key "Enter")
    (run [CallNextSlide] plain_carousel)
  = run [CallNextSlide] plain_carousel.
Proof.
  apply (other_keys_are_ignored sample_host (example_page true true ∅ false)
           [CallNextSlide] (event_with_key "Enter")); discriminate.
Defined.

(** * Navigation and the visualizations *)

Lemma set_nav_callback (cb : Callback) (v : list Slide.t) (c : intnum) (s : State) :
  run_callback cb (set_slides v (set_currentSlide c s))
  = set_slides v (set_currentSlide c (run_callback cb s)).
Proof.
  destruct cb; simpl; unfold draw, animate, requestAnimationFrame; simpl;
    repeat case_match; reflexivity.
Qed.

Lemma set_nav_callbacks (l : list (Z * Callback)) (v : list Slide.t) (c : intnum)
    (s : State) :
  foldl (λ acc p, run_callback p.2 acc) (set_slides v (set_currentSlide c s)) l
  = set_slides v (set_currentSlide c (foldl (λ acc p, run_callback p.2 acc) s l)).
Proof.
  revert s. induction l as [|x l IH]; intros s; [done|]. simpl.
  by rewrite set_nav_callback, IH.
Qed.

Lemma advance_nav (d : Advance) (s : State) :
  ∃ v c,
    (∀ t, slides t = slides s → currentSlide t = currentSlide s →
          advance d t = set_slides v (set_currentSlide c t)).
Proof.
  destruct d; unfold advance, nextSlide, prevSlide, updateSlides, slides_length;
    eexists _, _; intros t Hs Hc; cbn [slides currentSlide set_currentSlide];
    rewrite Hs, Hc; destruct t; reflexivity.
Qed.

Lemma animation_frame_nav (s : State) :
  slides (animation_frame s) = slides s ∧
  currentSlide (animation_frame s) = currentSlide s.
Proof.
  unfold animation_frame. split.
  - rewrite (foldl_preserves slides (λ p acc, run_callback p.2 acc)); [done|].
    intros [? []] ?; simpl; unfold draw, animate, requestAnimationFrame;
      repeat case_match; reflexivity.
  - rewrite (foldl_preserves currentSlide (λ p acc, run_callback p.2 acc)); [done|].
    intros [? []] ?; simpl; unfold draw, animate, requestAnimationFrame;
      repeat case_match; reflexivity.
Qed.

(** Navigation and animation do not interfere: a call of [nextSlide] or
    [prevSlide] and an animation frame commute, and the call leaves the
    listeners, the pending callbacks, the visualizations, the plots, the
    containers and the random source as they are. *)
Theorem navigation_commutes_with_frame (d : Advance) (s : State) :
  advance d (animation_frame s) = animation_frame (advance d s) ∧
  listeners (advance d s) = listeners s ∧
  raf_callbacks (advance d s) = raf_callbacks s ∧
  raf_handle (advance d s) = raf_handle s ∧
  vizs (advance d s) = vizs s ∧
  scatterplots (advance d s) = scatterplots s ∧
  containers (advance d s) = containers s ∧
  draws (advance d s) = draws s.
Proof.
  split; [|by destruct d].
  destruct (advance_nav d s) as (v & c & H).
  destruct (animation_frame_nav s) as [Hs Hc].
  rewrite (H (animation_frame s) Hs Hc), (H s eq_refl eq_refl).
  unfold animation_frame.
  change (raf_callbacks (set_slides v (set_currentSlide c s)))
    with (raf_callbacks s).
  rewrite <- set_nav_callbacks. reflexivity.
Qed.

(** * What the constructor builds *)

Lemma add_listener_new (l : Listener) (s : State) :
  l ∉ listeners s → add_listener l s = set_listeners (listeners s ++ [l]) s.
Proof. intros H. unfold add_listener. by rewrite bool_decide_eq_false_2. Qed.

Lemma State_eq (s t : State) :
  slides s = slides t → prevBtn s = prevBtn t → nextBtn s = nextBtn t →
  containers s = containers t → THREE_defined s = THREE_defined t →
  listeners s = listeners t → raf_handle s = raf_handle t →
  raf_callbacks s = raf_callbacks t → draws s = draws t → vizs s = vizs t →
  currentSlide s = currentSlide t → scatterplots s = scatterplots t →
  keyboardHandler s = keyboardHandler t → s = t.
Proof. destruct s, t; simpl; intros; by subst. Qed.

Lemma draw_set_viz (i : Z) (c : CanvasViz) (s : State) :
  draw i (set_viz i (VCanvas c) s)
  = set_raf (raf_handle s + 1)
      (raf_callbacks s ++ [((raf_handle s + 1)%Z, Draw i)])
      (set_viz i
         (VCanvas
            {| cv_container := cv_container c; cv_width := cv_width c;
               cv_height := cv_height c; cv_points := cv_points c;
               cv_rotation := add (cv_rotation c) (lit (1 # 100));
               cv_animationId := Some (raf_handle s + 1)%Z |}) s).
Proof.
  unfold draw, requestAnimationFrame, set_viz, set_vizs, set_raf.
  cbn [vizs]. rewrite lookup_insert_eq.
  cbn [vizs raf_handle raf_callbacks slides prevBtn nextBtn containers
       THREE_defined listeners draws currentSlide scatterplots keyboardHandler].
  rewrite insert_insert_eq. reflexivity.
Qed.

Lemma animate_set_viz (i : Z) (v : SceneViz) (s : State) :
  animate i (set_viz i (VScene v) s)
  = set_raf (raf_handle s + 1)
      (raf_callbacks s ++ [((raf_handle s + 1)%Z, Animate i)])
      (set_viz i
         (VScene
            {| sv_container := sv_container v; sv_aspect := sv_aspect v;
               sv_size := sv_size v; sv_points := sv_points v;
               sv_rotation_x := add (sv_rotation_x v) (lit (2 # 1000));
               sv_rotation_y := add (sv_rotation_y v) (lit (3 # 1000));
               sv_animationId := Some (raf_handle s + 1)%Z;
               sv_isDragging := sv_isDragging v;
               sv_previousMousePosition := sv_previousMousePosition v |}) s).
Proof.
  unfold animate, requestAnimationFrame, set_viz, set_vizs, set_raf.
  cbn [vizs]. rewrite lookup_insert_eq.
  cbn [vizs raf_handle raf_callbacks slides prevBtn nextBtn containers
       THREE_defined listeners draws currentSlide scatterplots keyboardHandler].
  rewrite insert_insert_eq. reflexivity.
Qed.

Lemma add_listeners_new (ls : list Listener) (s : State) :
  NoDup ls → (∀ l, l ∈ ls → l ∉ listeners s) →
  foldl (λ acc l, add_listener l acc) s ls = set_listeners (listeners s ++ ls) s.
Proof.
  revert s. induction ls as [|l ls IH]; intros s Hnd Hf.
  { simpl. rewrite app_nil_r. by destruct s. }
  apply NoDup_cons in Hnd as [Hl Hnd]. simpl.
  rewrite add_listener_new by (apply Hf; left).
  rewrite IH; [|exact Hnd|].
  - cbn [listeners set_listeners]. rewrite <- app_assoc. by destruct s.
  - intros l' Hl'. cbn [listeners set_listeners].
    intros [?|E%list_elem_of_singleton]%elem_of_app; [|by subst].
    eapply Hf; [right; exact Hl'|done].
Qed.

Lemma plot_listeners_NoDup (three : bool) (i : Z) : NoDup (plot_listeners three i).
Proof.
  destruct three; unfold plot_listeners;
    repeat (apply NoDup_cons; split;
            [rewrite ?elem_of_cons, elem_of_nil; intros H;
             repeat destruct H as [H|H]; done|]);
    apply NoDup_nil_2.
Qed.

Lemma initScatterplot_absent (h : Host) (i : Z) (s : State) :
  containers s !! i = None → initScatterplot h i s = Ok tt s.
Proof.
  intros E. unfold initScatterplot. rewrite bind_gets.
  unfold getElementById. by rewrite E.
Qed.

Lemma initScatterplot_present (h : Host) (i : Z) (s : State) (ct : Container.t) :
  containers s !! i = Some ct →
  (∀ l, l ∈ plot_listeners (THREE_defined s) i → l ∉ listeners s) →
  initScatterplot h i s = Ok tt (mount h i s).
Proof.
  intros E Hfresh. unfold mount. rewrite E. unfold initScatterplot. rewrite bind_gets.
  unfold getElementById. rewrite E. cbn [truthy]. rewrite bind_gets.
  unfold mbind at 1, M_bind at 1.
  destruct (THREE_defined s) eqn:T.
  - unfold createScatterplot.
    rewrite bind_deref_Some, (bind_container_of _ _ _ _ E).
    rewrite bind_modify. unfold appendChild. rewrite E.
    rewrite bind_sampleData, !bind_modify, !bind_addEventListener, bind_gets.
    cbn [draws set_containers].
    rewrite (f_equal snd (generateSampleData_points h i (draws s)) :
               (generateSampleData h i (draws s)).2 = _).
    cbn [snd].
    set (pts := (generateSampleData h i (draws s)).1).
    set (n7 := 7 * Z.to_nat (numPoints i)).
    set (s1 := set_draws _ _).
    rewrite animate_set_viz.
    set (s3 := set_raf _ _ _).
    match goal with
    | |- context [add_listener ?l5 (add_listener ?l4 (add_listener ?l3
                    (add_listener ?l2 (add_listener ?l1 s3))))] =>
        change (add_listener l5 (add_listener l4 (add_listener l3
                  (add_listener l2 (add_listener l1 s3)))))
          with (foldl (λ acc l, add_listener l acc) s3 (plot_listeners true i))
    end.
    rewrite add_listeners_new; [|apply plot_listeners_NoDup|exact Hfresh].
    assert (∀ ls, closure_animationId i (set_listeners ls s3)
                  = Some (raf_handle s + 1)%Z) as Hid.
    { intros ls. unfold closure_animationId, s3.
      cbn [vizs set_listeners set_raf set_viz set_vizs]. by rewrite lookup_insert_eq. }
    rewrite Hid.
    unfold mret, M_ret, modify. f_equal.
    apply State_eq; unfold s3, s1;
    cbn [vizs raf_handle raf_callbacks slides prevBtn nextBtn containers
       THREE_defined listeners draws currentSlide scatterplots keyboardHandler
       set_scatterplots set_listeners set_raf set_viz set_vizs set_draws set_containers
       sv_container sv_aspect sv_size sv_points sv_rotation_x sv_rotation_y
       sv_animationId sv_isDragging sv_previousMousePosition];
    rewrite ?T; reflexivity.
  - unfold createCanvasPlaceholder.
    rewrite bind_deref_Some, (bind_container_of _ _ _ _ E).
    rewrite bind_modify. unfold appendChild. rewrite E.
    rewrite bind_sampleData, !bind_modify, bind_addEventListener, bind_gets.
    cbn [draws set_containers].
    rewrite (f_equal snd (generateSampleData_points h i (draws s)) :
               (generateSampleData h i (draws s)).2 = _).
    cbn [snd].
    set (pts := (generateSampleData h i (draws s)).1).
    set (n7 := 7 * Z.to_nat (numPoints i)).
    set (s1 := set_draws _ _).
    rewrite draw_set_viz.
    rewrite add_listener_new by (apply Hfresh; left).
    set (s3 := set_raf _ _ _).
    assert (∀ ls, closure_animationId i (set_listeners ls s3)
                  = Some (raf_handle s + 1)%Z) as ->.
    { intros ls. unfold closure_animationId, s3.
      cbn [vizs set_listeners set_raf set_viz set_vizs]. by rewrite lookup_insert_eq. }
    unfold mret, M_ret, modify. f_equal.
    apply State_eq; unfold s3, s1;
    cbn [vizs raf_handle raf_callbacks slides prevBtn nextBtn containers
       THREE_defined listeners draws currentSlide scatterplots keyboardHandler
       set_scatterplots set_listeners set_raf set_viz set_vizs set_draws set_containers
       cv_container cv_width cv_height cv_points cv_rotation cv_animationId];
    rewrite ?T; reflexivity.
Qed.

Lemma plot_listeners_slide (three : bool) (i : Z) (l : Listener) :
  l ∈ plot_listeners three i → slide_of (l_handler l) = Some i.
Proof.
  destruct three; unfold plot_listeners; rewrite ?elem_of_cons, elem_of_nil;
    intros H; repeat destruct H as [H|H]; by subst.
Qed.

Lemma initScatterplot_mount (h : Host) (i : Z) (s : State) :
  (∀ l, l ∈ listeners s → slide_of (l_handler l) ≠ Some i) →
  initScatterplot h i s = Ok tt (mount h i s).
Proof.
  intros Hf. destruct (containers s !! i) as [ct|] eqn:E.
  - apply (initScatterplot_present h i s ct E).
    intros l Hl Hin. by apply (Hf l Hin), (plot_listeners_slide (THREE_defined s)).
  - unfold mount. rewrite E. by apply initScatterplot_absent.
Qed.

Lemma mount_listeners (h : Host) (i : Z) (s : State) :
  listeners (mount h i s)
  = listeners s
    ++ match containers s !! i with
       | Some _ => plot_listeners (THREE_defined s) i
       | None => []
       end.
Proof. unfold mount. destruct (containers s !! i); [done|]. by rewrite app_nil_r. Qed.

Lemma mount_fresh (h : Host) (i j : Z) (s : State) :
  i ≠ j →
  (∀ l, l ∈ listeners s → slide_of (l_handler l) ≠ Some j) →
  ∀ l, l ∈ listeners (mount h i s) → slide_of (l_handler l) ≠ Some j.
Proof.
  intros Hij Hf l. rewrite mount_listeners.
  intros [Hl|Hl]%elem_of_app; [by apply Hf|].
  destruct (containers s !! i); [|by apply elem_of_nil in Hl].
  rewrite (plot_listeners_slide _ _ _ Hl). congruence.
Qed.

Lemma nav_state_fresh (p : Page) (l : Listener) :
  l ∈ listeners (nav_state p) → slide_of (l_handler l) = None.
Proof.
  unfold nav_state, nav_listeners. cbn [listeners].
  destruct (page_prev p && page_next p); simpl;
    rewrite ?elem_of_cons, elem_of_nil; intros H;
    repeat destruct H as [H|H]; by subst.
Qed.

Lemma constructor_nav (h : Host) (p : Page) :
  FeaturedWorkCarousel h p = initScatterplots h (nav_state p).
Proof.
  unfold FeaturedWorkCarousel, init, nav_state, nav_listeners.
  by destruct (page_prev p), (page_next p).
Qed.

(** The constructor runs the loop body for the ordinals 1, 2 and 3. *)
Lemma constructor_mount (h : Host) (p : Page) :
  FeaturedWorkCarousel h p
  = Ok tt (mount h 3 (mount h 2 (mount h 1 (nav_state p)))).
Proof.
  rewrite constructor_nav. unfold initScatterplots.
  assert (F0 : ∀ j l, l ∈ listeners (nav_state p) →
                 slide_of (l_handler l) ≠ Some j).
  { intros j l Hl. by rewrite (nav_state_fresh p l Hl). }
  unfold mbind, M_bind.
  rewrite initScatterplot_mount by apply F0.
  rewrite initScatterplot_mount by (apply mount_fresh; [done|apply F0]).
  rewrite initScatterplot_mount; [done|].
  apply mount_fresh; [done|]. apply mount_fresh; [done|apply F0].
Qed.

Lemma construct_at_start (h : Host) (p : Page) :
  FeaturedWorkCarousel h p = construct_at h p 0 0.
Proof. reflexivity. Qed.

Lemma construct_at_nav (h : Host) (p : Page) (handle : Z) (k : nat) :
  construct_at h p handle k = initScatterplots h (nav_state_at p handle k).
Proof.
  unfold construct_at, loaded_page, init, nav_state_at, nav_listeners.
  by destruct (page_prev p), (page_next p).
Qed.

Lemma construct_at_mount (h : Host) (p : Page) (handle : Z) (k : nat) :
  construct_at h p handle k
  = Ok tt (mount h 3 (mount h 2 (mount h 1 (nav_state_at p handle k)))).
Proof.
  rewrite construct_at_nav. unfold initScatterplots.
  assert (F0 : ∀ j l, l ∈ listeners (nav_state_at p handle k) →
                 slide_of (l_handler l) ≠ Some j).
  { intros j l Hl.
    by rewrite (nav_state_fresh p l (Hl : l ∈ listeners (nav_state p))). }
  unfold mbind, M_bind.
  rewrite initScatterplot_mount by apply F0.
  rewrite initScatterplot_mount by (apply mount_fresh; [done|apply F0]).
  rewrite initScatterplot_mount; [done|].
  apply mount_fresh; [done|]. apply mount_fresh; [done|apply F0].
Qed.

Lemma mount_frame (h : Host) (i : Z) (s : State) :
  slides (mount h i s) = slides s ∧
  prevBtn (mount h i s) = prevBtn s ∧ nextBtn (mount h i s) = nextBtn s ∧
  THREE_defined (mount h i s) = THREE_defined s ∧
  currentSlide (mount h i s) = currentSlide s ∧
  keyboardHandler (mount h i s) = keyboardHandler s.
Proof. unfold mount. by destruct (containers s !! i). Qed.

Lemma mount_other (h : Host) (i j : Z) (s : State) :
  i ≠ j →
  containers (mount h i s) !! j = containers s !! j ∧
  vizs (mount h i s) !! j = vizs s !! j ∧
  scatterplots (mount h i s) !! j = scatterplots s !! j.
Proof.
  intros Hij. unfold mount. destruct (containers s !! i); [|done].
  cbn [containers vizs scatterplots]. by rewrite !lookup_insert_ne.
Qed.

Lemma mount_at (h : Host) (i : Z) (s : State) (ct : Container.t) :
  containers s !! i = Some ct →
  containers (mount h i s) !! i
  = Some (with_child (plot_child (THREE_defined s)) ct) ∧
  vizs (mount h i s) !! i
  = Some (first_viz (THREE_defined s) i ct
            (generateSampleData h i (draws s)).1 (raf_handle s + 1)) ∧
  scatterplots (mount h i s) !! i
  = Some (first_plot (THREE_defined s) i (raf_handle s + 1)).
Proof.
  intros E. unfold mount. rewrite E.
  cbn [containers vizs scatterplots]. by rewrite !lookup_insert_eq.
Qed.

Lemma mount_requests (h : Host) (i : Z) (s : State) :
  raf_handle (mount h i s)
  = (raf_handle s + match containers s !! i with Some _ => 1 | None => 0 end)%Z ∧
  raf_callbacks (mount h i s)
  = raf_callbacks s
    ++ match containers s !! i with
       | Some _ => [((raf_handle s + 1)%Z, plot_callback (THREE_defined s) i)]
       | None => []
       end ∧
  draws (mount h i s)
  = draws s
    + match containers s !! i with
      | Some _ => 7 * Z.to_nat (numPoints i)
      | None => 0
      end.
Proof.
  unfold mount. destruct (containers s !! i); [done|].
  by rewrite Z.add_0_r, app_nil_r, Nat.add_0_r.
Qed.

Lemma constructor_state (h : Host) (p : Page) :
  carousel_of h p = mount h 3 (mount h 2 (mount h 1 (nav_state p))).
Proof. unfold carousel_of. by rewrite constructor_mount. Qed.

Lemma bind_present {A : Type} (p : Page) (f : Z → list A) :
  present p ≫= f
  = match page_containers p !! 1%Z with Some _ => f 1%Z | None => [] end
    ++ match page_containers p !! 2%Z with Some _ => f 2%Z | None => [] end
    ++ match page_containers p !! 3%Z with Some _ => f 3%Z | None => [] end.
Proof.
  unfold present. rewrite !filter_cons, filter_nil.
  destruct (page_containers p !! 1%Z), (page_containers p !! 2%Z),
    (page_containers p !! 3%Z); simpl; by rewrite ?app_nil_r.
Qed.

Lemma mounts_listeners (h : Host) (s : State) :
  listeners (mount h 3 (mount h 2 (mount h 1 s)))
  = listeners s
    ++ match containers s !! 1%Z with
       | Some _ => plot_listeners (THREE_defined s) 1
       | None => []
       end
    ++ match containers s !! 2%Z with
       | Some _ => plot_listeners (THREE_defined s) 2
       | None => []
       end
    ++ match containers s !! 3%Z with
       | Some _ => plot_listeners (THREE_defined s) 3
       | None => []
       end.
Proof.
  rewrite !mount_listeners.
  destruct (mount_frame h 2 (mount h 1 s)) as (_ & _ & _ & -> & _).
  destruct (mount_frame h 1 s) as (_ & _ & _ & -> & _).
  destruct (mount_other h 2 3 (mount h 1 s)) as (-> & _); [done|].
  destruct (mount_other h 1 3 s) as (-> & _); [done|].
  destruct (mount_other h 1 2 s) as (-> & _); [done|].
  by rewrite <- !app_assoc.
Qed.

Lemma mounts_requests (h : Host) (s : State) :
  raf_handle (mount h 3 (mount h 2 (mount h 1 s)))
  = (raf_handle s
     + match containers s !! 1%Z with Some _ => 1 | None => 0 end
     + match containers s !! 2%Z with Some _ => 1 | None => 0 end
     + match containers s !! 3%Z with Some _ => 1 | None => 0 end)%Z ∧
  raf_callbacks (mount h 3 (mount h 2 (mount h 1 s)))
  = raf_callbacks s
    ++ match containers s !! 1%Z with
       | Some _ => [((raf_handle s + 1)%Z, plot_callback (THREE_defined s) 1)]
       | None => []
       end
    ++ match containers s !! 2%Z with
       | Some _ =>
           [((raf_handle s
              + match containers s !! 1%Z with Some _ => 1 | None => 0 end
              + 1)%Z, plot_callback (THREE_defined s) 2)]
       | None => []
       end
    ++ match containers s !! 3%Z with
       | Some _ =>
           [((raf_handle s
              + match containers s !! 1%Z with Some _ => 1 | None => 0 end
              + match containers s !! 2%Z with Some _ => 1 | None => 0 end
              + 1)%Z, plot_callback (THREE_defined s) 3)]
       | None => []
       end.
Proof.
  destruct (mount_requests h 3 (mount h 2 (mount h 1 s))) as (-> & -> & _).
  destruct (mount_requests h 2 (mount h 1 s)) as (-> & -> & _).
  destruct (mount_requests h 1 s) as (-> & -> & _).
  destruct (mount_frame h 2 (mount h 1 s)) as (_ & _ & _ & -> & _).
  destruct (mount_frame h 1 s) as (_ & _ & _ & -> & _).
  destruct (mount_other h 2 3 (mount h 1 s)) as (-> & _); [done|].
  destruct (mount_other h 1 3 s) as (-> & _); [done|].
  destruct (mount_other h 1 2 s) as (-> & _); [done|].
  by rewrite <- !app_assoc.
Qed.

(** The listeners the constructor leaves, in the order of registration:
    those of the navigation, then those of each visualization. *)
Theorem constructor_listeners (h : Host) (p : Page) :
  listeners (carousel_of h p)
  = nav_listeners p ++ (present p ≫= plot_listeners (page_THREE p)).
Proof.
  rewrite constructor_state, mounts_listeners, bind_present. reflexivity.
Qed.

Lemma present_cases (p : Page) :
  present p
  = match page_containers p !! 1%Z with Some _ => [1%Z] | None => [] end
    ++ match page_containers p !! 2%Z with Some _ => [2%Z] | None => [] end
    ++ match page_containers p !! 3%Z with Some _ => [3%Z] | None => [] end.
Proof.
  unfold present. rewrite !filter_cons, filter_nil.
  by destruct (page_containers p !! 1%Z), (page_containers p !! 2%Z),
    (page_containers p !! 3%Z).
Qed.

(** The visualization the constructor builds for an ordinal whose container
    is on the page, whatever animation handles the browser gave out and
    whatever draws [Math.random] made before: the handle stored is the
    browser's counter plus the number of existing containers with an ordinal
    up to [i], and the points come from the draws that follow those of the
    earlier visualizations. *)
Theorem constructor_visualization (h : Host) (p : Page) (handle : Z) (k : nat)
    (i : Z) (ct : Container.t) :
  ordinal i →
  page_containers p !! i = Some ct →
  FeaturedWorkCarousel h p = construct_at h p 0 0 ∧
  vizs (state_of (construct_at h p handle k)) !! i
  = Some (first_viz (page_THREE p) i ct
            (generateSampleData h i (k + draws_before p i)).1
            (handle + rank p i)) ∧
  scatterplots (state_of (construct_at h p handle k)) !! i
  = Some (first_plot (page_THREE p) i (handle + rank p i)) ∧
  containers (state_of (construct_at h p handle k)) !! i
  = Some (with_child (plot_child (page_THREE p)) ct).
Proof.
  intros Hi E. split; [reflexivity|]. rewrite construct_at_mount. cbn [state_of].
  assert (C0 : containers (nav_state_at p handle k) = page_containers p) by done.
  assert (T0 : THREE_defined (nav_state_at p handle k) = page_THREE p) by done.
  assert (R0 : raf_handle (nav_state_at p handle k) = handle) by done.
  assert (D0 : draws (nav_state_at p handle k) = k) by done.
  generalize dependent (nav_state_at p handle k). intros s0 C0 T0 R0 D0.
  destruct (mount_frame h 1 s0) as (_ & _ & _ & T1 & _).
  destruct (mount_frame h 2 (mount h 1 s0)) as (_ & _ & _ & T2 & _).
  rewrite T1 in T2. rewrite T0 in T1, T2.
  destruct (mount_requests h 1 s0) as (H1 & _ & D1).
  destruct (mount_requests h 2 (mount h 1 s0)) as (H2 & _ & D2).
  destruct (mount_other h 1 2 s0) as (C12 & _); [done|].
  destruct (mount_other h 1 3 s0) as (C13 & _); [done|].
  destruct (mount_other h 2 3 (mount h 1 s0)) as (C23 & _); [done|].
  rewrite C12 in H2, D2. rewrite H1 in H2. rewrite D1 in D2.
  rewrite C0, ?R0, ?D0 in *.
  unfold rank, draws_before. rewrite present_cases.
  destruct Hi as [-> | [-> | ->]].
  - destruct (mount_other h 3 1 (mount h 2 (mount h 1 s0))) as (-> & -> & ->); [done|].
    destruct (mount_other h 2 1 (mount h 1 s0)) as (-> & -> & ->); [done|].
    rewrite <- C0 in E.
    destruct (mount_at h 1 s0 ct E) as (-> & -> & ->).
    rewrite C0 in E. rewrite E, T0, R0, D0.
    destruct (page_containers p !! 2%Z), (page_containers p !! 3%Z);
      (split; [|split; [|done]]);
      repeat (match goal with
              | |- Some _ = Some _ => f_equal
              | |- first_viz _ _ _ _ _ = _ => f_equal
              | |- first_plot _ _ _ = _ => f_equal
              | |- fst _ = fst _ => f_equal
              | |- generateSampleData _ _ _ = _ => f_equal
              end);
      simpl; lia.
  - destruct (mount_other h 3 2 (mount h 2 (mount h 1 s0))) as (-> & -> & ->); [done|].
    rewrite <- C12 in E.
    destruct (mount_at h 2 (mount h 1 s0) ct E) as (-> & -> & ->).
    rewrite C12 in E. rewrite E, T1, H1, D1.
    destruct (page_containers p !! 1%Z), (page_containers p !! 3%Z);
      (split; [|split; [|done]]);
      repeat (match goal with
              | |- Some _ = Some _ => f_equal
              | |- first_viz _ _ _ _ _ = _ => f_equal
              | |- first_plot _ _ _ = _ => f_equal
              | |- fst _ = fst _ => f_equal
              | |- generateSampleData _ _ _ = _ => f_equal
              end);
      simpl; lia.
  - rewrite <- C13, <- C23 in E.
    destruct (mount_at h 3 (mount h 2 (mount h 1 s0)) ct E) as (-> & -> & ->).
    rewrite C23, C13 in E. rewrite E, T2, H2, D2.
    destruct (page_containers p !! 1%Z), (page_containers p !! 2%Z);
      (split; [|split; [|done]]);
      repeat (match goal with
              | |- Some _ = Some _ => f_equal
              | |- first_viz _ _ _ _ _ = _ => f_equal
              | |- first_plot _ _ _ = _ => f_equal
              | |- fst _ = fst _ => f_equal
              | |- generateSampleData _ _ _ = _ => f_equal
              end);
      simpl; lia.
Qed.

Lemma constructor_visualization_witness :
  rank page_1_3 3 = 2%Z ∧ draws_before page_1_3 3 = 490 ∧
  vizs (state_of (construct_at sample_host page_1_3 10 5)) !! 3%Z
  = Some (first_viz false 3 (box 300 150)
            (generateSampleData sample_host 3 (5 + draws_before page_1_3 3)).1
            (10 + rank page_1_3 3)) ∧
  scatterplots (state_of (construct_at sample_host page_1_3 10 5)) !! 3%Z
  = Some (first_plot false 3 (10 + rank page_1_3 3)).
Proof.
  split; [reflexivity|]. split; [reflexivity|].
  destruct (constructor_visualization sample_host page_1_3 10 5 3 (box 300 150))
    as (_ & Hv & Hp & _).
  - by do 2 right.
  - reflexivity.
  - split; [exact Hv|exact Hp].
Defined.

Lemma mount_handle_le (h : Host) (i : Z) (s : State) :
  (raf_handle s ≤ raf_handle (mount h i s))%Z.
Proof.
  destruct (mount_requests h i s) as (-> & _).
  destruct (containers s !! i); lia.
Qed.

(** Every ordinal whose container is on the page has a visualization of the
    page's strategy, a plot holding the handle of its first frame request,
    and one more child in its container. *)
Lemma constructor_mounted (h : Host) (p : Page) (i : Z) (ct : Container.t) :
  ordinal i →
  page_containers p !! i = Some ct →
  ∃ points handle,
    vizs (carousel_of h p) !! i
    = Some (first_viz (page_THREE p) i ct points handle) ∧
    scatterplots (carousel_of h p) !! i
    = Some (first_plot (page_THREE p) i handle) ∧
    containers (carousel_of h p) !! i
    = Some (with_child (plot_child (page_THREE p)) ct) ∧
    (0 < handle ≤ raf_handle (carousel_of h p))%Z.
Proof.
  intros Hi E. rewrite constructor_state.
  assert (C0 : containers (nav_state p) = page_containers p) by done.
  assert (T0 : THREE_defined (nav_state p) = page_THREE p) by done.
  assert (R0 : raf_handle (nav_state p) = 0%Z) by done.
  generalize dependent (nav_state p). intros s0 C0 T0 R0.
  destruct (mount_frame h 1 s0) as (_ & _ & _ & T1 & _).
  destruct (mount_frame h 2 (mount h 1 s0)) as (_ & _ & _ & T2 & _).
  rewrite T1 in T2. rewrite T0 in T1, T2.
  pose proof (mount_handle_le h 1 s0) as L1.
  pose proof (mount_handle_le h 2 (mount h 1 s0)) as L2.
  pose proof (mount_handle_le h 3 (mount h 2 (mount h 1 s0))) as L3.
  destruct (mount_other h 1 2 s0) as (C12 & _); [done|].
  destruct (mount_other h 1 3 s0) as (C13 & _); [done|].
  destruct (mount_other h 2 3 (mount h 1 s0)) as (C23 & _); [done|].
  rewrite <- C0 in E.
  destruct Hi as [-> | [-> | ->]].
  - destruct (mount_other h 3 1 (mount h 2 (mount h 1 s0))) as (-> & -> & ->); [done|].
    destruct (mount_other h 2 1 (mount h 1 s0)) as (-> & -> & ->); [done|].
    destruct (mount_at h 1 s0 ct E) as (-> & -> & ->).
    destruct (mount_requests h 1 s0) as (H1 & _). rewrite E in H1.
    rewrite T0. eexists _, _. repeat split; lia.
  - destruct (mount_other h 3 2 (mount h 2 (mount h 1 s0))) as (-> & -> & ->); [done|].
    rewrite <- C12 in E.
    destruct (mount_at h 2 (mount h 1 s0) ct E) as (-> & -> & ->).
    destruct (mount_requests h 2 (mount h 1 s0)) as (H2 & _). rewrite E in H2.
    rewrite T1. eexists _, _. repeat split; lia.
  - rewrite <- C13, <- C23 in E.
    destruct (mount_at h 3 (mount h 2 (mount h 1 s0)) ct E) as (-> & -> & ->).
    destruct (mount_requests h 3 (mount h 2 (mount h 1 s0))) as (H3 & _).
    rewrite E in H3.
    rewrite T2. eexists _, _. repeat split; lia.
Qed.

Lemma elem_of_present (p : Page) (i : Z) :
  i ∈ present p ↔ ordinal i ∧ is_Some (page_containers p !! i).
Proof.
  unfold present, ordinal. rewrite list_elem_of_filter, !elem_of_cons, elem_of_nil.
  tauto.
Qed.

Lemma constructor_callbacks (h : Host) (p : Page) :
  (raf_callbacks (carousel_of h p)).*2
  = plot_callback (page_THREE p) <$> present p.
Proof.
  rewrite constructor_state.
  destruct (mounts_requests h (nav_state p)) as (_ & ->).
  rewrite present_cases. cbn [nav_state containers raf_callbacks THREE_defined].
  by destruct (page_containers p !! 1%Z), (page_containers p !! 2%Z),
    (page_containers p !! 3%Z).
Qed.

Lemma constructor_live (h : Host) (p : Page) (x : Z * Callback) :
  x ∈ raf_callbacks (carousel_of h p) → live (carousel_of h p) x.2.
Proof.
  intros Hx. apply list_elem_of_fmap_2 with (f := snd) in Hx.
  rewrite constructor_callbacks in Hx.
  apply list_elem_of_fmap in Hx as (i & -> & [Hi [ct Hc]]%elem_of_present).
  destruct (constructor_mounted h p i ct Hi Hc) as (pts & hdl & Hv & _).
  unfold plot_callback, first_viz in *.
  destruct (page_THREE p); simpl; eauto.
Qed.

(** * What [destroy] removes *)

Lemma filter_all {A : Type} (P : A → Prop) `{∀ a, Decision (P a)} (l : list A) :
  (∀ a, a ∈ l → P a) → filter P l = l.
Proof.
  induction l as [|a l IH]; intros Hl; [done|].
  rewrite filter_cons_True by (apply Hl; left).
  rewrite IH; [done|]. intros b Hb. apply Hl. by right.
Qed.

Lemma destroy_plot_filter (plot : Plot) (s : State) :
  destroy_plot plot s
  = set_raf (raf_handle s)
      (filter (λ x, ¬ cancelled [plot] x) (raf_callbacks s))
      (set_listeners
         (filter (λ l, ¬ unbound None [plot] l) (listeners s)) s).
Proof.
  assert (Hc : ∀ x, ¬ cancelled [plot] x ↔
                    ¬ (truthy_id (plot_animationId plot) = true ∧
                       plot_animationId plot = Some x.1)).
  { intros x. unfold cancelled. rewrite Exists_cons, Exists_nil. tauto. }
  assert (Hu : ∀ l, ¬ unbound None [plot] l ↔
                    ¬ (l_target l = Window ∧ l_type l = resize ∧
                       plot_handleResize plot = Some (l_handler l))).
  { intros l. unfold unbound. rewrite Exists_cons, Exists_nil.
    split; [tauto|]. intros H [(_ & _ & [=])|?]. tauto. }
  rewrite (list_filter_iff _ _ _ Hc), (list_filter_iff _ _ _ Hu).
  unfold destroy_plot.
  assert (Hraf :
    raf_callbacks
      (if truthy_id (plot_animationId plot)
       then cancelAnimationFrame (default 0%Z (plot_animationId plot)) s
       else s)
    = filter (λ x, ¬ (truthy_id (plot_animationId plot) = true ∧
                      plot_animationId plot = Some x.1)) (raf_callbacks s)).
  { destruct (plot_animationId plot) as [n|]; simpl.
    - destruct (Z.eqb_spec n 0); simpl.
      + symmetry. apply filter_all. intros ? _ [[=] _].
      + apply list_filter_iff. intros [id cb]. simpl.
        split; [intros ? [_ [=]]; congruence|].
        intros H ->. by apply H.
    - symmetry. apply filter_all. intros ? _ [[=] _]. }
  assert (Hrest :
    (if truthy_id (plot_animationId plot)
     then cancelAnimationFrame (default 0%Z (plot_animationId plot)) s
     else s)
    = set_raf (raf_handle s)
        (filter (λ x, ¬ (truthy_id (plot_animationId plot) = true ∧
                         plot_animationId plot = Some x.1)) (raf_callbacks s)) s).
  { rewrite <- Hraf. unfold cancelAnimationFrame.
    destruct (truthy_id (plot_animationId plot)); by destruct s. }
  rewrite Hrest. destruct (plot_handleResize plot) as [hd|].
  - unfold removeEventListener. cbn [listeners set_raf].
    rewrite (list_filter_iff _
               (λ l, ¬ (l_target l = Window ∧ l_type l = resize ∧
                        Some hd = Some (l_handler l)))).
    + by destruct s.
    + intros [t ty hd']. simpl. split.
      * intros H (-> & -> & [= ->]). by apply H.
      * intros H [= -> -> ->]. by apply H.
  - rewrite (filter_all (λ l, ¬ (_ ∧ _ ∧ None = Some _))).
    + by destruct s.
    + intros ? _ (_ & _ & [=]).
Qed.

Lemma destroy_plots_filter (plots : list Plot) (s : State) :
  foldl (λ acc plot, destroy_plot plot acc) s plots
  = set_raf (raf_handle s)
      (filter (λ x, ¬ cancelled plots x) (raf_callbacks s))
      (set_listeners
         (filter (λ l, ¬ unbound None plots l) (listeners s)) s).
Proof.
  revert s. induction plots as [|plot plots IH]; intros s.
  { simpl. rewrite !filter_all; [by destruct s| |].
    - intros l _ [(_ & _ & [=])|(_ & _ & H)]. by apply Exists_nil in H.
    - intros x _ H. by apply Exists_nil in H. }
  simpl. rewrite IH, destroy_plot_filter.
  cbn [raf_handle raf_callbacks listeners set_raf set_listeners].
  rewrite !list_filter_filter.
  rewrite (list_filter_iff _ (λ x, ¬ cancelled (plot :: plots) x)).
  2:{ intros x. unfold cancelled. rewrite !Exists_cons, Exists_nil. tauto. }
  rewrite (list_filter_iff _ (λ l, ¬ unbound None (plot :: plots) l)).
  2:{ intros l. unfold unbound. rewrite !Exists_cons, Exists_nil. tauto. }
  by destruct s.
Qed.

(** [destroy] is two filters. *)
Lemma destroy_filter (s : State) :
  destroy s
  = set_raf (raf_handle s)
      (filter (λ x, ¬ cancelled (Object_values (scatterplots s)) x)
         (raf_callbacks s))
      (set_listeners
         (filter
            (λ l, ¬ unbound (keyboardHandler s) (Object_values (scatterplots s)) l)
            (listeners s)) s).
Proof.
  unfold destroy. destruct (keyboardHandler s) as [hd|] eqn:K.
  - rewrite destroy_plots_filter. unfold removeEventListener.
    cbn [raf_handle raf_callbacks listeners scatterplots set_listeners].
    rewrite list_filter_filter.
    rewrite (list_filter_iff _
               (λ l, ¬ unbound (Some hd) (Object_values (scatterplots s)) l)).
    + by destruct s.
    + intros [t ty hd']. unfold unbound. simpl. split.
      * intros [H2 H1] [(-> & -> & [= ->])|H3]; [by apply H1|].
        apply H2. by right.
      * intros H. split.
        -- intros [(_ & _ & [=])|H3]. apply H. by right.
        -- intros [= -> -> ->]. apply H. by left.
  - apply destroy_plots_filter.
Qed.

(** What [destroy] does, for any state: a listener stays exactly when it is
    neither the key-down listener of the stored handler nor a resize listener
    on [window] whose handler a plot holds; a pending animation callback
    stays exactly when no plot holds its handle; and nothing else changes:
    slides and index, the closures of the visualizations, the containers
    with their children, the [scatterplots] object and [keyboardHandler]
    themselves are as before. *)
Theorem destroy_removes_exactly (s : State) :
  (∀ l, l ∈ listeners (destroy s) ↔
        l ∈ listeners s ∧
        ¬ unbound (keyboardHandler s) (Object_values (scatterplots s)) l) ∧
  (∀ x, x ∈ raf_callbacks (destroy s) ↔
        x ∈ raf_callbacks s ∧ ¬ cancelled (Object_values (scatterplots s)) x) ∧
  slides (destroy s) = slides s ∧ currentSlide (destroy s) = currentSlide s ∧
  vizs (destroy s) = vizs s ∧ containers (destroy s) = containers s ∧
  scatterplots (destroy s) = scatterplots s ∧
  keyboardHandler (destroy s) = keyboardHandler s ∧
  raf_handle (destroy s) = raf_handle s.
Proof.
  rewrite destroy_filter.
  cbn [listeners raf_callbacks slides currentSlide vizs containers scatterplots
       keyboardHandler raf_handle set_raf set_listeners].
  split; [|split; [|done]].
  - intros l. rewrite list_elem_of_filter. tauto.
  - intros x. rewrite list_elem_of_filter. tauto.
Qed.

Lemma filter_idemp {A : Type} (P : A → Prop) `{∀ a, Decision (P a)} (l : list A) :
  filter P (filter P l) = filter P l.
Proof. rewrite list_filter_filter. apply list_filter_iff. tauto. Qed.

(** A second [destroy] changes nothing. *)
Theorem destroy_idempotent (s : State) : destroy (destroy s) = destroy s.
Proof.
  rewrite (destroy_filter (destroy s)).
  destruct (destroy_frame s) as (-> & -> & _).
  rewrite (destroy_filter s).
  cbn [raf_handle raf_callbacks listeners set_raf set_listeners].
  rewrite !filter_idemp. reflexivity.
Qed.

(** * What stays as the constructor left it *)

Lemma fixed_data_set_viz (i : Z) (v v' : Viz) (s : State) :
  vizs s !! i = Some v → viz_data v' = viz_data v →
  fixed_data (set_viz i v' s) = fixed_data s.
Proof.
  intros Hv Hd. unfold fixed_data, set_viz. cbn [vizs draws containers THREE_defined set_vizs].
  rewrite fmap_insert, Hd, insert_id; [done|].
  by rewrite lookup_fmap, Hv.
Qed.

Lemma fixed_data_set_raf (a : Z) (b : list (Z * Callback)) (s : State) :
  fixed_data (set_raf a b s) = fixed_data s.
Proof. reflexivity. Qed.

Lemma run_handler_fixed (hd : Handler) (e : Event) (s : State) :
  fixed_data (run_handler hd e s) = fixed_data s ∧
  containers (run_handler hd e s) = containers s.
Proof.
  destruct hd; simpl.
  - done.
  - done.
  - by repeat case_bool_decide.
  - unfold canvas_handleResize.
    destruct (vizs s !! i) as [[c|v]|] eqn:E; [|done..].
    destruct (containers s !! cv_container c); [|done].
    split; [|done]. by apply (fixed_data_set_viz _ _ _ _ E).
  - unfold scene_handleResize.
    destruct (vizs s !! i) as [[c|v]|] eqn:E; [done| |done].
    destruct (containers s !! sv_container v); [|done].
    case_match; [|done].
    split; [|done]. by apply (fixed_data_set_viz _ _ _ _ E).
  - unfold set_drag. destruct (vizs s !! i) as [[c|v]|] eqn:E; [done| |done].
    split; [|done]. by apply (fixed_data_set_viz _ _ _ _ E).
  - unfold on_mousemove. destruct (vizs s !! i) as [[c|v]|] eqn:E; [done| |done].
    case_match; [|done].
    split; [|done]. by apply (fixed_data_set_viz _ _ _ _ E).
  - unfold set_drag. destruct (vizs s !! i) as [[c|v]|] eqn:E; [done| |done].
    split; [|done]. by apply (fixed_data_set_viz _ _ _ _ E).
  - unfold set_drag. destruct (vizs s !! i) as [[c|v]|] eqn:E; [done| |done].
    split; [|done]. by apply (fixed_data_set_viz _ _ _ _ E).
Qed.

Lemma run_callback_fixed (cb : Callback) (s : State) :
  fixed_data (run_callback cb s) = fixed_data s ∧
  containers (run_callback cb s) = containers s.
Proof.
  destruct cb; simpl; unfold draw, animate, requestAnimationFrame.
  - destruct (vizs s !! i) as [[c|v]|] eqn:E; [|done..].
    split; [|done].
    by rewrite (fixed_data_set_viz i (VCanvas c)), fixed_data_set_raf.
  - destruct (vizs s !! i) as [[c|v]|] eqn:E; [done| |done].
    split; [|done].
    by rewrite (fixed_data_set_viz i (VScene v)), fixed_data_set_raf.
Qed.

Lemma dispatchEvent_fixed (t : Target) (ty : EventType) (e : Event) (s : State) :
  fixed_data (dispatchEvent t ty e s) = fixed_data s ∧
  containers (dispatchEvent t ty e s) = containers s.
Proof.
  rewrite dispatchEvent_listening. split.
  - apply (foldl_preserves fixed_data (λ l acc, run_handler (l_handler l) e acc)).
    intros. apply run_handler_fixed.
  - apply (foldl_preserves containers (λ l acc, run_handler (l_handler l) e acc)).
    intros. apply run_handler_fixed.
Qed.

Lemma animation_frame_fixed (s : State) :
  fixed_data (animation_frame s) = fixed_data s ∧
  containers (animation_frame s) = containers s.
Proof.
  unfold animation_frame. split.
  - rewrite (foldl_preserves fixed_data (λ p acc, run_callback p.2 acc)); [done|].
    intros. apply run_callback_fixed.
  - rewrite (foldl_preserves containers (λ p acc, run_callback p.2 acc)); [done|].
    intros. apply run_callback_fixed.
Qed.

Lemma step_fixed (a : Action) (s : State) :
  fixed_data (step a s) = fixed_data s.
Proof.
  destruct a; simpl.
  - apply dispatchEvent_fixed.
  - apply animation_frame_fixed.
  - unfold layout. destruct (containers s !! c) as [ct|] eqn:E; [|done].
    unfold fixed_data. cbn [vizs draws containers THREE_defined set_containers].
    rewrite fmap_insert. cbn [Container.children].
    rewrite insert_id; [done|]. by rewrite lookup_fmap, E.
  - done.
  - done.
  - by rewrite destroy_filter.
Qed.

Lemma run_fixed (acts : list Action) (s : State) :
  fixed_data (run acts s) = fixed_data s.
Proof.
  revert s. induction acts as [|a acts IH]; intros s; [done|].
  unfold run in *. simpl. by rewrite IH, step_fixed.
Qed.

(** After the constructor has returned nothing generates, replaces or drops
    data: in every run of events, frames, layout changes and method calls,
    from any state, each visualization keeps its strategy, its container and
    its points, none is added or removed, [Math.random] is not called again,
    and no container appears, disappears, or gains or loses a child. *)
Theorem data_is_fixed (acts : list Action) (s : State) :
  (∀ i, viz_data <$> vizs (run acts s) !! i = viz_data <$> vizs s !! i) ∧
  draws (run acts s) = draws s ∧
  (∀ c, Container.children <$> containers (run acts s) !! c
        = Container.children <$> containers s !! c) ∧
  THREE_defined (run acts s) = THREE_defined s.
Proof.
  pose proof (run_fixed acts s) as [= Hv Hd Hc Ht].
  split; [|split; [done|split; [|done]]].
  - intros i. by rewrite <- !lookup_fmap, Hv.
  - intros c. by rewrite <- !lookup_fmap, Hc.
Qed.

(** * The animation loops *)

Lemma live_fixed (s s' : State) (cb : Callback) :
  fixed_data s' = fixed_data s → live s cb → live s' cb.
Proof.
  intros [= Hv _ _ _]. destruct cb as [i|i]; simpl; intros [x Hx];
    pose proof (f_equal (λ m, m !! i) Hv) as Hi; simpl in Hi;
    rewrite !lookup_fmap, Hx in Hi;
    destruct (vizs s' !! i) as [[c|v]|]; simplify_eq/=; eauto.
Qed.

Lemma run_callback_live (cb : Callback) (s : State) :
  live s cb →
  raf_handle (run_callback cb s) = (raf_handle s + 1)%Z ∧
  raf_callbacks (run_callback cb s)
  = raf_callbacks s ++ [((raf_handle s + 1)%Z, cb)].
Proof.
  destruct cb as [i|i]; simpl; intros [x Hx].
  - by destruct (draw_requests i x s Hx) as (-> & -> & _).
  - by destruct (animate_requests i x s Hx) as (-> & -> & _).
Qed.

Lemma run_callbacks_live (l : list (Z * Callback)) (s : State) :
  (∀ x, x ∈ l → live s x.2) →
  raf_handle (foldl (λ acc p, run_callback p.2 acc) s l)
  = (raf_handle s + Z.of_nat (length l))%Z ∧
  raf_callbacks (foldl (λ acc p, run_callback p.2 acc) s l)
  = raf_callbacks s
    ++ imap (λ n x, ((raf_handle s + 1 + Z.of_nat n)%Z, x.2)) l.
Proof.
  revert s. induction l as [|x l IH]; intros s Hl.
  { simpl. by rewrite Z.add_0_r, app_nil_r. }
  cbn [foldl].
  destruct (run_callback_live x.2 s) as [H1 H2]; [apply Hl; left|].
  destruct (IH (run_callback x.2 s)) as [I1 I2].
  { intros y Hy. eapply live_fixed; [apply run_callback_fixed|].
    apply Hl. by right. }
  rewrite I1, I2, H1, H2. split; [simpl; lia|].
  rewrite <- app_assoc. f_equal. simpl. rewrite Z.add_0_r. f_equal.
  apply imap_ext. intros n y _. simpl. f_equal. lia.
Qed.

(** A frame whose callbacks all belong to a visualization leaves the same
    callbacks pending, in the same order, under fresh handles. *)
Lemma animation_frame_live (s : State) :
  (∀ x, x ∈ raf_callbacks s → live s x.2) →
  raf_handle (animation_frame s)
  = (raf_handle s + Z.of_nat (length (raf_callbacks s)))%Z ∧
  raf_callbacks (animation_frame s)
  = imap (λ n x, ((raf_handle s + 1 + Z.of_nat n)%Z, x.2)) (raf_callbacks s).
Proof.
  intros Hl. unfold animation_frame.
  destruct (run_callbacks_live (raf_callbacks s) (set_raf (raf_handle s) [] s))
    as [H1 H2]; [exact Hl|].
  by rewrite H1, H2.
Qed.

Lemma step_callbacks (a : Action) (s : State) :
  a ≠ CallDestroy →
  (∀ x, x ∈ raf_callbacks s → live s x.2) →
  (raf_callbacks (step a s)).*2 = (raf_callbacks s).*2.
Proof.
  intros Ha Hl. destruct a; simpl; try done.
  - by destruct (dispatchEvent_frame target type e s) as (_ & _ & ->).
  - destruct (animation_frame_live s Hl) as [_ ->].
    rewrite fmap_imap. apply imap_const.
  - unfold layout. by case_match.
Qed.

Lemma run_callbacks (acts : list Action) (s : State) :
  CallDestroy ∉ acts →
  (∀ x, x ∈ raf_callbacks s → live s x.2) →
  (raf_callbacks (run acts s)).*2 = (raf_callbacks s).*2.
Proof.
  revert s. induction acts as [|a acts IH]; intros s Hn Hl; [done|].
  assert (Ha : a ≠ CallDestroy) by (intros ->; apply Hn; left).
  unfold run in *. simpl. rewrite IH.
  - by apply step_callbacks.
  - intros ?. apply Hn. by right.
  - intros x Hx. eapply live_fixed; [apply step_fixed|].
    apply list_elem_of_fmap_2 with (f := snd) in Hx.
    rewrite (step_callbacks a s Ha Hl) in Hx.
    apply list_elem_of_fmap in Hx as (y & -> & Hy). by apply Hl.
Qed.

(** As long as [destroy] is not called, every visualization has exactly one
    animation callback pending, whatever events, frames, layout changes and
    navigation calls occur: each loop requests its next frame. *)
Theorem animation_loops_persist (h : Host) (p : Page) (acts : list Action) :
  CallDestroy ∉ acts →
  (raf_callbacks (run acts (carousel_of h p))).*2
  = plot_callback (page_THREE p) <$> present p.
Proof.
  intros Hn. rewrite run_callbacks; [apply constructor_callbacks|exact Hn|].
  apply constructor_live.
Qed.

Lemma animation_loops_persist_witness :
  (raf_callbacks (run [Frame; Layout 1 0 150; Frame; CallPrevSlide]
                    (carousel_of sample_host page_1_3))).*2
  = plot_callback false <$> present page_1_3.
Proof.
  apply (animation_loops_persist sample_host page_1_3
           [Frame; Layout 1 0 150; Frame; CallPrevSlide]).
  intros H. repeat (apply elem_of_cons in H as [H|H]; [discriminate|]).
  by apply elem_of_nil in H.
Defined.

(** * Handles *)

Lemma run_callback_after (m : Z) (cb : Callback) (s : State) :
  (m ≤ raf_handle s)%Z → requested_after m s →
  (m ≤ raf_handle (run_callback cb s))%Z ∧ requested_after m (run_callback cb s).
Proof.
  intros Hm Hs. unfold requested_after.
  destruct cb as [i|i]; simpl; unfold draw, animate, requestAnimationFrame;
    (destruct (vizs s !! i) as [[c|v]|]; [..|done]; try done);
    cbn [raf_handle raf_callbacks set_viz set_vizs set_raf];
    (split; [lia|]);
    intros x [Hx| ->%list_elem_of_singleton]%elem_of_app; simpl; auto; lia.
Qed.

Lemma run_callbacks_after (m : Z) (l : list (Z * Callback)) (s : State) :
  (m ≤ raf_handle s)%Z → requested_after m s →
  (m ≤ raf_handle (foldl (λ acc p, run_callback p.2 acc) s l))%Z ∧
  requested_after m (foldl (λ acc p, run_callback p.2 acc) s l).
Proof.
  revert s. induction l as [|x l IH]; intros s Hm Hs; [done|].
  simpl. destruct (run_callback_after m x.2 s Hm Hs). by apply IH.
Qed.

(** A frame leaves only callbacks requested during it. *)
Lemma animation_frame_after (s : State) :
  (raf_handle s ≤ raf_handle (animation_frame s))%Z ∧
  requested_after (raf_handle s) (animation_frame s).
Proof.
  unfold animation_frame. apply run_callbacks_after; [simpl; lia|].
  intros x Hx. by apply elem_of_nil in Hx.
Qed.

Lemma run_handler_handle (hd : Handler) (e : Event) (s : State) :
  raf_handle (run_handler hd e s) = raf_handle s.
Proof.
  destruct hd; simpl; try done.
  - by repeat case_bool_decide.
  - unfold canvas_handleResize. by repeat case_match.
  - unfold scene_handleResize. by repeat case_match.
  - unfold set_drag. by repeat case_match.
  - unfold on_mousemove. by repeat case_match.
  - unfold set_drag. by repeat case_match.
  - unfold set_drag. by repeat case_match.
Qed.

Lemma step_handle (a : Action) (s : State) :
  (raf_handle s ≤ raf_handle (step a s))%Z.
Proof.
  destruct a; simpl.
  - rewrite dispatchEvent_listening.
    rewrite (foldl_preserves raf_handle (λ l acc, run_handler (l_handler l) e acc));
      [done|]. intros. apply run_handler_handle.
  - apply animation_frame_after.
  - unfold layout. by case_match.
  - done.
  - done.
  - by rewrite destroy_filter.
Qed.

Lemma step_after (m : Z) (a : Action) (s : State) :
  (m ≤ raf_handle s)%Z →
  requested_after m s ∨ a = Frame →
  requested_after m (step a s).
Proof.
  intros Hm Hs.
  assert (a = Frame ∨ a ≠ Frame) as [->|Ha] by (destruct a; auto).
  - simpl. intros x Hx. apply animation_frame_after in Hx. lia.
  - destruct Hs as [Hs|]; [|done]. intros x Hx. apply Hs.
    by apply (step_frame a s).
Qed.

Lemma run_after (m : Z) (acts : list Action) (s : State) :
  (m ≤ raf_handle s)%Z →
  requested_after m s ∨ Frame ∈ acts →
  requested_after m (run acts s).
Proof.
  revert s. induction acts as [|a acts IH]; intros s Hm Hs.
  { destruct Hs as [Hs|Hs]; [done|]. by apply elem_of_nil in Hs. }
  unfold run in *. simpl. apply IH.
  - pose proof (step_handle a s). lia.
  - destruct Hs as [Hs|[<-|Hs]%elem_of_cons].
    + left. apply step_after; auto.
    + left. apply step_after; auto.
    + by right.
Qed.

Lemma Object_values_lookup {A : Type} (m : gmap Z A) (x : A) :
  x ∈ Object_values m → ∃ j, m !! j = Some x.
Proof.
  unfold Object_values. intros ([j y] & -> & Hy)%list_elem_of_fmap.
  rewrite merge_sort_Permutation in Hy. apply elem_of_map_to_list in Hy.
  by exists j.
Qed.

Lemma constructor_plots (h : Host) (p : Page) (j : Z) (plot : Plot) :
  scatterplots (carousel_of h p) !! j = Some plot →
  ∃ id, plot_animationId plot = Some id ∧
        (id ≤ raf_handle (carousel_of h p))%Z.
Proof.
  intros Hj.
  destruct (constructor_spec h p) as (s0 & E0 & _ & _ & _ & _ & Hdom).
  assert (Hs : carousel_of h p = s0) by (unfold carousel_of; by rewrite E0).
  destruct (proj1 (Hdom j)) as [Ho [ct Hc]].
  { rewrite <- Hs. eauto. }
  destruct (constructor_mounted h p j ct Ho Hc) as (pts & hdl & _ & Hp & _ & Hh).
  rewrite Hp in Hj. injection Hj as <-. exists hdl. split; [done|lia].
Qed.

(** Once an animation frame has run, [destroy] cancels no callback: the
    handles the plots hold were given out by the constructor, and every
    pending callback was requested later. *)
Theorem destroy_after_a_frame_cancels_nothing (h : Host) (p : Page)
    (acts : list Action) :
  Frame ∈ acts →
  raf_callbacks (destroy (run acts (carousel_of h p)))
  = raf_callbacks (run acts (carousel_of h p)).
Proof.
  intros Hf.
  pose proof (run_after (raf_handle (carousel_of h p)) acts (carousel_of h p)
                (Z.le_refl _) (or_intror Hf)) as Hafter.
  destruct (run_frame acts (carousel_of h p)) as (Rs & _).
  rewrite destroy_filter. cbn [raf_callbacks set_raf set_listeners].
  apply filter_all. intros x Hx.
  unfold cancelled. rewrite Exists_exists. intros (plot & Hin & _ & Hid).
  rewrite Rs in Hin. apply Object_values_lookup in Hin as [j Hj].
  destruct (constructor_plots h p j plot Hj) as (id & Hid' & Hle).
  specialize (Hafter x Hx). rewrite Hid in Hid'. injection Hid' as <-. lia.
Qed.

Lemma destroy_after_a_frame_cancels_nothing_witness :
  raf_callbacks (destroy (run [Layout 3 10 10; Frame]
                            (carousel_of sample_host page_1_3)))
  = raf_callbacks (run [Layout 3 10 10; Frame] (carousel_of sample_host page_1_3)).
Proof.
  apply (destroy_after_a_frame_cancels_nothing sample_host page_1_3
           [Layout 3 10 10; Frame]).
  right. left.
Defined.

(** * Listeners in reachable states *)

Lemma step_listening (a : Action) (s : State) (t : Target) (ty : EventType) :
  ty ≠ keydown → ty ≠ resize →
  listening t ty (step a s) = listening t ty s.
Proof.
  intros Hk Hr.
  assert (a = CallDestroy ∨ a ≠ CallDestroy) as [->|Ha] by (destruct a; auto).
  - simpl. rewrite destroy_filter. unfold listening.
    cbn [listeners set_raf set_listeners]. rewrite list_filter_filter.
    apply list_filter_iff. intros l. unfold unbound. split; [tauto|].
    intros [Ht Hy]. split; [done|]. rewrite Hy. tauto.
  - unfold listening. by rewrite step_listeners.
Qed.

Lemma run_listening (acts : list Action) (s : State) (t : Target)
    (ty : EventType) :
  ty ≠ keydown → ty ≠ resize →
  listening t ty (run acts s) = listening t ty s.
Proof.
  intros Hk Hr. revert s. induction acts as [|a acts IH]; intros s; [done|].
  unfold run in *. simpl. by rewrite IH, step_listening.
Qed.

(** [destroy] does not unbind the controls: on a page with both controls,
    in every state the constructed carousel reaches, also after [destroy], a
    click on a control is a call of its method. *)
Theorem clicks_survive_destroy (h : Host) (p : Page) (acts : list Action)
    (e : Event) :
  page_prev p = true → page_next p = true →
  dispatchEvent PrevBtn click e (run acts (carousel_of h p))
  = prevSlide (run acts (carousel_of h p)) ∧
  dispatchEvent NextBtn click e (run acts (carousel_of h p))
  = nextSlide (run acts (carousel_of h p)).
Proof.
  intros Hp Hn. rewrite !dispatchEvent_listening, !run_listening by done.
  destruct (constructor_spec h p) as (s0 & E0 & _ & _ & _ & (extra & E & F) & _).
  assert (Hs : carousel_of h p = s0) by (unfold carousel_of; by rewrite E0).
  rewrite <- Hs in E.
  destruct (listening_nav p extra (carousel_of h p) E F) as (_ & -> & ->).
  by rewrite Hp, Hn.
Qed.

Lemma clicks_survive_destroy_witness :
  dispatchEvent PrevBtn click (event_with_key "")
    (run [CallDestroy] plain_carousel)
  = prevSlide (run [CallDestroy] plain_carousel).
Proof.
  exact (proj1 (clicks_survive_destroy sample_host
                  (example_page true true ∅ false) [CallDestroy]
                  (event_with_key "") eq_refl eq_refl)).
Defined.

(** * Resize in reachable states *)

Lemma viz_data_fixed (s s' : State) (i : Z) (v : Viz) :
  fixed_data s' = fixed_data s → vizs s !! i = Some v →
  ∃ v', vizs s' !! i = Some v' ∧ viz_data v' = viz_data v.
Proof.
  intros [= Hv _ _ _] Hi.
  pose proof (f_equal (λ m, m !! i) Hv) as H. simpl in H.
  rewrite !lookup_fmap, Hi in H.
  destruct (vizs s' !! i) as [v'|]; simplify_eq/=. eauto.
Qed.

Lemma surface_set_viz_ne (i j : Z) (v : Viz) (ct : Container.t) (s : State) :
  j ≠ i → fits i ct s → fits i ct (set_viz j v s).
Proof.
  intros Hji [H1 H2]. unfold fits, surface_size, set_viz in *.
  cbn [vizs set_vizs]. by rewrite lookup_insert_ne.
Qed.

Lemma run_handler_fits (i : Z) (ct : Container.t) (hd : Handler) (e : Event)
    (s : State) :
  fits i ct s → containers s !! i = Some ct →
  (∀ v, vizs s !! i = Some v → (viz_data v).1.2 = i) →
  fits i ct (run_handler hd e s).
Proof.
  intros Hf Hc Hv.
  destruct hd as [| | |j|j|j|j|j|j]; simpl.
  - done.
  - done.
  - by repeat case_bool_decide.
  - unfold canvas_handleResize.
    destruct (vizs s !! j) as [[c|v]|] eqn:E; [|done..].
    destruct (containers s !! cv_container c) as [ct'|] eqn:Ec; [|done].
    destruct (decide (j = i)) as [->|Hji]; [|by apply surface_set_viz_ne].
    specialize (Hv _ E). simpl in Hv. rewrite Hv, Hc in Ec. injection Ec as <-.
    unfold fits, surface_size, set_viz. cbn [vizs set_vizs].
    rewrite lookup_insert_eq. split; [done|]. intros ? [=].
  - unfold scene_handleResize.
    destruct (vizs s !! j) as [[c|v]|] eqn:E; [done| |done].
    destruct (containers s !! sv_container v) as [ct'|] eqn:Ec; [|done].
    case_match; [|done].
    destruct (decide (j = i)) as [->|Hji]; [|by apply surface_set_viz_ne].
    specialize (Hv _ E). simpl in Hv. rewrite Hv, Hc in Ec. injection Ec as <-.
    unfold fits, surface_size, set_viz. cbn [vizs set_vizs].
    rewrite lookup_insert_eq. split; [done|]. by intros ? [= <-].
  - unfold set_drag. destruct (vizs s !! j) as [[c|v]|] eqn:E; [done| |done].
    destruct (decide (j = i)) as [->|Hji]; [|by apply surface_set_viz_ne].
    destruct Hf as [H1 H2]. unfold fits, surface_size, set_viz in *.
    cbn [vizs set_vizs]. rewrite lookup_insert_eq. rewrite E in H1.
    split; [done|]. intros ? [= <-]. simpl. by apply H2.
  - unfold on_mousemove. destruct (vizs s !! j) as [[c|v]|] eqn:E; [done| |done].
    case_match; [|done].
    destruct (decide (j = i)) as [->|Hji]; [|by apply surface_set_viz_ne].
    destruct Hf as [H1 H2]. unfold fits, surface_size, set_viz in *.
    cbn [vizs set_vizs]. rewrite lookup_insert_eq. rewrite E in H1.
    split; [done|]. intros ? [= <-]. simpl. by apply H2.
  - unfold set_drag. destruct (vizs s !! j) as [[c|v]|] eqn:E; [done| |done].
    destruct (decide (j = i)) as [->|Hji]; [|by apply surface_set_viz_ne].
    destruct Hf as [H1 H2]. unfold fits, surface_size, set_viz in *.
    cbn [vizs set_vizs]. rewrite lookup_insert_eq. rewrite E in H1.
    split; [done|]. intros ? [= <-]. simpl. by apply H2.
  - unfold set_drag. destruct (vizs s !! j) as [[c|v]|] eqn:E; [done| |done].
    destruct (decide (j = i)) as [->|Hji]; [|by apply surface_set_viz_ne].
    destruct Hf as [H1 H2]. unfold fits, surface_size, set_viz in *.
    cbn [vizs set_vizs]. rewrite lookup_insert_eq. rewrite E in H1.
    split; [done|]. intros ? [= <-]. simpl. by apply H2.
Qed.

(** The resize handler of slide [i] makes the surface fit: always for the
    2D placeholder, for a container of positive size for the 3D
    scatterplot. *)
Lemma resize_handler_fits (three : bool) (i : Z) (ct : Container.t) (e : Event)
    (s : State) (v : Viz) :
  containers s !! i = Some ct →
  vizs s !! i = Some v → (viz_data v).1 = (three, i) →
  (three = true →
   (0 < Container.clientWidth ct)%Z ∧ (0 < Container.clientHeight ct)%Z) →
  fits i ct (run_handler (resize_handler three i) e s).
Proof.
  intros Hc Hv Hd Hpos.
  destruct v as [c|v]; simpl in Hd; injection Hd as <- Hi; simpl.
  - unfold canvas_handleResize. rewrite Hv, Hi, Hc.
    unfold fits, surface_size, set_viz. cbn [vizs set_vizs].
    rewrite lookup_insert_eq. split; [done|]. intros ? [=].
  - unfold scene_handleResize. rewrite Hv, Hi, Hc.
    destruct (Hpos eq_refl) as [Hw Hh].
    rewrite (proj2 (Z.ltb_lt _ _) Hw), (proj2 (Z.ltb_lt _ _) Hh). simpl.
    unfold fits, surface_size, set_viz. cbn [vizs set_vizs].
    rewrite lookup_insert_eq. split; [done|]. by intros ? [= <-].
Qed.

Lemma resize_fold (three : bool) (i : Z) (ct : Container.t) (e : Event)
    (ls : list Listener) (s : State) (v : Viz) :
  containers s !! i = Some ct →
  vizs s !! i = Some v → (viz_data v).1 = (three, i) →
  (three = true →
   (0 < Container.clientWidth ct)%Z ∧ (0 < Container.clientHeight ct)%Z) →
  fits i ct s ∨ resize_handler three i ∈ l_handler <$> ls →
  fits i ct (foldl (λ acc l, run_handler (l_handler l) e acc) s ls).
Proof.
  revert s v. induction ls as [|l ls IH]; intros s v Hc Hv Hd Hpos Hf.
  { destruct Hf as [Hf|Hf]; [done|]. by apply elem_of_nil in Hf. }
  cbn [foldl].
  destruct (run_handler_fixed (l_handler l) e s) as [Hfix Hcon].
  destruct (viz_data_fixed _ _ i v Hfix Hv) as (v' & Hv' & Hd').
  apply (IH _ v'); [by rewrite Hcon|done|by rewrite Hd'|done|].
  assert (Hkeep : fits i ct s → fits i ct (run_handler (l_handler l) e s)).
  { intros H. apply run_handler_fits; [done..|].
    intros v0 Hv0. rewrite Hv in Hv0. injection Hv0 as <-. by rewrite Hd. }
  destruct Hf as [Hf|Hf]; [left; by apply Hkeep|].
  rewrite fmap_cons in Hf. apply elem_of_cons in Hf as [Hf|Hf]; [|by right].
  left. rewrite <- Hf. by apply (resize_handler_fits three i ct e s v).
Qed.

Lemma constructor_resize_listener (h : Host) (p : Page) (i : Z) :
  ordinal i → is_Some (page_containers p !! i) →
  resize_listener (resize_handler (page_THREE p) i)
  ∈ listeners (carousel_of h p).
Proof.
  intros Hi [ct Hc]. rewrite constructor_state, mounts_listeners.
  cbn [nav_state containers THREE_defined listeners].
  assert (Hin : resize_listener (resize_handler (page_THREE p) i)
                ∈ plot_listeners (page_THREE p) i).
  { unfold plot_listeners, resize_handler. destruct (page_THREE p); left. }
  rewrite !elem_of_app. right.
  destruct Hi as [-> | [-> | ->]]; rewrite Hc; auto.
Qed.

(** As long as [destroy] was not called, a resize event on [window] makes
    the render surface of every visualization fit its container as it is
    then: the 2D canvas takes the container's size whatever it is, the 3D
    renderer and camera take size and aspect ratio of a container whose width
    and height are positive. *)
Theorem resize_tracks_container (h : Host) (p : Page) (acts : list Action)
    (i : Z) (e : Event) (ct : Container.t) :
  CallDestroy ∉ acts →
  ordinal i → is_Some (page_containers p !! i) →
  containers (run acts (carousel_of h p)) !! i = Some ct →
  (page_THREE p = true →
   (0 < Container.clientWidth ct)%Z ∧ (0 < Container.clientHeight ct)%Z) →
  surface_size i (dispatchEvent Window resize e (run acts (carousel_of h p)))
  = Some (Container.clientWidth ct, Container.clientHeight ct) ∧
  (page_THREE p = true →
   camera_aspect i (dispatchEvent Window resize e (run acts (carousel_of h p)))
   = Some (div (of_Z (Container.clientWidth ct))
             (of_Z (Container.clientHeight ct)))).
Proof.
  intros Hn Hi Hp Hc Hpos.
  destruct Hp as [ct0 Hp].
  destruct (constructor_mounted h p i ct0 Hi Hp) as (pts & hdl & Hv0 & _).
  destruct (viz_data_fixed _ _ i _ (run_fixed acts (carousel_of h p)) Hv0)
    as (v & Hv & Hd).
  assert (Hd' : (viz_data v).1 = (page_THREE p, i)).
  { rewrite Hd. unfold first_viz. by destruct (page_THREE p). }
  assert (Hl : resize_handler (page_THREE p) i
               ∈ l_handler <$> listening Window resize (run acts (carousel_of h p))).
  { apply list_elem_of_fmap.
    exists (resize_listener (resize_handler (page_THREE p) i)).
    split; [done|]. apply list_elem_of_filter. split; [done|].
    rewrite run_listeners by done. apply constructor_resize_listener; eauto. }
  rewrite dispatchEvent_listening.
  set (s' := foldl _ _ _).
  assert (fixed_data s' = fixed_data (run acts (carousel_of h p))) as Hfix.
  { unfold s'. rewrite <- dispatchEvent_listening. apply dispatchEvent_fixed. }
  destruct (resize_fold (page_THREE p) i ct e
              (listening Window resize (run acts (carousel_of h p)))
              (run acts (carousel_of h p)) v Hc Hv Hd' Hpos (or_intror Hl))
    as [F1 F2].
  fold s' in F1, F2.
  split; [exact F1|]. intros Ht. unfold camera_aspect.
  destruct (viz_data_fixed _ _ i _ Hfix Hv) as (v' & Hv' & Hd'').
  rewrite Hv'. apply (f_equal fst) in Hd''. rewrite Hd', Ht in Hd''.
  destruct v' as [c|v']; [discriminate|]. by rewrite (F2 v').
Qed.

Lemma resize_tracks_container_witness :
  surface_size 1
    (dispatchEvent Window resize (event_with_key "")
       (run [Layout 1 640 0] canvas_carousel))
  = Some (640, 0)%Z.
Proof.
  refine (proj1 (resize_tracks_container sample_host
                   (example_page true true {[ 1%Z := box 300 150 ]} false)
                   [Layout 1 640 0] 1 (event_with_key "")
                   {| Container.clientWidth := 640; Container.clientHeight := 0;
                      Container.children := [CanvasChild] |} _ _ _ _ _)).
  - intros H. repeat (apply elem_of_cons in H as [H|H]; [discriminate|]).
    by apply elem_of_nil in H.
  - by left.
  - by eexists.
  - destruct (constructor_mounted sample_host
                (example_page true true {[ 1%Z := box 300 150 ]} false) 1
                (box 300 150) (or_introl eq_refl) (lookup_singleton_eq _ _))
      as (pts & hdl & _ & _ & Hc & _).
    unfold run, canvas_carousel, constructed. cbn [foldl step]. unfold layout.
    rewrite Hc. cbn [containers set_containers]. by rewrite lookup_insert_eq.
  - discriminate.
Defined.

(** * Dragging *)

Lemma filter_nav_pointer (p : Page) (c : Z) (ty : EventType) :
  filter (λ l, l_target l = ContainerEl c ∧ l_type l = ty) (nav_listeners p) = [].
Proof.
  apply filter_none. unfold nav_listeners.
  intros l Hl [Ht _].
  destruct (page_prev p && page_next p); simpl in Hl;
    repeat (apply elem_of_cons in Hl as [->|Hl]; [done|]);
    by apply elem_of_nil in Hl.
Qed.

Lemma filter_plot_pointer_ne (three : bool) (i j : Z) (ty : EventType) :
  i ≠ j →
  filter (λ l, l_target l = ContainerEl i ∧ l_type l = ty) (plot_listeners three j)
  = [].
Proof.
  intros Hij. apply filter_none. intros l Hl [Ht _].
  destruct three; unfold plot_listeners in Hl;
    repeat (apply elem_of_cons in Hl as [->|Hl];
            [simpl in Ht; congruence|]);
    by apply elem_of_nil in Hl.
Qed.

Lemma filter_plot_pointer (i : Z) (ty : EventType) (hd : Handler) :
  pointer_listener i ty hd ∈ plot_listeners true i →
  filter (λ l, l_target l = ContainerEl i ∧ l_type l = ty) (plot_listeners true i)
  = [pointer_listener i ty hd].
Proof.
  unfold plot_listeners. rewrite !elem_of_cons, elem_of_nil.
  intros H. repeat destruct H as [H|H]; try done;
    injection H as -> ->;
    repeat first [ rewrite filter_cons_True by done
                 | rewrite filter_cons_False by (intros [? ?]; done) ];
    by rewrite filter_nil.
Qed.

(** The pointer listener of a 3D scatterplot is the only listener for its
    event at the container, in every state the carousel reaches. *)
Lemma listening_pointer (h : Host) (p : Page) (acts : list Action) (i : Z)
    (ty : EventType) (hd : Handler) :
  page_THREE p = true → ordinal i → is_Some (page_containers p !! i) →
  pointer_listener i ty hd ∈ plot_listeners true i →
  listening (ContainerEl i) ty (run acts (carousel_of h p))
  = [pointer_listener i ty hd].
Proof.
  intros Ht Hi [ct Hc] Hin.
  assert (ty ≠ keydown ∧ ty ≠ resize) as [Hk Hr].
  { unfold plot_listeners in Hin. rewrite !elem_of_cons, elem_of_nil in Hin.
    repeat destruct Hin as [Hin|Hin]; try done;
      injection Hin as -> ->; done. }
  rewrite run_listening by done. unfold listening.
  rewrite constructor_state, mounts_listeners.
  cbn [nav_state containers THREE_defined listeners]. rewrite Ht.
  rewrite !filter_app, filter_nav_pointer, app_nil_l.
  destruct Hi as [-> | [-> | ->]]; rewrite Hc;
    rewrite (filter_plot_pointer _ ty hd Hin);
    repeat match goal with
    | |- context [match ?o with Some _ => plot_listeners true ?j | None => [] end] =>
        destruct o
    end;
    rewrite ?filter_plot_pointer_ne by done;
    by rewrite ?filter_nil, ?app_nil_r.
Qed.

Lemma reachable_scene (h : Host) (p : Page) (acts : list Action) (i : Z) :
  page_THREE p = true → ordinal i → is_Some (page_containers p !! i) →
  ∃ v, vizs (run acts (carousel_of h p)) !! i = Some (VScene v).
Proof.
  intros Ht Hi [ct Hc].
  destruct (constructor_mounted h p i ct Hi Hc) as (pts & hdl & Hv0 & _).
  destruct (viz_data_fixed _ _ i _ (run_fixed acts (carousel_of h p)) Hv0)
    as (v & Hv & Hd).
  rewrite Ht in Hd. destruct v as [c|v]; [discriminate|]. eauto.
Qed.

Lemma dispatch_pointer (h : Host) (p : Page) (acts : list Action) (i : Z)
    (ty : EventType) (hd : Handler) (e : Event) :
  page_THREE p = true → ordinal i → is_Some (page_containers p !! i) →
  pointer_listener i ty hd ∈ plot_listeners true i →
  dispatchEvent (ContainerEl i) ty e (run acts (carousel_of h p))
  = run_handler hd e (run acts (carousel_of h p)).
Proof.
  intros Ht Hi Hc Hin.
  by rewrite dispatchEvent_listening, (listening_pointer h p acts i ty hd).
Qed.

(** A drag on the container of a 3D scatterplot, in every state the carousel
    reaches, also after [destroy]: pressing the button starts the drag
    without rotating, and the next move rotates the point cloud about x by
    0.01 times the vertical and about y by 0.01 times the horizontal distance
    from the point where the button was pressed. *)
Theorem drag_rotates (h : Host) (p : Page) (acts : list Action) (i : Z)
    (e1 e2 : Event) :
  page_THREE p = true → ordinal i → is_Some (page_containers p !! i) →
  ∃ rx ry,
    rotation i (run acts (carousel_of h p)) = Some (rx, ry) ∧
    rotation i
      (dispatchEvent (ContainerEl i) mousedown e1 (run acts (carousel_of h p)))
    = Some (rx, ry) ∧
    dragging i
      (dispatchEvent (ContainerEl i) mousedown e1 (run acts (carousel_of h p)))
    = Some true ∧
    rotation i
      (dispatchEvent (ContainerEl i) mousemove e2
         (dispatchEvent (ContainerEl i) mousedown e1
            (run acts (carousel_of h p))))
    = Some (add rx (mul (sub (clientY e2) (clientY e1)) (lit (1 # 100))),
            add ry (mul (sub (clientX e2) (clientX e1)) (lit (1 # 100)))).
Proof.
  intros Ht Hi Hc.
  destruct (reachable_scene h p acts i Ht Hi Hc) as [v Hv].
  assert (Hdown :
    dispatchEvent (ContainerEl i) mousedown e1 (run acts (carousel_of h p))
    = set_drag i true (Some (clientX e1, clientY e1)) (run acts (carousel_of h p))).
  { apply (dispatch_pointer h p acts i mousedown (OnMouseDown i) e1 Ht Hi Hc).
    unfold plot_listeners. right. left. }
  assert (Hmove :
    dispatchEvent (ContainerEl i) mousemove e2
      (dispatchEvent (ContainerEl i) mousedown e1 (run acts (carousel_of h p)))
    = on_mousemove i e2
        (dispatchEvent (ContainerEl i) mousedown e1 (run acts (carousel_of h p)))).
  { change (dispatchEvent (ContainerEl i) mousedown e1 (run acts (carousel_of h p)))
      with (step (Dispatch (ContainerEl i) mousedown e1) (run acts (carousel_of h p))).
    unfold run. rewrite <- (foldl_snoc (λ acc a, step a acc)).
    apply (dispatch_pointer h p _ i mousemove (OnMouseMove i) e2 Ht Hi Hc).
    unfold plot_listeners. do 2 right. left. }
  rewrite Hmove, Hdown.
  set (s := run acts (carousel_of h p)) in *.
  assert (Hs1 :
    vizs (set_drag i true (Some (clientX e1, clientY e1)) s) !! i
    = Some (VScene
              {| sv_container := sv_container v; sv_aspect := sv_aspect v;
                 sv_size := sv_size v; sv_points := sv_points v;
                 sv_rotation_x := sv_rotation_x v;
                 sv_rotation_y := sv_rotation_y v;
                 sv_animationId := sv_animationId v; sv_isDragging := true;
                 sv_previousMousePosition := (clientX e1, clientY e1) |})).
  { unfold set_drag. rewrite Hv. unfold set_viz. cbn [vizs set_vizs].
    by rewrite lookup_insert_eq. }
  exists (sv_rotation_x v), (sv_rotation_y v).
  unfold rotation, dragging, on_mousemove. rewrite Hv, Hs1.
  cbn [sv_isDragging sv_rotation_x sv_rotation_y sv_previousMousePosition
       fst snd].
  unfold set_viz. cbn [vizs set_vizs]. by rewrite lookup_insert_eq.
Qed.

Lemma drag_rotates_witness :
  ∃ rx ry,
    rotation 1 scene_carousel = Some (rx, ry) ∧
    rotation 1
      (dispatchEvent (ContainerEl 1) mousemove
         {| key := String.EmptyString; clientX := lit 30; clientY := lit 40 |}
         (dispatchEvent (ContainerEl 1) mousedown
            {| key := String.EmptyString; clientX := lit 10; clientY := lit 10 |}
            scene_carousel))
    = Some (add rx (mul (sub (lit 40) (lit 10)) (lit (1 # 100))),
            add ry (mul (sub (lit 30) (lit 10)) (lit (1 # 100)))).
Proof.
  destruct (drag_rotates sample_host
              (example_page true true {[ 1%Z := box 300 150 ]} true) [] 1
              {| key := String.EmptyString; clientX := lit 10; clientY := lit 10 |}
              {| key := String.EmptyString; clientX := lit 30; clientY := lit 40 |}
              eq_refl (or_introl eq_refl)
              (ex_intro _ (box 300 150) (lookup_singleton_eq _ _)))
    as (rx & ry & H1 & _ & _ & H2).
  exists rx, ry. split; [exact H1|exact H2].
Defined.

(** Releasing the button or leaving the container ends the drag without
    rotating, and a move while no drag is under way changes nothing. *)
Theorem release_ends_drag (h : Host) (p : Page) (acts : list Action) (i : Z)
    (e : Event) :
  page_THREE p = true → ordinal i → is_Some (page_containers p !! i) →
  dragging i
    (dispatchEvent (ContainerEl i) mouseup e (run acts (carousel_of h p)))
  = Some false ∧
  dragging i
    (dispatchEvent (ContainerEl i) mouseleave e (run acts (carousel_of h p)))
  = Some false ∧
  rotation i
    (dispatchEvent (ContainerEl i) mouseup e (run acts (carousel_of h p)))
  = rotation i (run acts (carousel_of h p)) ∧
  rotation i
    (dispatchEvent (ContainerEl i) mouseleave e (run acts (carousel_of h p)))
  = rotation i (run acts (carousel_of h p)) ∧
  (dragging i (run acts (carousel_of h p)) = Some false →
   dispatchEvent (ContainerEl i) mousemove e (run acts (carousel_of h p))
   = run acts (carousel_of h p)).
Proof.
  intros Ht Hi Hc.
  destruct (reachable_scene h p acts i Ht Hi Hc) as [v Hv].
  rewrite !(dispatch_pointer h p acts i mouseup (OnMouseUp i) e Ht Hi Hc)
    by (unfold plot_listeners; do 3 right; left).
  rewrite !(dispatch_pointer h p acts i mouseleave (OnMouseLeave i) e Ht Hi Hc)
    by (unfold plot_listeners; do 4 right; left).
  rewrite (dispatch_pointer h p acts i mousemove (OnMouseMove i) e Ht Hi Hc)
    by (unfold plot_listeners; do 2 right; left).
  cbn [run_handler]. unfold rotation, dragging, on_mousemove, set_drag.
  rewrite Hv. unfold set_viz. cbn [vizs set_vizs]. rewrite !lookup_insert_eq.
  repeat split; try done. by intros [= ->].
Qed.

Lemma release_ends_drag_witness :
  dragging 1
    (dispatchEvent (ContainerEl 1) mouseup (event_with_key String.EmptyString)
       (run [Dispatch (ContainerEl 1) mousedown (event_with_key String.EmptyString);
             CallDestroy] scene_carousel))
  = Some false.
Proof.
  exact (proj1 (release_ends_drag sample_host
                  (example_page true true {[ 1%Z := box 300 150 ]} true)
                  [Dispatch (ContainerEl 1) mousedown
                     (event_with_key String.EmptyString);
                   CallDestroy] 1 (event_with_key String.EmptyString)
                  eq_refl (or_introl eq_refl)
                  (ex_intro _ (box 300 150) (lookup_singleton_eq _ _)))).
Defined.

(** * Sample data: counts, identifiers, extent *)

Lemma string_length_app (s t : string) :
  String.length (s +:+ t) = String.length s + String.length t.
Proof. induction s as [|a s IH]; simpl; [done|by rewrite IH]. Qed.

Lemma string_app_inj_r (s1 s2 t : string) : s1 +:+ t = s2 +:+ t → s1 = s2.
Proof.
  revert s2. induction s1 as [|a s1 IH]; intros [|b s2] H; simpl in H.
  - done.
  - apply (f_equal String.length) in H. simpl in H.
    rewrite !string_length_app in H. simpl in H. lia.
  - apply (f_equal String.length) in H. simpl in H.
    rewrite !string_length_app in H. simpl in H. lia.
  - injection H as -> H. f_equal. by apply IH.
Qed.

(** Seven calls of [Math.random] per point, whatever the ordinal; and for
    an ordinal of -3 or less, where [numPoints] is not positive, no point and
    no call. *)
Theorem generateSampleData_draws (h : Host) (slideNumber : Z) (k : nat) :
  length (generateSampleData h slideNumber k).1
  = Z.to_nat (50 + slideNumber * 20) ∧
  (generateSampleData h slideNumber k).2
  = k + 7 * length (generateSampleData h slideNumber k).1 ∧
  ((slideNumber ≤ -3)%Z → generateSampleData h slideNumber k = ([], k)).
Proof.
  rewrite generateSampleData_points. cbn [fst snd].
  rewrite points_from_length. split; [done|]. split; [done|].
  intros Hs. unfold numPoints.
  replace (Z.to_nat (50 + slideNumber * 20)) with 0 by lia.
  simpl. f_equal. lia.
Qed.

(** The image identifier of the point at index [j] is
    [image-<slideNumber>-<j>.jpg], in decimal, and no two points of one data
    set share one. *)
Theorem imageUrl_distinct (h : Host) (slideNumber : Z) (k j j' : nat)
    (p p' : Point.t) :
  (generateSampleData h slideNumber k).1 !! j = Some p →
  (generateSampleData h slideNumber k).1 !! j' = Some p' →
  Point.imageUrl p
  = "image-" +:+ pretty slideNumber +:+ "-" +:+ pretty (Z.of_nat j) +:+ ".jpg" ∧
  (Point.imageUrl p = Point.imageUrl p' → j = j').
Proof.
  rewrite generateSampleData_points. cbn [fst].
  intros ->%points_from_lookup ->%points_from_lookup.
  unfold sample_point. cbn [Point.imageUrl]. rewrite !Z.add_0_l.
  split; [done|]. intros H.
  do 3 apply (inj (String.app _)) in H.
  apply string_app_inj_r, (inj pretty) in H. lia.
Qed.

Lemma imageUrl_distinct_witness :
  (generateSampleData sample_host 1 0).1 !! 0
  = Some (sample_point sample_host 1 70 0 0) ∧
  Point.imageUrl (sample_point sample_host 1 70 0 0) = "image-1-0.jpg".
Proof.
  assert (Hl : (generateSampleData sample_host 1 0).1 !! 0
               = Some (sample_point sample_host 1 70 0 0))
    by (vm_compute; reflexivity).
  split; [exact Hl|].
  exact (proj1 (imageUrl_distinct sample_host 1 0 0 0 _ _ Hl Hl)).
Defined.

(** * Sample data: the extent of the point cloud *)

Local Open Scope Q_scope.

Lemma div_Fin (p q : Q) : ¬ q == 0 → div (Fin p) (Fin q) = round (p / q).
Proof.
  intros Hq. unfold div. destruct (Qeq_bool q 0) eqn:E; [|done].
  by apply Qeq_bool_iff in E.
Qed.

(** The angle of every index of the loop is a finite number. *)
Lemma angle_finite (n i : Z) :
  (0 ≤ i < n)%Z → (n ≤ 2 ^ 53)%Z → ∃ q, angle_of n i = Fin q.
Proof.
  intros Hi Hn. unfold angle_of, of_Z.
  assert (F0 : fl 0 == 0) by (vm_compute; reflexivity).
  assert (F1 : fl 1 == 1) by (vm_compute; reflexivity).
  assert (F53 : fl (inject_Z (2 ^ 53)) == inject_Z (2 ^ 53))
    by (vm_compute; reflexivity).
  assert (B53 : inject_Z (2 ^ 53) < 2 ^ 1024) by (vm_compute; reflexivity).
  assert (N53 : - 2 ^ 1024 < 0) by (vm_compute; reflexivity).
  destruct (round_between (inject_Z i) 0 (inject_Z (2 ^ 53)))
    as (a & -> & A1 & A2).
  { change 0 with (inject_Z 0). rewrite <- Zle_Qle. lia. }
  { rewrite <- Zle_Qle. lia. }
  { by rewrite F0. }
  { by rewrite F53. }
  destruct (round_between (inject_Z n) 1 (inject_Z (2 ^ 53)))
    as (b & -> & B1 & B2).
  { change 1 with (inject_Z 1). rewrite <- Zle_Qle. lia. }
  { rewrite <- Zle_Qle. lia. }
  { rewrite F1. vm_compute; reflexivity. }
  { by rewrite F53. }
  rewrite F0 in A1. rewrite F1 in B1. rewrite F53 in A2.
  rewrite div_Fin by lra.
  destruct (round_between (a / b) 0 (inject_Z (2 ^ 53))) as (c & -> & C1 & C2).
  { apply Qle_shift_div_l; lra. }
  { apply Qle_shift_div_r; [lra|]. nra. }
  { by rewrite F0. }
  { by rewrite F53. }
  rewrite F0 in C1. rewrite F53 in C2.
  unfold Math_PI. rewrite mul_Fin.
  set (pi := 884279719003555 # 281474976710656) in *.
  assert (P1 : 0 <= pi) by (vm_compute; discriminate).
  assert (P2 : pi <= 4) by (vm_compute; discriminate).
  assert (F55 : fl (inject_Z (2 ^ 55)) == inject_Z (2 ^ 55))
    by (vm_compute; reflexivity).
  assert (B55 : inject_Z (2 ^ 55) < 2 ^ 1024) by (vm_compute; reflexivity).
  assert (E55 : inject_Z (2 ^ 55) == 4 * inject_Z (2 ^ 53))
    by (vm_compute; reflexivity).
  destruct (round_between (c * pi) 0 (inject_Z (2 ^ 55))) as (d & -> & D1 & D2).
  { nra. }
  { rewrite E55. nra. }
  { by rewrite F0. }
  { by rewrite F55. }
  rewrite F0 in D1. rewrite F55 in D2.
  change (lit 2) with (Fin 2). rewrite mul_Fin.
  assert (F56 : fl (inject_Z (2 ^ 56)) == inject_Z (2 ^ 56))
    by (vm_compute; reflexivity).
  assert (B56 : inject_Z (2 ^ 56) < 2 ^ 1024) by (vm_compute; reflexivity).
  assert (E56 : inject_Z (2 ^ 56) == 2 * inject_Z (2 ^ 55))
    by (vm_compute; reflexivity).
  destruct (round_between (d * 2) 0 (inject_Z (2 ^ 56))) as (x & -> & _).
  { lra. }
  { rewrite E56. lra. }
  { by rewrite F0. }
  { by rewrite F56. }
  by exists x.
Qed.

(** [t * radius + jitter] for [t] in [-1, 1] lies in [-3.25, 3.25]. *)
Lemma ring_coordinate (t a j : number) :
  unit_range t → is_draw a → is_draw j →
  within_closed (lit (- (325 # 100))) (lit (325 # 100))
    (add (mul t (radius_of a)) (jitter_of j)).
Proof.
  intros (c & -> & C1 & C2) Ha Hj. unfold radius_of, jitter_of.
  edestruct (affine_draw 1 2) as (w & -> & W1 & W2);
    [first [vm_compute; reflexivity | vm_compute; discriminate] .. | exact Ha |].
  edestruct (centred_draw (5 # 10)) as (y & -> & Y1 & Y2);
    [first [vm_compute; reflexivity | vm_compute; discriminate] .. | exact Hj |].
  rewrite mul_Fin.
  assert (F3 : fl 3 == 3) by (vm_compute; reflexivity).
  assert (N3 : fl (- (3)) == - (3)) by (vm_compute; reflexivity).
  destruct (round_between (c * w) (- (3)) 3) as (v & -> & V1 & V2).
  { nra. }
  { nra. }
  { rewrite N3. vm_compute; reflexivity. }
  { rewrite F3. vm_compute; reflexivity. }
  rewrite N3 in V1. rewrite F3 in V2. rewrite add_Fin.
  assert (Y2' : y <= 1 # 4).
  { eapply Qle_trans; [exact Y2|]. vm_compute; discriminate. }
  assert (Y1' : - (1 # 4) <= y).
  { eapply Qle_trans; [|exact Y1]. vm_compute; discriminate. }
  assert (F4 : fl (13 # 4) == 13 # 4) by (vm_compute; reflexivity).
  assert (N4 : fl (- (13 # 4)) == - (13 # 4)) by (vm_compute; reflexivity).
  destruct (round_between (v + y) (- (13 # 4)) (13 # 4)) as (x & -> & X1 & X2).
  { lra. }
  { lra. }
  { rewrite N4. vm_compute; reflexivity. }
  { rewrite F4. vm_compute; reflexivity. }
  rewrite N4 in X1. rewrite F4 in X2.
  assert (L1 : lit (- (325 # 100)) = Fin (- (13 # 4))) by (vm_compute; reflexivity).
  assert (L2 : lit (325 # 100) = Fin (13 # 4)) by (vm_compute; reflexivity).
  rewrite L1, L2. split; by apply num_le_Fin.
Qed.
Close Scope Q_scope.

(** For the ordinals of the page and far beyond, when [Math.random] returns
    binary64 values in [0, 1) and [Math.cos] and [Math.sin] values in
    [-1, 1]: every point lies within 3.25 of the vertical axis in x and in
    z. *)
Theorem sample_extent (h : Host) (slideNumber : Z) (k j : nat) (p : Point.t) :
  random_ok h → trig_ok h →
  (0 ≤ slideNumber ≤ 2 ^ 40)%Z →
  (generateSampleData h slideNumber k).1 !! j = Some p →
  within_closed (lit (- (325 # 100))) (lit (325 # 100)) (Point.x p) ∧
  within_closed (lit (- (325 # 100))) (lit (325 # 100)) (Point.z p).
Proof.
  intros Hr Ht Hs. rewrite generateSampleData_points. cbn [fst].
  intros Hj. pose proof (lookup_lt_Some _ _ _ Hj) as Hlen.
  rewrite points_from_length in Hlen.
  apply points_from_lookup in Hj as ->. unfold sample_point.
  cbn [Point.x Point.z]. rewrite Z.add_0_l.
  destruct (angle_finite (numPoints slideNumber) (Z.of_nat j)) as [q ->].
  { unfold numPoints in *. lia. }
  { unfold numPoints. lia. }
  destruct (Ht q) as [Hc Hsn].
  split; apply ring_coordinate; auto.
Qed.

Lemma clamp_unit (a : number) : unit_range (clamp a).
Proof.
  destruct a as [q| | |]; simpl.
  - destruct (Qle_bool q (- (1))) eqn:E1.
    { exists (- (1))%Q. by repeat split. }
    destruct (Qle_bool 1 q) eqn:E2.
    { exists 1%Q. by repeat split. }
    exists q. split; [done|].
    assert (¬ (q <= - (1))%Q) by (rewrite <- Qle_bool_iff; congruence).
    assert (¬ (1 <= q)%Q) by (rewrite <- Qle_bool_iff; congruence).
    split; lra.
  - exists 1%Q. by repeat split.
  - exists (- (1))%Q. by repeat split.
  - exists 0%Q. by repeat split.
Qed.

Lemma bounded_host_ok : random_ok bounded_host ∧ trig_ok bounded_host.
Proof.
  split.
  - unfold random_ok, bounded_host, clamped_host; cbn [Math_random].
    apply cycle_ok; [discriminate|].
    repeat constructor; vm_compute; congruence.
  - intros q. split; apply clamp_unit.
Qed.

Lemma sample_extent_witness :
  (generateSampleData bounded_host 1 0).1 !! 0
  = Some (sample_point bounded_host 1 70 0 0) ∧
  within_closed (lit (- (325 # 100))) (lit (325 # 100))
    (Point.x (sample_point bounded_host 1 70 0 0)).
Proof.
  assert (Hl : (generateSampleData bounded_host 1 0).1 !! 0
               = Some (sample_point bounded_host 1 70 0 0))
    by (vm_compute; reflexivity).
  split; [exact Hl|].
  refine (proj1 (sample_extent bounded_host 1 0 0 _
                   (proj1 bounded_host_ok) (proj2 bounded_host_ok) _ Hl)).
  split; discriminate.
Defined.

(** * One frame, one step of rotation *)

Lemma run_callback_other (three : bool) (i j : Z) (s : State) :
  j ≠ i →
  vizs (run_callback (plot_callback three j) s) !! i = vizs s !! i.
Proof.
  intros Hji. destruct three; simpl; unfold draw, animate, requestAnimationFrame;
    (destruct (vizs s !! j) as [[c|v]|]; [..|done]; try done);
    unfold set_viz; cbn [vizs set_vizs set_raf]; by rewrite lookup_insert_ne.
Qed.

Lemma run_callbacks_other (three : bool) (i : Z) (l : list (Z * Callback))
    (s : State) :
  (∀ x, x ∈ l → ∃ j, x.2 = plot_callback three j ∧ j ≠ i) →
  vizs (foldl (λ acc p, run_callback p.2 acc) s l) !! i = vizs s !! i.
Proof.
  revert s. induction l as [|x l IH]; intros s Hl; [done|]. simpl.
  rewrite IH by (intros y Hy; apply Hl; by right).
  destruct (Hl x) as (j & -> & Hj); [left|]. by apply run_callback_other.
Qed.

Lemma present_NoDup (p : Page) : NoDup (present p).
Proof.
  unfold present. apply NoDup_filter.
  repeat (apply NoDup_cons; split;
          [rewrite ?elem_of_cons, elem_of_nil; intros H;
           repeat destruct H as [H|H]; done|]).
  apply NoDup_nil_2.
Qed.

(** In a state reached without [destroy], the pending callbacks are one for
    the visualization of slide [i], between callbacks of other slides. *)
Lemma reachable_callbacks_split (h : Host) (p : Page) (acts : list Action)
    (i : Z) :
  CallDestroy ∉ acts → ordinal i → is_Some (page_containers p !! i) →
  ∃ l1 id l2,
    raf_callbacks (run acts (carousel_of h p))
    = l1 ++ (id, plot_callback (page_THREE p) i) :: l2 ∧
    (∀ x, x ∈ l1 ++ l2 → ∃ j, x.2 = plot_callback (page_THREE p) j ∧ j ≠ i).
Proof.
  intros Hn Hi Hc.
  pose proof (run_callbacks acts (carousel_of h p) Hn (constructor_live h p)) as Hcb.
  rewrite constructor_callbacks in Hcb.
  assert (Hin : i ∈ present p) by (by apply elem_of_present).
  apply list_elem_of_split in Hin as (k1 & k2 & Hk).
  pose proof (present_NoDup p) as Hnd. rewrite Hk in Hnd, Hcb.
  rewrite fmap_app, fmap_cons in Hcb.
  apply fmap_app_inv in Hcb as (l1 & l' & H1 & H2 & ->).
  destruct l' as [|[id cb] l2]; [done|]. rewrite fmap_cons in H2.
  cbn [snd] in H2. injection H2 as <- H2.
  exists l1, id, l2. split; [done|].
  apply NoDup_app in Hnd as (_ & Hd1 & Hnd).
  apply NoDup_cons in Hnd as (Hd2 & _).
  intros x [Hx|Hx]%elem_of_app.
  - apply list_elem_of_fmap_2 with (f := snd) in Hx. rewrite <- H1 in Hx.
    apply list_elem_of_fmap in Hx as (j & -> & Hj). exists j. split; [done|].
    intros ->. apply (Hd1 i Hj). left.
  - apply list_elem_of_fmap_2 with (f := snd) in Hx. rewrite <- H2 in Hx.
    apply list_elem_of_fmap in Hx as (j & -> & Hj). exists j. split; [done|].
    by intros ->.
Qed.

(** As long as [destroy] was not called, an animation frame runs the loop
    of every visualization exactly once: the 3D point cloud turns by 0.002
    about x and 0.003 about y, the 2D placeholder by 0.01. *)
Theorem frame_rotates_once (h : Host) (p : Page) (acts : list Action) (i : Z) :
  CallDestroy ∉ acts → ordinal i → is_Some (page_containers p !! i) →
  (page_THREE p = true →
   ∃ rx ry,
     rotation i (run acts (carousel_of h p)) = Some (rx, ry) ∧
     rotation i (animation_frame (run acts (carousel_of h p)))
     = Some (add rx (lit (2 # 1000)), add ry (lit (3 # 1000)))) ∧
  (page_THREE p = false →
   ∃ r,
     canvas_rotation i (run acts (carousel_of h p)) = Some r ∧
     canvas_rotation i (animation_frame (run acts (carousel_of h p)))
     = Some (add r (lit (1 # 100)))).
Proof.
  intros Hn Hi Hc.
  destruct (reachable_callbacks_split h p acts i Hn Hi Hc)
    as (l1 & id & l2 & Hraf & Hother).
  destruct Hc as [ct Hc].
  destruct (constructor_mounted h p i ct Hi Hc) as (pts & hdl & Hv0 & _).
  destruct (viz_data_fixed _ _ i _ (run_fixed acts (carousel_of h p)) Hv0)
    as (v & Hv & Hd).
  set (s := run acts (carousel_of h p)) in *.
  unfold animation_frame. rewrite Hraf, foldl_app. cbn [foldl snd].
  set (s1 := foldl _ (set_raf _ _ _) l1).
  assert (Hv1 : vizs s1 !! i = Some v).
  { unfold s1. rewrite (run_callbacks_other (page_THREE p)); [done|].
    intros x Hx. apply Hother, elem_of_app. by left. }
  assert (Hrest : ∀ t, vizs (foldl (λ acc q, run_callback q.2 acc) t l2) !! i
                       = vizs t !! i).
  { intros t. apply (run_callbacks_other (page_THREE p)).
    intros x Hx. apply Hother, elem_of_app. by right. }
  unfold rotation, canvas_rotation. rewrite Hrest, Hv.
  split; intros Ht; rewrite Ht in *; simpl in Hd;
    destruct v as [c|v]; try discriminate; cbn [run_callback plot_callback].
  - exists (sv_rotation_x v), (sv_rotation_y v). split; [done|].
    unfold animate. rewrite Hv1. unfold requestAnimationFrame, set_viz.
    cbn [vizs set_vizs set_raf]. by rewrite lookup_insert_eq.
  - exists (cv_rotation c). split; [done|].
    unfold draw. rewrite Hv1. unfold requestAnimationFrame, set_viz.
    cbn [vizs set_vizs set_raf]. by rewrite lookup_insert_eq.
Qed.

Lemma frame_rotates_once_witness :
  ∃ r,
    canvas_rotation 3 (run [Frame; CallNextSlide] (carousel_of sample_host page_1_3))
    = Some r ∧
    canvas_rotation 3
      (animation_frame
         (run [Frame; CallNextSlide] (carousel_of sample_host page_1_3)))
    = Some (add r (lit (1 # 100))).
Proof.
  refine (proj2 (frame_rotates_once sample_host page_1_3 [Frame; CallNextSlide] 3
                   _ _ _) eq_refl).
  - intros H. repeat (apply elem_of_cons in H as [H|H]; [discriminate|]).
    by apply elem_of_nil in H.
  - by do 2 right.
  - by eexists.
Defined.
